(** * TensorFlow Probability: joint-distribution calling convention,
      measure wrappers of [Distribution], and the windowed-adaptation schedule.

    A shallow embedding of
      - [tensorflow_probability/python/distributions/joint_distribution.py]
        ([_resolve_value_from_args], [maybe_check_wont_broadcast],
        [JointDistribution._map_measure_over_dists], [_log_prob],
        [log_prob_parts], [prob_parts], [log_prob], [prob],
        [get_explicit_name_for_component], [_flat_resolve_names],
        [_get_single_sample_distributions], [_sample_n],
        [_call_flat_sample_distributions]);
      - [tensorflow_probability/python/distributions/distribution.py]
        ([Distribution.__init__] with the metaclass wrapper and
        [_remove_dict_keys_with_value], [parameters], [copy], [_call_log_prob], [_call_prob], [_cast_structure],
        [_set_sample_static_shape_for_tensor], [_call_cdf], [_call_log_cdf],
        [_call_survival_function], [_call_log_survival_function], [variance],
        [stddev]);
      - the window-size schedule exercised by [windowed_sampling_test.py].

    Python values are an inductive type, exceptions are a sum type, mutable
    objects live in an explicit heap. *)

From stdpp Require Import base option list strings gmap sorting pretty.
From Stdlib Require Import ZArith Lia.

Set Default Proof Using "Type".
Set Warnings "-register-all".

(** ** Python values and exceptions *)

Module Py.

Definition addr := nat.

(** Values that flow through the modelled code.  [T] is the type of tensor
    leaves; the code under study never inspects a leaf, it only moves leaves
    around or hands them to the tensor backend. *)
Inductive pyval (T : Type) : Type :=
| PNone
| PInt (n : Z)
| PStr (s : string)
| PDType (name : string)
| PTensor (t : T)
| PRef (a : addr)
| PList (xs : list (pyval T))
| PTuple (xs : list (pyval T))
| PDict (kvs : list (string * pyval T))
| POrderedDict (kvs : list (string * pyval T)).

Arguments PNone {T}.
Arguments PInt {T} n.
Arguments PStr {T} s.
Arguments PDType {T} name.
Arguments PTensor {T} t.
Arguments PRef {T} a.
Arguments PList {T} xs.
Arguments PTuple {T} xs.
Arguments PDict {T} kvs.
Arguments POrderedDict {T} kvs.

(** Keyword arguments, [**kwargs] *)
Abbreviation kwargs_t T := (gmap string (pyval T)).

(** What an exception was raised with; the format arguments of the message
    are kept as data. *)
Inductive error (T : Type) : Type :=
| ValueError_count (expected : nat) (flat_names : list string)
    (num_components_specified : nat)
    (args : list (pyval T)) (kwargs : gmap string (pyval T))
| ValueError_unordered (args : list (pyval T))
| ValueError_none_part (value : pyval T)
| ValueError_broadcast
| ValueError_unexpected_kwargs (flat_names : list string)
    (unmatched : gmap string (pyval T))
| ValueError_other (msg : string)
| TypeError (msg : string)
| IndexError
| KeyError (key : string)
| AttributeError (attr : string)
| NotImplementedError (what : string).

Arguments ValueError_count {T}.
Arguments ValueError_unordered {T}.
Arguments ValueError_none_part {T}.
Arguments ValueError_broadcast {T}.
Arguments ValueError_unexpected_kwargs {T}.
Arguments ValueError_other {T}.
Arguments TypeError {T}.
Arguments IndexError {T}.
Arguments KeyError {T}.
Arguments AttributeError {T}.
Arguments NotImplementedError {T}.

Inductive result (T A : Type) : Type :=
| Ok (a : A)
| Raise (e : error T).

Arguments Ok {T A} a.
Arguments Raise {T A} e.

(** The exception monad, with stdpp's notations [x ← m; k] and [f <$> m]. *)
#[global] Instance result_ret {T} : MRet (result T) := λ A a, Ok a.
#[global] Instance result_bind {T} : MBind (result T) := λ A B f m,
  match m with
  | Ok a => f a
  | Raise e => Raise e
  end.
#[global] Instance result_fmap {T} : FMap (result T) := λ A B f m,
  match m with
  | Ok a => Ok (f a)
  | Raise e => Raise e
  end.

(** Running the items of a sequence in order, stopping at the first raise. *)
Fixpoint sequence {T A} (l : list (result T A)) : result T (list A) :=
  match l with
  | [] => Ok []
  | m :: l' => x ← m; xs ← sequence l'; Ok (x :: xs)
  end.

Definition is_none {T} (v : pyval T) : bool :=
  match v with PNone => true | _ => false end.

(** [v is a] for an object [a]: identity, true only of a reference to [a]. *)
Definition is_obj {T} (a : addr) (v : pyval T) : bool :=
  match v with PRef b => Nat.eqb a b | _ => false end.

(** [len(v)] *)
Definition py_len {T} (v : pyval T) : result T nat :=
  match v with
  | PList xs | PTuple xs => Ok (length xs)
  | PDict kvs | POrderedDict kvs => Ok (length kvs)
  | PStr s => Ok (String.length s)
  | _ => Raise (TypeError "object has no len()")
  end.

(** [xs[i]] on a sequence *)
Definition py_index {T A} (xs : list A) (i : nat) : result T A :=
  match xs !! i with
  | Some x => Ok x
  | None => Raise IndexError
  end.

(** [isinstance(v, dict) and not isinstance(v, collections.OrderedDict)] *)
Definition is_unordered_dict {T} (v : pyval T) : bool :=
  match v with PDict _ => true | _ => false end.

End Py.

Export Py.


(** ** The window schedule of the windowed-adaptation driver *)

Module Windowed.

(** Modelled from the spec: [windowed_sampling._get_window_sizes] is not among
    the sources at hand, only its test is.  The spec fixes the first and last
    windows as fractions of the budget, with unit 25 and windows 75 at a
    budget of 525 = 21 * 25 (75 + 25 * (1 + 2 + 4 + 8) + 75), and lets the
    last window absorb the remainder.  [//] is Python's floor division. *)
Definition _get_window_sizes (num_adaptation_steps : Z) : Z * Z * Z :=
  let slow_window_size := (num_adaptation_steps `div` 21)%Z in
  let first_window_size := (3 * slow_window_size)%Z in
  let last_window_size :=
    (num_adaptation_steps - 15 * slow_window_size - first_window_size)%Z in
  (first_window_size, slow_window_size, last_window_size).

(** The quantity [test_get_window_sizes] compares with [num_draws]. *)
Definition window_total (w : Z * Z * Z) : Z :=
  let '(first_window, slow_window, last_window) := w in
  (first_window + slow_window + 2 * slow_window + 4 * slow_window
   + 8 * slow_window + last_window)%Z.

End Windowed.

(** ** [tf.nest]: the structure of nested values

    [tf.nest] belongs to the tensor backend.  Lists, tuples and dicts are
    nested; everything else, [None] included, is an atom.  A dict is walked in
    the sorted order of its keys. *)

Module Nest.

Section nest.
Context {T : Type}.

Fixpoint insert_by_key {A} (kv : string * A) (l : list (string * A))
  : list (string * A) :=
  match l with
  | [] => [kv]
  | kv' :: l' =>
      if String.leb kv.1 kv'.1 then kv :: l else kv' :: insert_by_key kv l'
  end.

Definition sort_by_key {A} (l : list (string * A)) : list (string * A) :=
  foldr insert_by_key [] l.

(** [tf.nest.is_nested] *)
Definition is_nested (v : pyval T) : bool :=
  match v with
  | PList _ | PTuple _ | PDict _ | POrderedDict _ => true
  | _ => false
  end.

(** [tf.nest.flatten] *)
Fixpoint flatten (v : pyval T) : list (pyval T) :=
  match v with
  | PList xs | PTuple xs => concat (map flatten xs)
  | PDict kvs | POrderedDict kvs =>
      concat (map snd (sort_by_key (map (λ kv, (kv.1, flatten kv.2)) kvs)))
  | atom => [atom]
  end.

(** The nesting skeleton that [assert_same_structure] compares when
    [check_types=False]: atoms against atoms, nested values against nested
    values with as many children, child by child. *)
Inductive skeleton : Type :=
| Atom
| Nested (children : list skeleton).

Fixpoint skeleton_of (v : pyval T) : skeleton :=
  match v with
  | PList xs | PTuple xs => Nested (map skeleton_of xs)
  | PDict kvs | POrderedDict kvs =>
      Nested (map snd (sort_by_key (map (λ kv, (kv.1, skeleton_of kv.2)) kvs)))
  | _ => Atom
  end.

Fixpoint skeleton_eqb (a b : skeleton) : bool :=
  match a, b with
  | Atom, Atom => true
  | Nested xs, Nested ys =>
      (fix go (xs ys : list skeleton) : bool :=
         match xs, ys with
         | [], [] => true
         | x :: xs', y :: ys' => skeleton_eqb x y && go xs' ys'
         | _, _ => false
         end) xs ys
  | _, _ => false
  end.

(** [tf.nest.assert_same_structure(a, b, check_types=False)]; a mismatch is a
    [ValueError]. *)
Definition assert_same_structure (a b : pyval T) : result T unit :=
  if skeleton_eqb (skeleton_of a) (skeleton_of b) then Ok tt
  else Raise (ValueError_other "The two structures don't have the same nested structure.").

End nest.

End Nest.

(** ** The calling convention of [JointDistribution]: [_resolve_value_from_args] *)

Module Resolver.

Section resolver.
Context {T : Type}.

(** [tf.nest.assert_same_structure(_, _, check_types=False)], from the
    backend; it returns or raises. *)
Variable assert_same_structure : pyval T → pyval T → result T unit.

(** [except (ValueError, TypeError)] *)
Definition is_ValueError_or_TypeError (e : error T) : bool :=
  match e with
  | ValueError_count _ _ _ _ _ | ValueError_unordered _
  | ValueError_none_part _ | ValueError_broadcast
  | ValueError_unexpected_kwargs _ _ | ValueError_other _
  | TypeError _ => true
  | _ => false
  end.

(** [matched_kwargs = {k for k in flat_names if k in kwargs}] *)
Definition matched_kwargs_of (flat_names : list string)
    (kwargs : gmap string (pyval T)) : gset string :=
  list_to_set (filter (λ k, k ∈ dom kwargs) flat_names).

(** [{k: v for (k, v) in kwargs.items() if k not in matched_kwargs}] *)
Definition unmatched_kwargs_of (flat_names : list string)
    (kwargs : gmap string (pyval T)) : gmap string (pyval T) :=
  filter (λ kv, kv.1 ∉ matched_kwargs_of flat_names kwargs) kwargs.

(** [(kwargs[k] if k in kwargs else args[i] for i, k in enumerate(flat_names))],
    consumed by [model_unflatten_fn]; [i] is the index of the first name. *)
Fixpoint component_values (i : nat) (flat_names : list string)
    (args : list (pyval T)) (kwargs : gmap string (pyval T))
  : result T (list (pyval T)) :=
  match flat_names with
  | [] => Ok []
  | k :: names =>
      v ← match kwargs !! k with
          | Some v => Ok v
          | None => py_index args i
          end;
      vs ← component_values (S i) names args kwargs;
      Ok (v :: vs)
  end.

(** The walk in the words of the specification, to compare with
    [component_values]: each declared name takes its keyword if there is one,
    and otherwise the next positional argument not used so far. *)
Fixpoint walk_next_unused (flat_names : list string)
    (args : list (pyval T)) (kwargs : gmap string (pyval T))
  : option (list (pyval T)) :=
  match flat_names with
  | [] => Some []
  | k :: names =>
      match kwargs !! k with
      | Some v => (v ::.) <$> walk_next_unused names args kwargs
      | None =>
          match args with
          | a :: args' => (a ::.) <$> walk_next_unused names args' kwargs
          | [] => None
          end
      end
  end.

(** The keyword [value] is missing or is [None]: [kwargs.pop('value', None)]
    is [None]. *)
Definition no_value_keyword (kwargs : gmap string (pyval T)) : Prop :=
  kwargs !! "value" = None ∨ kwargs !! "value" = Some PNone.

(** [model_flatten_fn] and [model_unflatten_fn] are the model's own pair of
    converters between its structure and a flat sequence; they are taken as
    functions that return. *)
Definition _resolve_value_from_args
    (args : list (pyval T)) (kwargs : gmap string (pyval T))
    (dtype : pyval T) (flat_names : list string)
    (model_flatten_fn : pyval T → list (pyval T))
    (model_unflatten_fn : list (pyval T) → pyval T)
  : result T (pyval T * gmap string (pyval T)) :=
  (* value = kwargs.pop('value', None) *)
  let value := default PNone (kwargs !! "value") in
  let kwargs := delete "value" kwargs in
  if negb (is_none value) then Ok (value, kwargs) else
  let matched_kwargs := matched_kwargs_of flat_names kwargs in
  let unmatched_kwargs := unmatched_kwargs_of flat_names kwargs in
  if decide (length args = 1 ∧ matched_kwargs = ∅) then
    let arg0 := default PNone (args !! 0) in
    n ← py_len dtype;
    if decide (1 < n) then Ok (arg0, unmatched_kwargs) else
    first_component_dtype ← py_index (model_flatten_fn dtype) 0;
    match assert_same_structure first_component_dtype arg0 with
    | Ok _ => Ok (model_unflatten_fn args, unmatched_kwargs)
    | Raise e =>
        if is_ValueError_or_TypeError e then Ok (arg0, unmatched_kwargs)
        else Raise e
    end
  else
  let num_components_specified :=
    length args + size kwargs - size unmatched_kwargs in
  if decide (num_components_specified ≠ length flat_names) then
    Raise (ValueError_count (length flat_names) flat_names
             num_components_specified args kwargs)
  else if decide (args ≠ [] ∧ is_unordered_dict dtype = true) then
    Raise (ValueError_unordered args)
  else
    vs ← component_values 0 flat_names args kwargs;
    Ok (model_unflatten_fn vs, unmatched_kwargs).

End resolver.

End Resolver.

(** ** The tensor backend, as an interface *)

Module Backend.

(** What the modelled code asks of TensorFlow, NumPy and [prefer_static]. *)
Class TensorBackend (T : Type) := {
  Shape : Type;
  (** [a + b] when one side is a tensor *)
  tf_add : pyval T → pyval T → result T (pyval T);
  tf_exp : pyval T → result T (pyval T);
  tf_math_log : pyval T → result T (pyval T);
  (** [iter(t)] on a tensor: its slices along the first axis, and a
      [TypeError] on a scalar *)
  tf_iter : T → result T (list (pyval T));
  (** [prefer_static.shape] *)
  ps_shape : pyval T → Shape;
  (** [prefer_static.is_numpy]: the shape is known statically *)
  ps_is_numpy : Shape → bool;
  (** [np.all(a == b)] *)
  np_all_equal : Shape → Shape → bool;
  (** [tf.identity(x)] under [tf.control_dependencies] of the
      [assert_util.assert_equal(a, b)] of the given pairs *)
  identity_with_assertions : list (Shape * Shape) → pyval T → pyval T;
  (** [nest_util.convert_to_nested_tensor(value, name='value',
      dtype_hint=dtype, allow_packing=True)] *)
  convert_to_nested_tensor : pyval T → pyval T → result T (pyval T);
}.

Section python.
Context {T : Type} `{TensorBackend T}.

(** Python's [a + b] *)
Definition py_add (a b : pyval T) : result T (pyval T) :=
  match a, b with
  | PInt m, PInt n => Ok (PInt (m + n))
  | _, _ => tf_add a b
  end.

(** Python's [sum(xs)], which starts from the int [0] *)
Definition py_sum (xs : list (pyval T)) : result T (pyval T) :=
  foldl (λ acc x, a ← acc; py_add a x) (Ok (PInt 0)) xs.

End python.

End Backend.

Export Backend.

(** ** [Distribution]: the public measure wrappers *)

Module Distribution.

Section distribution.
Context {T : Type} `{TensorBackend T}.

(** A distribution object as the wrappers see it.  A private primitive that
    the subtype does not define is [None] ([hasattr] is false). *)
Record Distribution := {
  dtype : pyval T;
  _log_prob : option (pyval T → kwargs_t T → result T (pyval T));
  _prob : option (pyval T → kwargs_t T → result T (pyval T));
  (** entering [_name_and_control_scope(name, value, kwargs)]: the parameter
      assertions and, when a value is given, [_sample_control_dependencies];
      [None] stands for [UNSET_VALUE] *)
  _control_dependencies : option (pyval T) → kwargs_t T → result T unit;
}.

(** Python's iteration over a value, as [list(v)] and [tuple(v)] use it *)
Definition py_iter (v : pyval T) : result T (list (pyval T)) :=
  match v with
  | PList xs | PTuple xs => Ok xs
  | PDict kvs | POrderedDict kvs => Ok (map (λ kv, PStr kv.1) kvs)
  | PStr s => Ok (map (λ c, PStr (String c "")) (String.list_ascii_of_string s))
  | PTensor t => tf_iter t
  | _ => Raise (TypeError "object is not iterable")
  end.

(** One element of the sequence that [dict(v)] is given: a sequence of
    length two, a key and a value.  The keys of the dicts modelled here are
    strings, and a key of another type is refused. *)
Definition py_item (x : pyval T) : result T (string * pyval T) :=
  match py_iter x with
  | Ok [PStr k; y] => Ok (k, y)
  | Ok [_; _] => Raise (TypeError "the key is not a string")
  | Ok _ =>
      Raise (ValueError_other
               "dictionary update sequence element has length other than 2; 2 is required")
  | Raise _ =>
      Raise (TypeError
               "cannot convert dictionary update sequence element to a sequence")
  end.

(** [d[k] = v] on the items of a dict: a key that is there keeps its place
    and takes the value, a new key goes last. *)
Fixpoint set_item (kvs : list (string * pyval T)) (k : string) (v : pyval T)
  : list (string * pyval T) :=
  match kvs with
  | [] => [(k, v)]
  | (k', v') :: kvs' =>
      if String.eqb k' k then (k, v) :: kvs' else (k', v') :: set_item kvs' k v
  end.

Definition items_of_pairs (pairs : list (string * pyval T))
  : list (string * pyval T) :=
  foldl (λ kvs kv, set_item kvs kv.1 kv.2) [] pairs.

(** The items of [dict(v)] *)
Definition py_items (v : pyval T) : result T (list (string * pyval T)) :=
  match v with
  | PDict kvs | POrderedDict kvs => Ok kvs
  | PList xs | PTuple xs => items_of_pairs <$> sequence (map py_item xs)
  | PStr s =>
      if String.eqb s "" then Ok []
      else Raise (ValueError_other "dictionary update sequence element #0 has length 1; 2 is required")
  | PTensor t => xs ← tf_iter t; items_of_pairs <$> sequence (map py_item xs)
  | _ => Raise (TypeError "object is not iterable")
  end.

(** [type(structure)(value)] *)
Definition cast_to_type_of (structure value : pyval T) : result T (pyval T) :=
  match structure with
  | PList _ => PList <$> py_iter value
  | PTuple _ => PTuple <$> py_iter value
  | PDict _ => PDict <$> py_items value
  | POrderedDict _ => POrderedDict <$> py_items value
  | _ => Ok value
  end.

(** [_cast_structure]; the values modelled here have no named tuples. *)
Definition _cast_structure (value structure : pyval T) : result T (pyval T) :=
  if Nest.is_nested structure then cast_to_type_of structure value
  else Ok value.

Definition _call_log_prob (self : Distribution) (value : pyval T)
    (name : pyval T) (kwargs : kwargs_t T) : result T (pyval T) :=
  value ← _cast_structure value (dtype self);
  value ← convert_to_nested_tensor value (dtype self);
  _ ← _control_dependencies self (Some value) kwargs;
  match _log_prob self with
  | Some f => f value kwargs
  | None =>
      match _prob self with
      | Some g => p ← g value kwargs; tf_math_log p
      | None => Raise (NotImplementedError "log_prob")
      end
  end.

Definition log_prob (self : Distribution) (value : pyval T)
    (name : pyval T) (kwargs : kwargs_t T) : result T (pyval T) :=
  _call_log_prob self value name kwargs.

Definition _call_prob (self : Distribution) (value : pyval T)
    (name : pyval T) (kwargs : kwargs_t T) : result T (pyval T) :=
  value ← _cast_structure value (dtype self);
  value ← convert_to_nested_tensor value (dtype self);
  _ ← _control_dependencies self (Some value) kwargs;
  match _prob self with
  | Some g => g value kwargs
  | None =>
      match _log_prob self with
      | Some f => lp ← f value kwargs; tf_exp lp
      | None => Raise (NotImplementedError "prob")
      end
  end.

Definition prob (self : Distribution) (value : pyval T)
    (name : pyval T) (kwargs : kwargs_t T) : result T (pyval T) :=
  _call_prob self value name kwargs.

End distribution.

Arguments Distribution T : clear implicits.

End Distribution.

(** ** [JointDistribution]: measures over the components *)

Module JointDistribution.

Import Distribution.

Inductive measure := LogProb | Prob.

Section joint.
Context {T : Type} `{TensorBackend T}.

(** A component distribution as [getattr(d, attr)(x)] uses it: its public
    measure methods. *)
Record component := {
  c_log_prob : pyval T → result T (pyval T);
  c_prob : pyval T → result T (pyval T);
}.

Definition of_distribution (d : Distribution T) : component := {|
  c_log_prob x := Distribution.log_prob d x (PStr "log_prob") ∅;
  c_prob x := Distribution.prob d x (PStr "prob") ∅;
|}.

(** A joint distribution: what its subclass supplies ([_model_flatten],
    [_model_unflatten], [_flat_sample_distributions]) and what the base class
    reads from it. *)
Record JointDistribution := {
  (** the [dtype] property and [_flat_resolve_names()], as values: what the
      two compute from the distributions of a single sample.  Both start with
      [_get_single_sample_distributions()]; that call, which reads and may
      write the cache of distributions, is in [Sampling]. *)
  jd_dtype : pyval T;
  _flat_resolve_names : result T (list string);
  _model_flatten : pyval T → list (pyval T);
  _model_unflatten : list (pyval T) → pyval T;
  (** [_flat_sample_distributions(sample_shape, seed, value)] *)
  _flat_sample_distributions :
    pyval T → pyval T → option (list (pyval T)) →
    result T (list component * list (pyval T));
  validate_args : bool;
  (** entering [_name_and_control_scope] *)
  jd_control_dependencies : option (pyval T) → kwargs_t T → result T unit;
}.

(** [dummy_seed()] outside JAX *)
Definition dummy_seed : pyval T := PInt 42.

Definition getattr_measure (d : component) (attr : measure)
  : pyval T → result T (pyval T) :=
  match attr with
  | LogProb => c_log_prob d
  | Prob => c_prob d
  end.

Definition _call_flat_sample_distributions (self : JointDistribution)
    (sample_shape seed value : pyval T) (kwargs : kwargs_t T)
  : result T (list component * list (pyval T)) :=
  value ←
    (if decide (is_none value = true ∧ kwargs ≠ ∅) then
       names ← _flat_resolve_names self;
       (* kwargs.update({k: kwargs.get(k) for k in names}) *)
       let kwargs :=
         foldl (λ kw k, <[k := default PNone (kwargs !! k)]> kw) kwargs names in
       '(value, unmatched_kwargs) ←
         Resolver._resolve_value_from_args Nest.assert_same_structure
           [] kwargs (jd_dtype self) names
           (_model_flatten self) (_model_unflatten self);
       if decide (unmatched_kwargs ≠ ∅) then
         Raise (ValueError_unexpected_kwargs names unmatched_kwargs)
       else Ok value
     else Ok value);
  let value :=
    if is_none value then None else Some (_model_flatten self value) in
  _flat_sample_distributions self sample_shape seed value.

(** The result is the generator [(getattr(d, attr)(x) for d, x in zip(ds, xs))]:
    its items run only when the generator is consumed. *)
Definition _map_measure_over_dists (self : JointDistribution)
    (attr : measure) (value : pyval T)
  : result T (list (result T (pyval T))) :=
  if existsb is_none (Nest.flatten value) then
    Raise (ValueError_none_part value)
  else
    '(ds, xs) ← _call_flat_sample_distributions self (PTuple []) dummy_seed
                  value ∅;
    Ok (zip_with (λ d x, getattr_measure d attr x) ds xs).

(** [zip(s[1:], s[:-1])] *)
Definition adjacent {A} (s : list A) : list (A * A) :=
  zip (drop 1 s) (take (length s - 1) s).

Definition maybe_check_wont_broadcast (flat_xs : list (result T (pyval T)))
    (validate_args : bool) : result T (list (pyval T)) :=
  (* flat_xs = tuple(flat_xs) *)
  flat_xs ← sequence flat_xs;
  if negb validate_args then Ok flat_xs else
  let s := map ps_shape flat_xs in
  if forallb ps_is_numpy s then
    if negb (forallb (λ ab, np_all_equal ab.1 ab.2) (adjacent s)) then
      Raise ValueError_broadcast
    else Ok flat_xs
  else
    Ok (map (identity_with_assertions (adjacent s)) flat_xs).

Definition _log_prob (self : JointDistribution) (value : pyval T)
  : result T (pyval T) :=
  xs ← _map_measure_over_dists self LogProb value;
  parts ← maybe_check_wont_broadcast xs (validate_args self);
  py_sum parts.

Definition log_prob_parts (self : JointDistribution) (value : pyval T)
  : result T (pyval T) :=
  _ ← jd_control_dependencies self None ∅;
  xs ← _map_measure_over_dists self LogProb value;
  _model_unflatten self <$> maybe_check_wont_broadcast xs (validate_args self).


(** The joint distribution as the [Distribution] it inherits from: it defines
    [_log_prob(self, value)], which takes no other keyword, and no [_prob]. *)
Definition as_distribution (self : JointDistribution) : Distribution T := {|
  dtype := jd_dtype self;
  Distribution._log_prob := Some (λ value kwargs,
    if decide (kwargs = ∅) then _log_prob self value
    else Raise (TypeError "_log_prob() got an unexpected keyword argument"));
  _prob := None;
  _control_dependencies := jd_control_dependencies self;
|}.

(** [value, unmatched_kwargs = _resolve_value_from_args(args, kwargs, ...)]
    with [kwargs['name']] defaulted, as [log_prob] and [prob] start *)
Definition resolve_call (self : JointDistribution) (method : string)
    (args : list (pyval T)) (kwargs : kwargs_t T)
  : result T (pyval T * kwargs_t T) :=
  let kwargs := <["name" := default (PStr method) (kwargs !! "name")]> kwargs in
  flat_names ← _flat_resolve_names self;
  Resolver._resolve_value_from_args Nest.assert_same_structure
    args kwargs (jd_dtype self) flat_names
    (_model_flatten self) (_model_unflatten self).

(** [self._call_log_prob(value, **unmatched_kwargs)] and its sibling *)
Definition call_with_unmatched
    (call : Distribution T → pyval T → pyval T → kwargs_t T → result T (pyval T))
    (self : JointDistribution) (value : pyval T) (unmatched_kwargs : kwargs_t T)
  : result T (pyval T) :=
  match unmatched_kwargs !! "name" with
  | Some name =>
      call (as_distribution self) value name (delete "name" unmatched_kwargs)
  | None => Raise (TypeError "missing 1 required positional argument: 'name'")
  end.

Definition log_prob (self : JointDistribution)
    (args : list (pyval T)) (kwargs : kwargs_t T) : result T (pyval T) :=
  '(value, unmatched_kwargs) ← resolve_call self "log_prob" args kwargs;
  call_with_unmatched _call_log_prob self value unmatched_kwargs.

Definition prob (self : JointDistribution)
    (args : list (pyval T)) (kwargs : kwargs_t T) : result T (pyval T) :=
  '(value, unmatched_kwargs) ← resolve_call self "prob" args kwargs;
  call_with_unmatched _call_prob self value unmatched_kwargs.

End joint.

Arguments component T : clear implicits.
Arguments JointDistribution T : clear implicits.

End JointDistribution.

(** ** [Distribution] objects on the heap: [__init__], [parameters], [copy]

    [parameters] rewrites attributes of the instance and hands out a fresh
    [dict]; [copy] builds a second instance.  Instances and dicts are therefore
    objects in a heap, and every operation threads the heap. *)

Module Object.

Section object.
Context {T : Type}.

(** A concrete distribution type: the signature of its [__init__] (argument
    names with their defaults), whether its [__init__] hands
    [parameters = dict(locals())] on to [Distribution.__init__], what else of
    its [__init__] may raise, and its [_parameter_properties]. *)
Record dist_class := {
  cls_name : string;
  init_args : list (string * option (pyval T));
  init_passes_locals : bool;
  init_body : gmap string (pyval T) → result T unit;
  (** [_params_event_ndims()]; [None] when [_parameter_properties] raises
      [NotImplementedError] *)
  params_event_ndims : option (gmap string Z);
}.

(** The attribute [_parameters]: unset or [None], the [lambda] the metaclass
    installs (given by the call arguments it closes over), or a dict object. *)
Inductive parameters_attr :=
| ParametersNone
| ParametersLambda (callargs : gmap string (pyval T))
| ParametersDict (a : addr).

Record instance := {
  type_of : dist_class;
  _parameters : parameters_attr;
  (** [None]: the attribute does not exist ([hasattr] is false) *)
  _parameters_sanitized : option bool;
  (** the attribute [slicing.PROVENANCE_ATTR] *)
  provenance : option addr;
}.

Inductive object :=
| ODict (items : gmap string (pyval T))
| OInstance (i : instance).

Local Abbreviation heap := (gmap addr object).

(** Computations on the heap that may raise. *)
Definition St (A : Type) : Type := heap → result T A * heap.

#[global] Instance St_ret : MRet St := λ A a h, (Ok a, h).
#[global] Instance St_bind : MBind St := λ A B f m h,
  match m h with
  | (Ok a, h') => f a h'
  | (Raise e, h') => (Raise e, h')
  end.

Definition raise {A} (e : error T) : St A := λ h, (Raise e, h).

Definition lift {A} (r : result T A) : St A := λ h, (r, h).

(** [try: m  except NotImplementedError: handler] *)
Definition try_except_NotImplementedError {A} (m : St A) (handler : St A)
  : St A := λ h,
  match m h with
  | (Raise (NotImplementedError _), h') => handler h'
  | r => r
  end.

Definition alloc (o : object) : St addr := λ h,
  let a := fresh (dom h) in (Ok a, <[a := o]> h).

Definition get_instance (a : addr) : St instance := λ h,
  match h !! a with
  | Some (OInstance i) => (Ok i, h)
  | _ => (Raise (AttributeError "_parameters"), h)
  end.

Definition set_instance (a : addr) (i : instance) : St unit := λ h,
  (Ok tt, <[a := OInstance i]> h).

(** [p.items()] *)
Definition dict_items (a : addr) : St (gmap string (pyval T)) := λ h,
  match h !! a with
  | Some (ODict m) => (Ok m, h)
  | _ => (Raise (AttributeError "items"), h)
  end.

(** [v is val], for the two values that the code compares by identity: an
    object, and the empty tuple, of which CPython has one. *)
Definition is_same (val v : pyval T) : bool :=
  match val with
  | PRef a => is_obj a v
  | PTuple [] => match v with PTuple [] => true | _ => false end
  | _ => false
  end.

(** [_remove_dict_keys_with_value(dict_, val)]:
    [{k: v for k, v in dict_.items() if v is not val}] *)
Definition _remove_dict_keys_with_value (dict_ : gmap string (pyval T))
    (val : pyval T) : gmap string (pyval T) :=
  filter (λ kv, is_same val kv.2 = false) dict_.

(** [{k: v for k, v in p.items() if not k.startswith('__') and v is not self}] *)
Definition sanitize (p : gmap string (pyval T)) (self : addr)
  : gmap string (pyval T) :=
  filter (λ kv, String.prefix "__" kv.1 = false ∧ is_obj self kv.2 = false) p.

(** Binding the keywords of a call of the class to the signature of its
    [__init__]. *)
Fixpoint bind_arguments (sig : list (string * option (pyval T)))
    (kwargs : gmap string (pyval T)) : result T (gmap string (pyval T)) :=
  match sig with
  | [] =>
      if decide (kwargs = ∅) then Ok ∅
      else Raise (TypeError "__init__() got an unexpected keyword argument")
  | (k, dflt) :: sig' =>
      v ← match kwargs !! k, dflt with
          | Some v, _ => Ok v
          | None, Some v => Ok v
          | None, None =>
              Raise (TypeError "__init__() missing a required argument")
          end;
      rest ← bind_arguments sig' (delete k kwargs);
      Ok (<[k := v]> rest)
  end.

(** Calling the class with keywords [kwargs]: the [wrapped_init] of the metaclass around the
    subtype's [__init__], which ends in [Distribution.__init__]. *)
Definition construct (cls : dist_class) (kwargs : gmap string (pyval T))
  : St addr :=
  callargs ← lift (bind_arguments (init_args cls) kwargs);
  self ← alloc (OInstance {| type_of := cls;
                             (* self_._parameters = None *)
                             _parameters := ParametersNone;
                             _parameters_sanitized := None;
                             provenance := None |});
  (* default_init(self_, *args, **kwargs) *)
  parameters ←
    (if init_passes_locals cls then
       (* parameters = dict(locals()) *)
       p ← alloc (ODict (<["self" := PRef self]>
                          (<["__class__" := PStr (cls_name cls)]> callargs)));
       mret (ParametersDict p)
     else mret ParametersNone);
  _ ← lift (init_body cls callargs);
  (* Distribution.__init__ *)
  _ ← set_instance self {| type_of := cls;
                           _parameters := parameters;
                           _parameters_sanitized := Some false;
                           provenance := None |};
  (* back in wrapped_init *)
  parameters ←
    match parameters with
    | ParametersDict p =>
        (* hasattr(self_._parameters, 'pop') *)
        items ← dict_items p;
        q ← alloc (ODict (_remove_dict_keys_with_value items (PRef self)));
        mret (ParametersDict q)
    | _ =>
        (* the lambda over inspect.getcallargs(default_init, dummy_self, ...)
           without the entries whose value is dummy_self = tuple() *)
        mret (ParametersLambda
                (_remove_dict_keys_with_value callargs (PTuple [])))
    end;
  _ ← set_instance self {| type_of := cls;
                           _parameters := parameters;
                           _parameters_sanitized := Some false;
                           provenance := None |};
  mret self.

(** What the wrapper keeps of the call arguments: all of them when
    [__init__] hands on [dict(locals())], and those that are not the empty
    tuple when the lambda is installed. *)
Definition kept_arguments (cls : dist_class) (callargs : gmap string (pyval T))
  : gmap string (pyval T) :=
  if init_passes_locals cls then callargs
  else _remove_dict_keys_with_value callargs (PTuple []).

(** The property [parameters]; the result is the address of the new dict
    [dict(self._parameters)]. *)
Definition parameters (self : addr) : St addr :=
  i ← get_instance self;
  _ ← (if decide (_parameters_sanitized i = Some true) then mret tt else
         p ← match _parameters i with
             | ParametersLambda callargs => mret callargs
             | ParametersDict a => dict_items a
             | ParametersNone => raise (AttributeError "items")
             end;
         q ← alloc (ODict (sanitize p self));
         set_instance self {| type_of := type_of i;
                              _parameters := ParametersDict q;
                              _parameters_sanitized := Some true;
                              provenance := provenance i |});
  i ← get_instance self;
  items ← match _parameters i with
          | ParametersDict a => dict_items a
          | _ => raise (TypeError "object is not iterable")
          end;
  alloc (ODict items).

(** [cls._params_event_ndims()] *)
Definition _params_event_ndims (cls : dist_class) : St (gmap string Z) :=
  match params_event_ndims cls with
  | Some nd => mret nd
  | None => raise (NotImplementedError "does not support batch slicing")
  end.

(** Modelled from the spec: [slicing.batch_slice] is not among the sources at
    hand.  For the [Ellipsis] slice that [copy] passes, the spec has it produce
    a new instance from [dict(self.parameters, **overrides)] and preserve the
    provenance, that is which original instance the copy derives from. *)
Definition batch_slice (self : addr) (params_event_ndims : gmap string Z)
    (params_overrides : gmap string (pyval T)) : St addr :=
  i ← get_instance self;
  p ← parameters self;
  items ← dict_items p;
  d ← construct (type_of i) (params_overrides ∪ items);
  di ← get_instance d;
  _ ← set_instance d {| type_of := type_of di;
                        _parameters := _parameters di;
                        _parameters_sanitized := _parameters_sanitized di;
                        provenance := Some (default self (provenance i)) |};
  mret d.

Definition copy (self : addr) (override_parameters_kwargs : gmap string (pyval T))
  : St addr :=
  try_except_NotImplementedError
    (i ← get_instance self;
     nd ← _params_event_ndims (type_of i);
     batch_slice self nd override_parameters_kwargs)
    (i ← get_instance self;
     (* parameters = dict(self.parameters, **override_parameters_kwargs) *)
     p ← parameters self;
     items ← dict_items p;
     parameters ← alloc (ODict (override_parameters_kwargs ∪ items));
     (* d = type(self)( **parameters ) *)
     kwargs ← dict_items parameters;
     d ← construct (type_of i) kwargs;
     di ← get_instance d;
     _ ← set_instance d {| type_of := type_of di;
                           _parameters := ParametersDict parameters;
                           _parameters_sanitized := Some true;
                           provenance := provenance di |};
     mret d).

(** Reading [a.parameters] and looking at the dict it returned. *)
Definition read_parameters (a : addr) : St (gmap string (pyval T)) :=
  p ← parameters a;
  dict_items p.

(** A caller's [d[k] = v] on a dict it holds. *)
Definition dict_setitem (a : addr) (k : string) (v : pyval T) : St unit := λ h,
  match h !! a with
  | Some (ODict items) => (Ok tt, <[a := ODict (<[k := v]> items)]> h)
  | _ => (Raise (TypeError "object does not support item assignment"), h)
  end.

(** *** What the heap says about an instance *)

(** The dict that the attribute [_parameters] stands for. *)
Definition stored_items (h : heap) (i : instance)
  : option (gmap string (pyval T)) :=
  match _parameters i with
  | ParametersNone => None
  | ParametersLambda callargs => Some callargs
  | ParametersDict a =>
      match h !! a with
      | Some (ODict items) => Some items
      | _ => None
      end
  end.

(** The mapping that [self.parameters] stands for in [h]: the stored dict
    when the instance is marked sanitized, and its sanitized form when it is
    not. *)
Definition parameters_of (h : heap) (self : addr)
  : option (gmap string (pyval T)) :=
  match h !! self with
  | Some (OInstance i) =>
      if decide (_parameters_sanitized i = Some true) then
        match _parameters i with
        | ParametersDict _ => stored_items h i
        | _ => None
        end
      else (λ p, sanitize p self) <$> stored_items h i
  | _ => None
  end.

Definition no_self_entry (self : addr) (items : gmap string (pyval T)) : Prop :=
  map_Forall (λ _ v, is_obj self v = false) items.

(** The invariant of an instance: its parameters can be read, and a dict
    marked sanitized holds no entry whose value is the instance. *)
Definition instance_inv (h : heap) (self : addr) : Prop :=
  ∃ items, parameters_of h self = Some items ∧ no_self_entry self items.

(** Every reference among the values is to an object of the heap. *)
Definition closed_items (h : heap) (items : gmap string (pyval T)) : Prop :=
  map_Forall (λ _ v, match v with PRef b => b ∈ dom h | _ => True end) items.

(** No key is a special variable of [locals()]: [self], or a name that
    starts with two underscores. *)
Definition ordinary_keys (items : gmap string (pyval T)) : Prop :=
  map_Forall (λ k _, String.prefix "__" k = false ∧ k ≠ "self") items.

(** The instance can be built again from its own parameters: they bind to
    the signature of its type as they are, and its [__init__] accepts them. *)
Definition rebuildable (h : heap) (self : addr)
    (items : gmap string (pyval T)) : Prop :=
  ∃ i, h !! self = Some (OInstance i)
       ∧ bind_arguments (init_args (type_of i)) items = Ok items
       ∧ init_body (type_of i) items = Ok tt.

(** A signature as Python admits it: the names differ from one another,
    none is a special variable, and no default is an object of the heap. *)
Definition class_wf (cls : dist_class) : Prop :=
  NoDup (init_args cls).*1
  ∧ Forall (λ k, String.prefix "__" k = false ∧ k ≠ "self") (init_args cls).*1
  ∧ Forall (λ kd, match kd.2 with Some (PRef _) => False | _ => True end)
      (init_args cls).

(** The attribute [PROVENANCE_ATTR] of an instance, if it has one. *)
Definition provenance_of (h : heap) (a : addr) : option addr :=
  match h !! a with
  | Some (OInstance i) => provenance i
  | _ => None
  end.

Definition class_of (h : heap) (a : addr) : option dist_class :=
  match h !! a with
  | Some (OInstance i) => Some (type_of i)
  | _ => None
  end.

End object.

Arguments dist_class T : clear implicits.
Arguments instance T : clear implicits.
Arguments object T : clear implicits.
Abbreviation heap T := (gmap addr (object T)).
Arguments St T A : clear implicits.

End Object.

(** ** Concrete models used to run the definitions *)

Module Examples.

Import Distribution JointDistribution Object.

(** Modelled from the spec: the sequential joint model
    ([joint_distribution_sequential.py] is not among the sources at hand).  Its
    value structure is a list with one entry per component, such as
    [[1., 2., 3.]], and flattening and unflattening are a round-trip pair. *)
Definition sequential_flatten {T} (v : pyval T) : list (pyval T) :=
  match v with
  | PList xs | PTuple xs => xs
  | _ => []
  end.

Definition sequential_unflatten {T} (xs : list (pyval T)) : pyval T := PList xs.

(** Integer leaves stand for tensors when a definition is run. *)
Definition leaf (v : pyval Z) : result Z Z :=
  match v with
  | PTensor t => Ok t
  | PInt n => Ok n
  | _ => Raise (TypeError "not convertible to a tensor")
  end.

(** [np.all(a == b)] on two shape vectors: NumPy broadcasts a vector of
    length one against the other before it compares. *)
Definition shapes_all_equal (a b : list Z) : bool :=
  match a, b with
  | [x], _ => forallb (Z.eqb x) b
  | _, [y] => forallb (Z.eqb y) a
  | _, _ =>
      bool_decide (length a = length b)
      && forallb (λ xy, Z.eqb xy.1 xy.2) (zip a b)
  end.

(** The tensors of the stand-in: a number is a scalar, and a list or tuple of
    numbers is a tensor of rank one. *)
Definition tensor_of (v : pyval Z) : result Z (Z + list Z) :=
  match v with
  | PList xs | PTuple xs => inr <$> sequence (map leaf xs)
  | _ => inl <$> leaf v
  end.

Definition of_tensor (t : Z + list Z) : pyval Z :=
  match t with
  | inl n => PTensor n
  | inr ns => PList (map PTensor ns)
  end.

(** An operation applied to every entry of a tensor *)
Definition elementwise (f : Z → Z) (a : pyval Z) : result Z (pyval Z) :=
  x ← tensor_of a;
  Ok (of_tensor (match x with
                 | inl n => inl (f n)
                 | inr ns => inr (map f ns)
                 end)).

(** An operation applied entry by entry to two tensors, which broadcasts a
    scalar, and a vector of length one, against the other tensor. *)
Definition elementwise2 (f : Z → Z → Z) (a b : pyval Z)
  : result Z (pyval Z) :=
  x ← tensor_of a;
  y ← tensor_of b;
  match x, y with
  | inl m, inl n => Ok (PTensor (f m n))
  | inl m, inr ns | inr [m], inr ns => Ok (of_tensor (inr (map (f m) ns)))
  | inr ms, inl n | inr ms, inr [n] =>
      Ok (of_tensor (inr (map (λ m, f m n) ms)))
  | inr ms, inr ns =>
      if decide (length ms = length ns) then
        Ok (of_tensor (inr (zip_with f ms ns)))
      else Raise (ValueError_other "Dimensions must be equal")
  end.

(** The conversion to tensors refuses a [None]. *)
#[global] Instance integer_backend : TensorBackend Z := {|
  Shape := list Z;
  tf_add := elementwise2 Z.add;
  tf_exp := elementwise (Z.pow 2);
  tf_math_log := elementwise Z.log2;
  tf_iter _ := Raise (TypeError "Cannot iterate over a scalar tensor.");
  ps_shape v :=
    match v with
    | PList xs | PTuple xs => [Z.of_nat (length xs)]
    | _ => []
    end;
  ps_is_numpy _ := true;
  np_all_equal := shapes_all_equal;
  identity_with_assertions _ x := x;
  convert_to_nested_tensor value _ :=
    if existsb is_none (Nest.flatten value) then
      Raise (ValueError_other "None values not supported.")
    else Ok value;
|}.

(** A scalar component whose log-density at [x] is [x] itself. *)
Definition scalar_distribution : Distribution Z := {|
  dtype := PDType "float32";
  Distribution._log_prob := Some (λ value _, Ok value);
  _prob := None;
  _control_dependencies := λ _ _, Ok tt;
|}.

Definition no_measure_distribution : Distribution Z := {|
  dtype := PDType "float32";
  Distribution._log_prob := None;
  _prob := None;
  _control_dependencies := λ _ _, Ok tt;
|}.

(** A sequential model of independent scalar components with the given
    names. *)
Definition sequential_model (names : list string) (validate : bool)
  : JointDistribution Z := {|
  jd_dtype := PList (map (λ _, PDType "float32") names);
  _flat_resolve_names := Ok names;
  _model_flatten := sequential_flatten;
  _model_unflatten := sequential_unflatten;
  _flat_sample_distributions := λ _ _ value,
    Ok (map (λ _, of_distribution scalar_distribution) names,
        default (map (λ _, PTensor 0%Z) names) value);
  validate_args := validate;
  jd_control_dependencies := λ _ _, Ok tt;
|}.

(** The float literal [n.] as a leaf, and the keywords that [log_prob] is left
    with once it has defaulted [name]. *)
Definition float (n : Z) : pyval Z := PTensor n.

Definition name_only : gmap string (pyval Z) := {["name" := PStr "log_prob"]}.

Definition model_zyx : JointDistribution Z :=
  sequential_model ["z"; "y"; "x"] false.

Definition model_x : JointDistribution Z := sequential_model ["x"] false.

Definition model_ab (validate : bool) : JointDistribution Z :=
  sequential_model ["a"; "b"] validate.

(** A distribution type with two required arguments that records
    [dict(locals())], and one that leaves its parameters to the metaclass. *)
Definition Normal : dist_class Z := {|
  cls_name := "Normal";
  init_args := [("loc", None); ("scale", None);
                ("validate_args", Some (PInt 0));
                ("name", Some (PStr "Normal"))];
  init_passes_locals := true;
  init_body := λ _, Ok tt;
  params_event_ndims := None;
|}.

Definition Sliceable : dist_class Z := {|
  cls_name := "Sliceable";
  init_args := [("rate", None); ("name", Some (PStr "Sliceable"))];
  init_passes_locals := false;
  init_body := λ _, Ok tt;
  params_event_ndims := Some {["rate" := 0%Z]};
|}.

(** A type that leaves its parameters to the metaclass and has no
    [_parameter_properties]; its [sample_shape] is required.  And the same
    type with [parameters = dict(locals())] in its [__init__]. *)
Definition Plain : dist_class Z := {|
  cls_name := "Plain";
  init_args := [("sample_shape", None); ("name", Some (PStr "Plain"))];
  init_passes_locals := false;
  init_body := λ _, Ok tt;
  params_event_ndims := None;
|}.

Definition PlainLocals : dist_class Z := {|
  cls_name := "PlainLocals";
  init_args := [("sample_shape", None); ("name", Some (PStr "PlainLocals"))];
  init_passes_locals := true;
  init_body := λ _, Ok tt;
  params_event_ndims := None;
|}.

Definition normal_kwargs : gmap string (pyval Z) :=
  {["loc" := PTensor 0%Z; "scale" := PTensor 1%Z]}.

End Examples.

(** ** Names of the components: [get_explicit_name_for_component] and
       [JointDistribution._flat_resolve_names] *)

Module Names.

Definition FORBIDDEN_COMPONENT_NAMES : list string := ["value"; "name"].

(** Python's [sub in s] on strings *)
Fixpoint contains (sub s : string) : bool :=
  String.prefix sub s
  || match s with
     | EmptyString => false
     | String _ s' => contains sub s'
     end.

(** [s] between double quotes *)
Definition quoted (s : string) : string :=
  let quote := Ascii.ascii_of_nat 34 in
  String quote (s +:+ String quote "").

(** Python's [l[start:]], where a negative [start] counts from the end *)
Definition py_slice_from {A} (start : Z) (l : list A) : list A :=
  if (start <? 0)%Z then drop (Z.to_nat (Z.max 0 (Z.of_nat (length l) + start))) l
  else drop (Z.to_nat start) l.

Section names.
Context {T : Type}.

(** What the name resolution reads of a component [d]: the [name] among its
    parameters (a [str] or [None]), the name of its class, and, when it has an
    [__init__], the [args] and the [defaults] of the argument specification of
    that [__init__] ([defaults] empty when there are none). *)
Record named := {
  name_parameter : option string;
  class_name : string;
  init_spec : option (list string * list (pyval T));
}.

(** The truth value of a [str] or [None] *)
Definition truthy (name : option string) : bool :=
  match name with
  | Some s => negb (String.eqb s "")
  | None => false
  end.

(** [dict(zip(spec.args[len(spec.args) - len(spec.defaults or ()):],
    spec.defaults or ())).get('name', None)]; a later pair of the [zip]
    overrides an earlier one. *)
Definition default_name_of (args : list string) (defaults : list (pyval T))
  : option (pyval T) :=
  let names :=
    py_slice_from (Z.of_nat (length args) - Z.of_nat (length defaults)) args in
  (list_to_map (reverse (zip names defaults)) : gmap string (pyval T)) !! "name".

(** [name == default_name] for a [str] [name] *)
Definition equals_default (name : string) (default_name : option (pyval T))
  : bool :=
  match default_name with
  | Some (PStr s) => String.eqb name s
  | _ => false
  end.

(** [name in FORBIDDEN_COMPONENT_NAMES] *)
Definition is_forbidden (name : option string) : bool :=
  match name with
  | Some s => bool_decide (s ∈ FORBIDDEN_COMPONENT_NAMES)
  | None => false
  end.

Definition get_explicit_name_for_component (d : named)
  : result T (option string) :=
  let name := name_parameter d in
  let name :=
    if truthy name && contains (class_name d) (default "" name) then None
    else name in
  let name :=
    match init_spec d with
    | Some (args, defaults) =>
        if truthy name
           && equals_default (default "" name) (default_name_of args defaults)
        then None else name
    | None => name
    end in
  if is_forbidden name then
    Raise (ValueError_other
             ("Distribution name " +:+ quoted (default "" name)
              +:+ " is not allowed as a JointDistribution component; please choose a different name."))
  else Ok name.

(** A component whose name is [None], or holds the name of its class, or is
    the default of the [name] argument of its [__init__], has no explicit
    name. *)
Definition unnamed (d : named) : Prop :=
  match name_parameter d with
  | None => True
  | Some s =>
      s ≠ ""
      ∧ ((∃ pre post, s = pre +:+ class_name d +:+ post)
         ∨ ∃ args defaults,
             init_spec d = Some (args, defaults)
             ∧ default_name_of args defaults = Some (PStr s))
  end.

(** The loop of [_flat_resolve_names] from component [dummy_idx] on, with the
    names found so far. *)
Fixpoint resolve_names_from (dummy_name : string) (dummy_idx : nat)
    (ds : list named) (names : list string) (names_used : gset string)
  : result T (list string) :=
  match ds with
  | [] => Ok names
  | d :: ds' =>
      name ← get_explicit_name_for_component d;
      let name :=
        match name with
        | None => dummy_name +:+ pretty dummy_idx
        | Some name => name
        end in
      if decide (name ∈ names_used) then
        Raise (ValueError_other ("Duplicated distribution name: " +:+ name))
      else
        resolve_names_from dummy_name (S dummy_idx) ds' (names ++ [name])
          ({[name]} ∪ names_used)
  end.

(** [_flat_resolve_names(dummy_name='var')] over the distributions of a single
    sample *)
Definition _flat_resolve_names (ds : list named) : result T (list string) :=
  resolve_names_from "var" 0 ds [] ∅.

End names.

Arguments named T : clear implicits.

End Names.

(** ** Sampling from a [JointDistribution]: the cache of distributions and
       [_sample_n] *)

Module Sampling.

Import JointDistribution.

Section sampling.
Context {T : Type} `{TensorBackend T}.

(** [tf.executing_eagerly()] and [id(tf.constant(True).graph)] at the call,
    and the truth value of a tensor. *)
Variable executing_eagerly : bool.
Variable current_graph : Z.
Variable tensor_truth : T → result T bool.

(** The attribute [_single_sample_distributions]: from graph id to a list of
    distributions, some of which may be [None]. *)
Definition all_not_none (ds : list (option (component T))) : bool :=
  forallb (λ d, bool_decide (is_Some d)) ds.

(** [ds is not None and all([d is not None for d in ds])] *)
Definition usable (ds : option (list (option (component T)))) : bool :=
  match ds with
  | Some ds => all_not_none ds
  | None => false
  end.

Definition _get_single_sample_distributions (self : JointDistribution T)
    (candidate_dists : option (list (option (component T))))
    (cache : gmap Z (list (option (component T))))
  : result T (list (option (component T)))
    * gmap Z (list (option (component T))) :=
  let ds := cache !! (-1)%Z in
  if usable ds then (Ok (default [] ds), cache) else
  let graph_id := if executing_eagerly then (-1)%Z else current_graph in
  let ds := cache !! graph_id in
  if usable ds then (Ok (default [] ds), cache) else
  let ds :=
    match candidate_dists with
    | Some ds => Ok ds
    | None =>
        (λ r : list (component T) * list (pyval T), map Some r.1)
          <$> _flat_sample_distributions self (PTuple []) dummy_seed None
    end in
  match ds with
  | Ok ds => (Ok ds, <[graph_id := ds]> cache)
  | Raise e => (Raise e, cache)
  end.

(** Python's truth value of an object *)
Definition py_truth (v : pyval T) : result T bool :=
  match v with
  | PNone => Ok false
  | PInt n => Ok (negb (n =? 0)%Z)
  | PStr s => Ok (negb (String.eqb s ""))
  | PList xs | PTuple xs => Ok (negb (bool_decide (xs = [])))
  | PDict kvs | POrderedDict kvs => Ok (negb (bool_decide (kvs = [])))
  | PTensor t => tensor_truth t
  | PDType _ | PRef _ => Ok true
  end.

(** [_call_flat_sample_distributions] with the cache.  When no value is
    given and there are keywords, the source calls
    [self._flat_resolve_names()] and then reads [self.dtype]; each of the two
    starts with [self._get_single_sample_distributions()], which may sample
    the model, write the cache and raise.  The fields [_flat_resolve_names]
    and [jd_dtype] of the record stand for what the two compute from the
    distributions they are given. *)
Definition _call_flat_sample_distributions (self : JointDistribution T)
    (sample_shape seed value : pyval T) (kwargs : kwargs_t T)
    (cache : gmap Z (list (option (component T))))
  : result T (list (component T) * list (pyval T))
    * gmap Z (list (option (component T))) :=
  if decide (is_none value = true ∧ kwargs ≠ ∅) then
    (* names = self._flat_resolve_names() *)
    match _get_single_sample_distributions self None cache with
    | (Raise e, cache) => (Raise e, cache)
    | (Ok _, cache) =>
        match JointDistribution._flat_resolve_names self with
        | Raise e => (Raise e, cache)
        | Ok _ =>
            (* dtype=self.dtype *)
            match _get_single_sample_distributions self None cache with
            | (Raise e, cache) => (Raise e, cache)
            | (Ok _, cache) =>
                (JointDistribution._call_flat_sample_distributions self
                   sample_shape seed value kwargs, cache)
            end
        end
    end
  else
    (JointDistribution._call_flat_sample_distributions self sample_shape seed
       value kwargs, cache).

(** [JointDistribution._sample_n(sample_shape, seed, value, ...)] with its
    keyword arguments.  The message of the [ValueError] ends, in the source,
    with the list of the supplied keywords in the order they were given,
    which a finite map does not keep; the model stops before that list. *)
Definition _sample_n (self : JointDistribution T)
    (sample_shape seed value : pyval T) (kwargs : kwargs_t T)
    (cache : gmap Z (list (option (component T))))
  : result T (pyval T) * gmap Z (list (option (component T))) :=
  if decide (is_none value = false ∧ kwargs ≠ ∅) then
    (Raise (ValueError_other
              "Supplied both `value` and keyword arguments to parameterize sampling."),
     cache)
  else
  match _call_flat_sample_distributions self sample_shape seed value kwargs
          cache with
  | (Raise e, cache) => (Raise e, cache)
  | (Ok (ds, xs), cache) =>
      match py_truth sample_shape with
      | Raise e => (Raise e, cache)
      | Ok shape_given =>
          if negb shape_given && is_none value then
            match _get_single_sample_distributions self (Some (map Some ds))
                    cache with
            | (Ok _, cache') => (Ok (_model_unflatten self xs), cache')
            | (Raise e, cache') => (Raise e, cache')
            end
          else (Ok (_model_unflatten self xs), cache)
      end
  end.

End sampling.

End Sampling.

(** ** Static shapes: [_set_sample_static_shape_for_tensor]

    A [tf.TensorShape] is of unknown rank, or a list of dimensions each of
    which is known or not.  [set_shape] merges what is known of a tensor's
    shape with the given shape and raises [ValueError] when they cannot both
    hold; the messages, which print the two shapes, are shortened. *)

Module Shapes.

Abbreviation TensorShape := (option (list (option Z))).

(** [tensorshape_util.rank] *)
Definition rank (s : TensorShape) : option Z :=
  (λ dims, Z.of_nat (length dims)) <$> s.

(** [[None] * n], which is empty for [n <= 0] *)
Definition unknown_dims (n : Z) : list (option Z) :=
  replicate (Z.to_nat n) None.

(** [TensorShape.concatenate] *)
Definition concatenate (s t : TensorShape) : TensorShape :=
  match s, t with
  | Some ds, Some es => Some (ds ++ es)
  | _, _ => None
  end.

Section shapes.
Context {T : Type}.

Definition merge_dim (a b : option Z) : result T (option Z) :=
  match a, b with
  | None, d | d, None => Ok d
  | Some m, Some n =>
      if decide (m = n) then Ok (Some m)
      else Raise (ValueError_other "Dimensions are not compatible")
  end.

Fixpoint merge_dims (xs ys : list (option Z)) : result T (list (option Z)) :=
  match xs, ys with
  | [], [] => Ok []
  | x :: xs', y :: ys' =>
      d ← merge_dim x y; ds ← merge_dims xs' ys'; Ok (d :: ds)
  | _, _ => Raise (ValueError_other "Shapes must be equal rank")
  end.

(** [tensorshape_util.set_shape(x, shape)], on the static shape of [x] *)
Definition set_shape (x shape : TensorShape) : result T TensorShape :=
  match x, shape with
  | None, _ => Ok shape
  | _, None => Ok x
  | Some xs, Some ys => Some <$> merge_dims xs ys
  end.

(** [tf.TensorShape(dims)] on a static value: [None] gives the shape of
    unknown rank, and the first negative dimension is a [ValueError]. *)
Definition as_shape (dims : option (list Z)) : result T TensorShape :=
  match dims with
  | None => Ok None
  | Some ds =>
      match List.find (λ d, d <? 0)%Z ds with
      | Some d =>
          Raise (ValueError_other
                   ("Dimension " +:+ pretty d +:+ " must be >= 0"))
      | None => Ok (Some (map Some ds))
      end
  end.

(** The tensor [x] is given by its static shape, which is all that the
    function touches; [sample_shape] is given by its static value
    [tf.get_static_value(sample_shape)]. *)
Definition _set_sample_static_shape_for_tensor
    (x event_shape batch_shape : TensorShape) (sample_shape : option (list Z))
  : result T TensorShape :=
  sample_shape ← as_shape sample_shape;
  let ndims := rank x in
  let sample_ndims := rank sample_shape in
  let batch_ndims := rank batch_shape in
  let event_ndims := rank event_shape in
  (* Infer rank(x). *)
  '(ndims, x) ←
    match ndims, sample_ndims, batch_ndims, event_ndims with
    | None, Some s, Some b, Some e =>
        let ndims := (s + b + e)%Z in
        x ← set_shape x (Some (unknown_dims ndims)); Ok (Some ndims, x)
    | _, _, _, _ => Ok (ndims, x)
    end;
  (* Infer sample shape. *)
  x ←
    match ndims, sample_ndims with
    | Some n, Some s =>
        set_shape x (concatenate sample_shape (Some (unknown_dims (n - s))))
    | _, _ => Ok x
    end;
  (* Infer event shape. *)
  x ←
    match ndims, event_ndims with
    | Some n, Some e =>
        set_shape x (concatenate (Some (unknown_dims (n - e))) event_shape)
    | _, _ => Ok x
    end;
  (* Infer batch shape. *)
  match batch_ndims with
  | Some b =>
      let '(sample_ndims, event_ndims) :=
        match ndims with
        | Some n =>
            match sample_ndims, event_ndims with
            | None, Some e => (Some (n - b - e)%Z, event_ndims)
            | Some s, None => (sample_ndims, Some (n - b - s)%Z)
            | _, _ => (sample_ndims, event_ndims)
            end
        | None => (sample_ndims, event_ndims)
        end in
      match sample_ndims, event_ndims with
      | Some s, Some e =>
          set_shape x
            (concatenate
               (concatenate (Some (unknown_dims s)) batch_shape)
               (Some (unknown_dims e)))
      | _, _ => Ok x
      end
  | None => Ok x
  end.

(** [shape] says at least what [x] says: the same rank when [x] has one, and
    the same dimension wherever [x] knows it. *)
Definition refines (x shape : TensorShape) : Prop :=
  match x, shape with
  | None, _ => True
  | Some xs, Some ys =>
      Forall2 (λ a b, match a with Some _ => b = a | None => True end) xs ys
  | Some _, None => False
  end.

End shapes.

End Shapes.

(** ** Statistics and distribution functions of [Distribution] *)

Module Statistics.

Import Distribution.

(** Further operations of the backend.  [map_square] and [map_sqrt] are
    [tf.nest.map_structure] of [tf.square] and of [tf.sqrt]. *)
Class MathBackend (T : Type) := {
  map_square : pyval T → result T (pyval T);
  map_sqrt : pyval T → result T (pyval T);
  log1mexp : pyval T → result T (pyval T);
  tf_log1p : pyval T → result T (pyval T);
  tf_expm1 : pyval T → result T (pyval T);
  tf_negative : pyval T → result T (pyval T);
  (** [1. - x] *)
  one_minus : pyval T → result T (pyval T);
}.

Section statistics.
Context {T : Type} `{TensorBackend T} `{MathBackend T}.

(** A distribution with its further private methods.  [_cdf] and [_log_cdf]
    are looked up with [hasattr]; the others are always there, and raise
    [NotImplementedError] unless the subtype overrides them. *)
Record Statistical := {
  measures : Distribution T;
  _cdf : option (pyval T → kwargs_t T → result T (pyval T));
  _log_cdf : option (pyval T → kwargs_t T → result T (pyval T));
  _log_survival_function : pyval T → kwargs_t T → result T (pyval T);
  _survival_function : pyval T → kwargs_t T → result T (pyval T);
  _variance : kwargs_t T → result T (pyval T);
  _stddev : kwargs_t T → result T (pyval T);
}.

(** The cast, the conversion and the scope that open every
    [_call_...(value, name, **kwargs)] *)
Definition enter (self : Statistical) (value : pyval T) (kwargs : kwargs_t T)
  : result T (pyval T) :=
  value ← _cast_structure value (dtype (measures self));
  value ← convert_to_nested_tensor value (dtype (measures self));
  _ ← _control_dependencies (measures self) (Some value) kwargs;
  Ok value.

Definition _call_log_cdf (self : Statistical) (value name : pyval T)
    (kwargs : kwargs_t T) : result T (pyval T) :=
  value ← enter self value kwargs;
  match _log_cdf self with
  | Some f => f value kwargs
  | None =>
      match _cdf self with
      | Some g => c ← g value kwargs; tf_math_log c
      | None => Raise (NotImplementedError "log_cdf")
      end
  end.

Definition log_cdf (self : Statistical) (value : pyval T)
    (kwargs : kwargs_t T) : result T (pyval T) :=
  _call_log_cdf self value (PStr "log_cdf") kwargs.

Definition _call_cdf (self : Statistical) (value name : pyval T)
    (kwargs : kwargs_t T) : result T (pyval T) :=
  value ← enter self value kwargs;
  match _cdf self with
  | Some g => g value kwargs
  | None =>
      match _log_cdf self with
      | Some f => lc ← f value kwargs; tf_exp lc
      | None => Raise (NotImplementedError "cdf")
      end
  end.

Definition cdf (self : Statistical) (value : pyval T)
    (kwargs : kwargs_t T) : result T (pyval T) :=
  _call_cdf self value (PStr "cdf") kwargs.

Definition _call_log_survival_function (self : Statistical)
    (value name : pyval T) (kwargs : kwargs_t T) : result T (pyval T) :=
  value ← enter self value kwargs;
  match _log_survival_function self value kwargs with
  | Raise (NotImplementedError what) =>
      match _log_cdf self with
      | Some f => lc ← f value kwargs; log1mexp lc
      | None =>
          match _cdf self with
          | Some g => c ← g value kwargs; m ← tf_negative c; tf_log1p m
          | None => Raise (NotImplementedError what)
          end
      end
  | r => r
  end.

Definition log_survival_function (self : Statistical) (value : pyval T)
    (kwargs : kwargs_t T) : result T (pyval T) :=
  _call_log_survival_function self value (PStr "log_survival_function") kwargs.

Definition _call_survival_function (self : Statistical)
    (value name : pyval T) (kwargs : kwargs_t T) : result T (pyval T) :=
  value ← enter self value kwargs;
  match _survival_function self value kwargs with
  | Raise (NotImplementedError what) =>
      match _log_cdf self with
      | Some f => lc ← f value kwargs; e ← tf_expm1 lc; tf_negative e
      | None =>
          match _cdf self with
          | Some _ => c ← cdf self value kwargs; one_minus c
          | None => Raise (NotImplementedError what)
          end
      end
  | r => r
  end.

Definition survival_function (self : Statistical) (value : pyval T)
    (kwargs : kwargs_t T) : result T (pyval T) :=
  _call_survival_function self value (PStr "survival_function") kwargs.

Definition variance (self : Statistical) (kwargs : kwargs_t T)
  : result T (pyval T) :=
  _ ← _control_dependencies (measures self) None ∅;
  match _variance self kwargs with
  | Raise (NotImplementedError what) =>
      match (s ← _stddev self kwargs; map_square s) with
      | Raise (NotImplementedError _) => Raise (NotImplementedError what)
      | r => r
      end
  | r => r
  end.

Definition stddev (self : Statistical) (kwargs : kwargs_t T)
  : result T (pyval T) :=
  _ ← _control_dependencies (measures self) None ∅;
  match _stddev self kwargs with
  | Raise (NotImplementedError what) =>
      match (v ← _variance self kwargs; map_sqrt v) with
      | Raise (NotImplementedError _) => Raise (NotImplementedError what)
      | r => r
      end
  | r => r
  end.

End statistics.

Arguments Statistical T : clear implicits.

End Statistics.

(** ** A distribution to run the statistics on *)

Module StatisticsExamples.

Import Distribution Statistics Examples.

(** Integer stand-ins for the further operations of the backend, in the
    manner of [integer_backend]. *)
#[global] Instance integer_math : MathBackend Z := {|
  map_square a := x ← leaf a; Ok (PTensor (x * x)%Z);
  map_sqrt a := x ← leaf a; Ok (PTensor (Z.sqrt x));
  log1mexp a := x ← leaf a; Ok (PTensor (Z.log2 (1 - 2 ^ x)));
  tf_log1p a := x ← leaf a; Ok (PTensor (Z.log2 (1 + x)));
  tf_expm1 a := x ← leaf a; Ok (PTensor (2 ^ x - 1)%Z);
  tf_negative a := x ← leaf a; Ok (PTensor (- x)%Z);
  one_minus a := x ← leaf a; Ok (PTensor (1 - x)%Z);
|}.

(** A scalar distribution that defines [_stddev] and [_log_cdf] and leaves
    the other private methods to the base class. *)
Definition with_stddev_and_log_cdf : Statistical Z := {|
  measures := scalar_distribution;
  _cdf := None;
  _log_cdf := Some (λ value _, Ok value);
  _log_survival_function := λ _ _,
    Raise (NotImplementedError "log_survival_function");
  _survival_function := λ _ _,
    Raise (NotImplementedError "survival_function");
  _variance := λ _, Raise (NotImplementedError "variance");
  _stddev := λ _, Ok (PTensor 3%Z);
|}.

(** One that overrides none of them. *)
Definition with_nothing : Statistical Z := {|
  measures := scalar_distribution;
  _cdf := None;
  _log_cdf := None;
  _log_survival_function := λ _ _,
    Raise (NotImplementedError "log_survival_function");
  _survival_function := λ _ _,
    Raise (NotImplementedError "survival_function");
  _variance := λ _, Raise (NotImplementedError "variance");
  _stddev := λ _, Raise (NotImplementedError "stddev");
|}.

End StatisticsExamples.

(** * Properties *)

(** ** The window schedule *)

Module WindowedFacts.

Import Windowed.

Local Open Scope Z_scope.

(** C7: for every budget [N] the three sizes satisfy
    [first + slow * (1 + 2 + 4 + 8) + last = N], the sum that
    [test_get_window_sizes] checks is [N] as well, in particular at 0, 1, 100,
    524, 525 and 10000, and a budget of 525 gives (75, 25, 75). *)
Theorem window_sizes_sum_to_budget :
  (∀ N : Z,
     let '(first_window, slow_window_unit, last_window) := _get_window_sizes N in
     first_window + slow_window_unit * (1 + 2 + 4 + 8) + last_window = N
     ∧ window_total (_get_window_sizes N) = N)
  ∧ Forall (λ N, window_total (_get_window_sizes N) = N)
      [0; 1; 100; 524; 525; 10000]
  ∧ _get_window_sizes 525 = (75, 25, 75).
Proof.
  assert (Hall : ∀ N : Z,
     let '(first_window, slow_window_unit, last_window) := _get_window_sizes N in
     first_window + slow_window_unit * (1 + 2 + 4 + 8) + last_window = N
     ∧ window_total (_get_window_sizes N) = N).
  { intros N. unfold window_total, _get_window_sizes. cbv zeta. split; lia. }
  split; [exact Hall|]. split; [|reflexivity].
  repeat constructor.
Qed.

End WindowedFacts.

(** ** The calling convention *)

Module ResolverFacts.

Import Resolver Examples JointDistribution.

Section general.
Context {T : Type}.
Variable assert_same_structure : pyval T → pyval T → result T unit.
Implicit Types (args : list (pyval T)) (kwargs : gmap string (pyval T)).
Implicit Types (flat_names : list string) (dtype : pyval T).

Lemma no_value_keyword_default kwargs :
  no_value_keyword kwargs → is_none (default PNone (kwargs !! "value")) = true.
Proof. by intros [-> | ->]. Qed.

Lemma elem_of_matched flat_names kwargs k :
  k ∈ matched_kwargs_of flat_names kwargs ↔ k ∈ flat_names ∧ is_Some (kwargs !! k).
Proof.
  unfold matched_kwargs_of.
  rewrite elem_of_list_to_set, list_elem_of_filter, elem_of_dom. tauto.
Qed.

Lemma matched_empty flat_names kwargs :
  (∀ k, k ∈ flat_names → kwargs !! k = None) →
  matched_kwargs_of flat_names kwargs = ∅.
Proof.
  intros Hno. apply set_eq. intros k. rewrite elem_of_matched.
  split; [|set_solver]. intros [Hk [v Hv]]. rewrite (Hno k Hk) in Hv. done.
Qed.

Lemma unmatched_of_matched_empty flat_names kwargs :
  matched_kwargs_of flat_names kwargs = ∅ →
  unmatched_kwargs_of flat_names kwargs = kwargs.
Proof.
  intros Hm. unfold unmatched_kwargs_of. rewrite Hm.
  apply map_filter_id. intros k v _. set_solver.
Qed.

(** The keywords split into the matched ones, one per matched name, and the
    unmatched ones. *)
Lemma size_unmatched flat_names kwargs :
  size kwargs
  = size (matched_kwargs_of flat_names kwargs)
    + size (unmatched_kwargs_of flat_names kwargs).
Proof.
  unfold unmatched_kwargs_of.
  set (M := matched_kwargs_of flat_names kwargs).
  rewrite <-(map_filter_union_complement (λ kv, kv.1 ∈ M) kwargs) at 1.
  rewrite map_size_disj_union by apply map_disjoint_filter_complement.
  f_equal. rewrite <-size_dom. f_equal.
  apply dom_filter_L. intros k. unfold M. rewrite elem_of_matched.
  split.
  - intros [Hin [v Hv]]. exists v. split; [done|]. simpl.
    apply elem_of_matched. split; [done|by eexists].
  - intros (v & Hv & Hk). simpl in Hk. by apply elem_of_matched in Hk.
Qed.

Lemma size_list_to_set_le (l : list string) :
  size (list_to_set (C := gset string) l) ≤ length l.
Proof.
  induction l as [|x l IH].
  - by rewrite list_to_set_nil, size_empty.
  - rewrite list_to_set_cons, size_union_alt, size_singleton. simpl.
    assert (Hle : size (list_to_set (C := gset string) l ∖ {[x]})
                  ≤ size (list_to_set (C := gset string) l)).
    { apply subseteq_size. intros y Hy. by apply elem_of_difference in Hy as [? _]. }
    lia.
Qed.

(** When the count check passes and no keyword names one of the leading
    components, which the positional arguments cover, every later component
    has a keyword. *)
Lemma trailing_names_matched flat_names kwargs (a : nat) :
  a + size (matched_kwargs_of flat_names kwargs) = length flat_names →
  (∀ j k, flat_names !! j = Some k → j < a → kwargs !! k = None) →
  ∀ j k, flat_names !! j = Some k → a ≤ j → is_Some (kwargs !! k).
Proof.
  intros Hcount Hlead j k Hj Hle.
  set (M := matched_kwargs_of flat_names kwargs) in *.
  set (L := drop a flat_names).
  assert (HML : M ⊆ list_to_set L).
  { intros k' Hk'. apply elem_of_matched in Hk' as [Hin [v Hv]].
    apply list_elem_of_lookup in Hin as [j' Hj'].
    destruct (decide (j' < a)) as [Hlt|Hge].
    - rewrite (Hlead _ _ Hj' Hlt) in Hv. done.
    - apply elem_of_list_to_set, list_elem_of_lookup. exists (j' - a).
      unfold L. rewrite lookup_drop. rewrite <-Hj'. f_equal. lia. }
  assert (Hsize : size (list_to_set (C := gset string) L) ≤ size M).
  { etrans; [apply size_list_to_set_le|]. unfold L. rewrite length_drop. lia. }
  assert (HkL : k ∈ (list_to_set L : gset string)).
  { apply elem_of_list_to_set, list_elem_of_lookup. exists (j - a).
    unfold L. rewrite lookup_drop. rewrite <-Hj. f_equal. lia. }
  rewrite <-(set_subseteq_size_eq M (list_to_set L) HML Hsize) in HkL.
  by apply elem_of_matched in HkL as [_ ?].
Qed.

Lemma component_values_error i flat_names args kwargs e :
  component_values i flat_names args kwargs = Raise e → e = IndexError.
Proof.
  revert i. induction flat_names as [|k names IH]; intros i; simpl; [done|].
  destruct (kwargs !! k) as [v|]; simpl.
  - destruct (component_values (S i) names args kwargs) eqn:E; simpl; [done|].
    intros [= <-]. by eapply IH.
  - unfold py_index. destruct (args !! i); simpl; [|by intros [= <-]].
    destruct (component_values (S i) names args kwargs) eqn:E; simpl; [done|].
    intros [= <-]. by eapply IH.
Qed.

(** With the positional arguments bound to the leading names and keywords to
    the others, the walk of the code and the walk of the specification agree
    and succeed. *)
Lemma component_values_next_unused flat_names args kwargs :
  ∀ i,
    (∀ j k, flat_names !! j = Some k → i + j < length args → kwargs !! k = None) →
    (∀ j k, flat_names !! j = Some k → length args ≤ i + j → is_Some (kwargs !! k)) →
    ∃ vs,
      component_values i flat_names args kwargs = Ok vs
      ∧ walk_next_unused flat_names (drop i args) kwargs = Some vs
      ∧ ∀ j k, flat_names !! j = Some k →
          vs !! j = match kwargs !! k with
                    | Some v => Some v
                    | None => args !! (i + j)
                    end.
Proof.
  induction flat_names as [|k names IH]; intros i Hlead Htrail; simpl.
  - exists []. by repeat split.
  - destruct (IH (S i)) as (vs & Hcode & Hspec & Hvs).
    { intros j k' Hj Hlt. apply (Hlead (S j) k'); [done|lia]. }
    { intros j k' Hj Hge. apply (Htrail (S j) k'); [done|lia]. }
    destruct (decide (i < length args)) as [Hlt|Hge].
    + rewrite (Hlead 0 k) by (done || lia).
      destruct (lookup_lt_is_Some_2 args i Hlt) as [x Hx].
      exists (x :: vs). unfold py_index. rewrite Hx. simpl. rewrite Hcode. simpl.
      rewrite (drop_S _ _ _ Hx), Hspec. repeat split; [done..|].
      intros [|j] k' Hj; simpl in *.
      * injection Hj as <-. rewrite (Hlead 0 k) by (done || lia).
        by rewrite Nat.add_0_r.
      * rewrite (Hvs _ _ Hj). by replace (i + S j) with (S i + j) by lia.
    + destruct (Htrail 0 k) as [v Hv]; [done|lia|]. rewrite Hv.
      exists (v :: vs). simpl. rewrite Hcode. simpl.
      rewrite drop_ge in * by lia. rewrite Hspec. repeat split; [done..|].
      intros [|j] k' Hj; simpl in *.
      * injection Hj as <-. by rewrite Hv.
      * rewrite (Hvs _ _ Hj). by replace (i + S j) with (S i + j) by lia.
Qed.

(** When the keyword [value] is present and is not [None], the resolver
    returns it outright, whatever the positional arguments, the model and the
    other keywords are, and returns all the other keywords as unmatched. *)
Lemma resolve_value_keyword
    args kwargs dtype flat_names model_flatten_fn model_unflatten_fn v :
  kwargs !! "value" = Some v →
  v ≠ PNone →
  _resolve_value_from_args assert_same_structure args kwargs dtype flat_names
    model_flatten_fn model_unflatten_fn
  = Ok (v, delete "value" kwargs).
Proof.
  intros Hv Hnone. unfold _resolve_value_from_args. rewrite Hv. simpl.
  by destruct v.
Qed.

(** With one positional argument, no keyword naming a declared component and
    no keyword [value] other than [None], the number of entries of [dtype]
    decides: with several the argument comes back as the whole value; with
    one it is wrapped by [model_unflatten_fn] when [assert_same_structure]
    accepts it against the component's dtype, and comes back as the whole
    value when that check raises a [ValueError] or a [TypeError]. *)
Lemma resolve_single_positional
    arg kwargs dtype flat_names model_flatten_fn model_unflatten_fn (n : nat) :
  no_value_keyword kwargs →
  (∀ k, k ∈ flat_names → kwargs !! k = None) →
  py_len dtype = Ok n →
  let resolved :=
    _resolve_value_from_args assert_same_structure [arg] kwargs dtype
      flat_names model_flatten_fn model_unflatten_fn in
  let unmatched := delete "value" kwargs in
  (1 < n → resolved = Ok (arg, unmatched))
  ∧ (n = 1 →
     ∀ first_component_dtype,
       model_flatten_fn dtype !! 0 = Some first_component_dtype →
       (assert_same_structure first_component_dtype arg = Ok tt →
        resolved = Ok (model_unflatten_fn [arg], unmatched))
       ∧ (∀ e, assert_same_structure first_component_dtype arg = Raise e →
               is_ValueError_or_TypeError e = true →
               resolved = Ok (arg, unmatched))).
Proof.
  intros Hvalue Hnames Hlen resolved unmatched.
  assert (Hm : matched_kwargs_of flat_names (delete "value" kwargs) = ∅).
  { apply matched_empty. intros k Hk. apply lookup_delete_None. auto. }
  assert (Hresolved : resolved =
    (n ← py_len dtype;
     if decide (1 < n) then Ok (arg, unmatched) else
     first_component_dtype ← py_index (model_flatten_fn dtype) 0;
     match assert_same_structure first_component_dtype arg with
     | Ok _ => Ok (model_unflatten_fn [arg], unmatched)
     | Raise e =>
         if is_ValueError_or_TypeError e then Ok (arg, unmatched) else Raise e
     end)).
  { unfold resolved, _resolve_value_from_args.
    rewrite (no_value_keyword_default _ Hvalue). simpl negb. cbv iota.
    rewrite (unmatched_of_matched_empty _ _ Hm).
    rewrite decide_True by done. done. }
  rewrite Hresolved, Hlen. simpl. split.
  - intros Hgt. by rewrite decide_True.
  - intros H1 c Hc. rewrite decide_False by lia.
    unfold py_index. rewrite Hc. simpl. split.
    + by intros ->.
    + by intros e -> ->.
Qed.

(** On the path past the value keyword and the single positional
    argument, the resolver raises the count error, made of the declared names,
    the detected count and the arguments received, when
    [num_components_specified] differs from the number of declared names, and
    raises no count error when it does not differ. *)
Lemma resolve_count_mismatch
    args kwargs dtype flat_names model_flatten_fn model_unflatten_fn :
  no_value_keyword kwargs →
  let kwargs' := delete "value" kwargs in
  let unmatched_kwargs := unmatched_kwargs_of flat_names kwargs' in
  let num_components_specified :=
    length args + size kwargs' - size unmatched_kwargs in
  let resolved :=
    _resolve_value_from_args assert_same_structure args kwargs dtype
      flat_names model_flatten_fn model_unflatten_fn in
  ¬ (length args = 1 ∧ matched_kwargs_of flat_names kwargs' = ∅) →
  (num_components_specified ≠ length flat_names →
   resolved = Raise (ValueError_count (length flat_names) flat_names
                       num_components_specified args kwargs'))
  ∧ (num_components_specified = length flat_names →
     ∀ n names k a kw, resolved ≠ Raise (ValueError_count n names k a kw)).
Proof.
  intros Hvalue kwargs' unmatched_kwargs num resolved Hpath.
  unfold resolved, _resolve_value_from_args.
  rewrite (no_value_keyword_default _ Hvalue). simpl negb. cbv iota.
  rewrite decide_False by done.
  fold kwargs'. fold unmatched_kwargs. fold num. split.
  - intros Hne. by rewrite decide_True.
  - intros Heq n names k a kw. rewrite decide_False by (by intros []).
    case_decide; [done|].
    destruct (component_values 0 flat_names args kwargs') eqn:E; simpl; [done|].
    apply component_values_error in E as ->. done.
Qed.

(** Once the count check and the check on positional arguments pass, and no
    keyword names one of the leading components that the positional arguments
    cover, the resolved value
    is [model_unflatten_fn] of the walk that gives each declared name its
    keyword if there is one and otherwise the next unused positional argument;
    component [j] is the keyword of its name or else positional argument
    [j]. *)
Lemma resolve_walk
    args kwargs dtype flat_names model_flatten_fn model_unflatten_fn :
  no_value_keyword kwargs →
  let kwargs' := delete "value" kwargs in
  let unmatched_kwargs := unmatched_kwargs_of flat_names kwargs' in
  ¬ (length args = 1 ∧ matched_kwargs_of flat_names kwargs' = ∅) →
  length args + size kwargs' - size unmatched_kwargs = length flat_names →
  ¬ (args ≠ [] ∧ is_unordered_dict dtype = true) →
  (∀ j k, flat_names !! j = Some k → j < length args → kwargs' !! k = None) →
  ∃ vs,
    walk_next_unused flat_names args kwargs' = Some vs
    ∧ _resolve_value_from_args assert_same_structure args kwargs dtype
        flat_names model_flatten_fn model_unflatten_fn
      = Ok (model_unflatten_fn vs, unmatched_kwargs)
    ∧ ∀ j k, flat_names !! j = Some k →
        vs !! j = match kwargs' !! k with
                  | Some v => Some v
                  | None => args !! j
                  end.
Proof.
  intros Hvalue kwargs' unmatched_kwargs Hpath Hcount Hpos Hlead.
  assert (Hcount' :
    length args + size (matched_kwargs_of flat_names kwargs') = length flat_names).
  { pose proof (size_unmatched flat_names kwargs') as Hsz.
    fold unmatched_kwargs in Hsz. lia. }
  destruct (component_values_next_unused flat_names args kwargs' 0)
    as (vs & Hcode & Hspec & Hvs).
  { intros j k Hj Hlt. by apply (Hlead j k). }
  { intros j k Hj Hge.
    by apply (trailing_names_matched flat_names kwargs' (length args) Hcount' Hlead j k). }
  exists vs. rewrite drop_0 in Hspec. split; [done|]. split; [|done].
  unfold _resolve_value_from_args.
  rewrite (no_value_keyword_default _ Hvalue). simpl negb. cbv iota.
  rewrite decide_False by done.
  fold kwargs'. fold unmatched_kwargs.
  rewrite decide_False by (intros Hne; by apply Hne).
  rewrite decide_False by done.
  by rewrite Hcode.
Qed.

End general.

(** C1: a call with one positional argument and no keyword naming a
    declared component, past the keyword [value].  The number of components
    of the model is [len(dtype)], as the code counts them.  A model of more
    than one component gets the argument back unchanged as the whole value.
    A model of one component gets it wrapped by [model_unflatten_fn] when
    [tf.nest.assert_same_structure] accepts it against the dtype of the
    component, and gets it back as the whole value whenever that check does
    not accept it, whatever it raises.  On the one-component scalar model,
    [f(4.)] and [f([4.])] both resolve to [[4.]]. *)
Theorem single_positional_argument :
  (∀ (T : Type) (arg : pyval T) (kwargs : gmap string (pyval T))
     (dtype : pyval T) (flat_names : list string)
     model_flatten_fn model_unflatten_fn (n : nat),
     no_value_keyword kwargs →
     (∀ k, k ∈ flat_names → kwargs !! k = None) →
     py_len dtype = Ok n →
     let resolved :=
       _resolve_value_from_args Nest.assert_same_structure [arg] kwargs dtype
         flat_names model_flatten_fn model_unflatten_fn in
     let unmatched := delete "value" kwargs in
     (1 < n → resolved = Ok (arg, unmatched))
     ∧ (n = 1 →
        ∀ first_component_dtype,
          model_flatten_fn dtype !! 0 = Some first_component_dtype →
          (Nest.assert_same_structure first_component_dtype arg = Ok tt →
           resolved = Ok (model_unflatten_fn [arg], unmatched))
          ∧ (Nest.assert_same_structure first_component_dtype arg ≠ Ok tt →
             resolved = Ok (arg, unmatched))))
  ∧ resolve_call model_x "log_prob" [float 4] ∅ = Ok (PList [float 4], name_only)
  ∧ resolve_call model_x "log_prob" [PList [float 4]] ∅ = Ok (PList [float 4], name_only).
Proof.
  split; [|split; by vm_compute].
  intros T arg kwargs dtype flat_names fl unfl n Hv Hk Hn resolved unmatched.
  destruct (resolve_single_positional Nest.assert_same_structure arg kwargs
              dtype flat_names fl unfl n Hv Hk Hn) as [Hmany Hone].
  split; [exact Hmany|]. intros H1 d Hd.
  destruct (Hone H1 d Hd) as [Hok Hraise]. split; [exact Hok|].
  intros Hno. unfold Nest.assert_same_structure in *.
  destruct (Nest.skeleton_eqb (Nest.skeleton_of d) (Nest.skeleton_of arg));
    [done|].
  by eapply Hraise.
Qed.

Lemma single_positional_argument_witness :
  let kwargs := name_only in
  let several := PList [PDType "float32"; PDType "float32"] in
  let one := PList [PDType "float32"] in
  (no_value_keyword kwargs
   ∧ (∀ k, k ∈ ["y"; "x"] → kwargs !! k = None)
   ∧ py_len several = Ok 2
   ∧ 1 < 2
   ∧ _resolve_value_from_args Nest.assert_same_structure
       [PList [float 1; float 2]] kwargs several ["y"; "x"]
       sequential_flatten sequential_unflatten
     = Ok (PList [float 1; float 2], delete "value" kwargs))
  ∧ ((∀ k, k ∈ ["x"] → kwargs !! k = None)
     ∧ py_len one = Ok 1
     ∧ sequential_flatten one !! 0 = Some (PDType "float32")
     ∧ Nest.assert_same_structure (PDType "float32") (float 4) = Ok tt
     ∧ _resolve_value_from_args Nest.assert_same_structure [float 4] kwargs one
         ["x"] sequential_flatten sequential_unflatten
       = Ok (sequential_unflatten [float 4], delete "value" kwargs))
  ∧ (Nest.assert_same_structure (PDType "float32") (PList [float 4 : pyval Z])
     ≠ Ok tt
     ∧ _resolve_value_from_args Nest.assert_same_structure [PList [float 4]]
         kwargs one ["x"] sequential_flatten sequential_unflatten
       = Ok (PList [float 4], delete "value" kwargs)).
Proof.
  intros kwargs several one.
  assert (H1 : no_value_keyword kwargs) by (left; reflexivity).
  assert (H2 : ∀ k, k ∈ ["y"; "x"] → kwargs !! k = None).
  { intros k Hk. apply elem_of_cons in Hk as [->|Hk]; [reflexivity|].
    apply elem_of_cons in Hk as [->|Hk]; [reflexivity|].
    by apply elem_of_nil in Hk. }
  assert (H3 : py_len several = Ok 2) by reflexivity.
  assert (H4 : 1 < 2) by lia.
  assert (H5 : ∀ k, k ∈ ["x"] → kwargs !! k = None).
  { intros k Hk. apply elem_of_cons in Hk as [->|Hk]; [reflexivity|].
    by apply elem_of_nil in Hk. }
  assert (H6 : py_len one = Ok 1) by reflexivity.
  assert (H8 : sequential_flatten one !! 0 = Some (PDType "float32"))
    by reflexivity.
  assert (H9 : Nest.assert_same_structure (PDType "float32") (float 4) = Ok tt)
    by reflexivity.
  assert (H10 : Nest.assert_same_structure (PDType "float32")
                  (PList [float 4 : pyval Z]) ≠ Ok tt)
    by (vm_compute; discriminate).
  split; [|split].
  - split; [exact H1|]. split; [exact H2|]. split; [exact H3|].
    split; [exact H4|].
    exact (proj1 (proj1 single_positional_argument Z
                    (PList [float 1; float 2]) kwargs several ["y"; "x"]
                    sequential_flatten sequential_unflatten 2 H1 H2 H3) H4).
  - split; [exact H5|]. split; [exact H6|].
    split; [exact H8|]. split; [exact H9|].
    exact (proj1 (proj2 (proj1 single_positional_argument Z
                           (float 4) kwargs one
                           ["x"] sequential_flatten sequential_unflatten 1
                           H1 H5 H6) eq_refl (PDType "float32") H8) H9).
  - split; [exact H10|].
    exact (proj2 (proj2 (proj1 single_positional_argument Z
                           (PList [float 4]) kwargs one
                           ["x"] sequential_flatten sequential_unflatten 1
                           H1 H5 H6) eq_refl (PDType "float32") H8) H10).
Defined.

(** C2, as the code has it: on the model with components [z, y, x], the calls
    [f(1., 2., 3.)], [f(z=1., y=2., x=3.)], [f(1., 2., x=3.)] and
    [f(value=[1., 2., 3.])] all resolve to [[1., 2., 3.]].  In general, once
    the count check and the check on positional arguments pass, and no keyword
    names one of the leading components that the positional arguments cover,
    the resolved value is [model_unflatten_fn] of the walk that gives each
    declared name its keyword if there is one and otherwise the next unused
    positional argument; component [j] is then the keyword of its name or else
    positional argument [j]. *)
Theorem walk_of_names_in_order :
  (resolve_call model_zyx "log_prob" [float 1; float 2; float 3] ∅
   = Ok (PList [float 1; float 2; float 3], name_only)
   ∧ resolve_call model_zyx "log_prob" [] {["z" := float 1; "y" := float 2; "x" := float 3]}
     = Ok (PList [float 1; float 2; float 3], name_only)
   ∧ resolve_call model_zyx "log_prob" [float 1; float 2] {["x" := float 3]}
     = Ok (PList [float 1; float 2; float 3], name_only)
   ∧ resolve_call model_zyx "log_prob" [] {["value" := PList [float 1; float 2; float 3]]}
     = Ok (PList [float 1; float 2; float 3], name_only))
  ∧ ∀ (T : Type) (assert_same_structure : pyval T → pyval T → result T unit)
      (args : list (pyval T)) (kwargs : gmap string (pyval T)) (dtype : pyval T)
      (flat_names : list string) model_flatten_fn model_unflatten_fn,
      no_value_keyword kwargs →
      let kwargs' := delete "value" kwargs in
      let unmatched_kwargs := unmatched_kwargs_of flat_names kwargs' in
      ¬ (length args = 1 ∧ matched_kwargs_of flat_names kwargs' = ∅) →
      length args + size kwargs' - size unmatched_kwargs = length flat_names →
      ¬ (args ≠ [] ∧ is_unordered_dict dtype = true) →
      (∀ j k, flat_names !! j = Some k → j < length args → kwargs' !! k = None) →
      ∃ vs,
        walk_next_unused flat_names args kwargs' = Some vs
        ∧ _resolve_value_from_args assert_same_structure args kwargs dtype
            flat_names model_flatten_fn model_unflatten_fn
          = Ok (model_unflatten_fn vs, unmatched_kwargs)
        ∧ ∀ j k, flat_names !! j = Some k →
            vs !! j = match kwargs' !! k with
                      | Some v => Some v
                      | None => args !! j
                      end.
Proof.
  split; [repeat split; by vm_compute|].
  intros T asrt args kwargs dtype flat_names fl unfl. apply resolve_walk.
Qed.

(** The count check passes and the model is a list, yet the keyword names the
    first component while two positional arguments are given: the walk of the
    specification yields [[1., 2., 3.]], the code raises [IndexError]. *)
Lemma walk_keyword_before_positional :
  let args : list (pyval Z) := [float 2; float 3] in
  let kwargs : gmap string (pyval Z) := {["z" := float 1; "name" := PStr "log_prob"]} in
  let flat_names := ["z"; "y"; "x"] in
  length args + size kwargs - size (unmatched_kwargs_of flat_names kwargs)
  = length flat_names
  ∧ is_unordered_dict (jd_dtype model_zyx) = false
  ∧ walk_next_unused flat_names args kwargs = Some [float 1; float 2; float 3]
  ∧ resolve_call model_zyx "log_prob" args {["z" := float 1]} = Raise IndexError.
Proof. repeat split; by vm_compute. Qed.

Lemma walk_of_names_in_order_witness :
  let args := [float 1; float 2] in
  let kwargs : gmap string (pyval Z) :=
    {["x" := float 3; "name" := PStr "log_prob"]} in
  let flat_names := ["z"; "y"; "x"] in
  let dtype : pyval Z := jd_dtype model_zyx in
  let kwargs' := delete "value" kwargs in
  let unmatched_kwargs := unmatched_kwargs_of flat_names kwargs' in
  no_value_keyword kwargs
  ∧ ¬ (length args = 1 ∧ matched_kwargs_of flat_names kwargs' = ∅)
  ∧ length args + size kwargs' - size unmatched_kwargs = length flat_names
  ∧ ¬ (args ≠ [] ∧ is_unordered_dict dtype = true)
  ∧ (∀ j k, flat_names !! j = Some k → j < length args → kwargs' !! k = None)
  ∧ ∃ vs,
      walk_next_unused flat_names args kwargs' = Some vs
      ∧ _resolve_value_from_args Nest.assert_same_structure args kwargs dtype
          flat_names sequential_flatten sequential_unflatten
        = Ok (sequential_unflatten vs, unmatched_kwargs)
      ∧ ∀ j k, flat_names !! j = Some k →
          vs !! j = match kwargs' !! k with
                    | Some v => Some v
                    | None => args !! j
                    end.
Proof.
  intros args kwargs flat_names dtype kwargs' unmatched_kwargs.
  assert (H1 : no_value_keyword kwargs) by (left; reflexivity).
  assert (H2 : ¬ (length args = 1 ∧ matched_kwargs_of flat_names kwargs' = ∅)).
  { intros [Hlen _]. simpl in Hlen. lia. }
  assert (H3 : length args + size kwargs' - size unmatched_kwargs
               = length flat_names) by (vm_compute; reflexivity).
  assert (H4 : ¬ (args ≠ [] ∧ is_unordered_dict dtype = true)).
  { intros [_ Hd]. vm_compute in Hd. discriminate. }
  assert (H5 : ∀ j k, flat_names !! j = Some k → j < length args →
                      kwargs' !! k = None).
  { intros [|[|j]] k Hj Hlt; simpl in *; try lia;
      injection Hj as <-; vm_compute; reflexivity. }
  split; [exact H1|]. split; [exact H2|]. split; [exact H3|].
  split; [exact H4|]. split; [exact H5|].
  exact (proj2 walk_of_names_in_order Z Nest.assert_same_structure args kwargs
           dtype flat_names sequential_flatten sequential_unflatten
           H1 H2 H3 H4 H5).
Defined.

(** C3: on the path past the value keyword and the single positional
    argument, with [num_components_specified = len(args) + len(kwargs) -
    len(unmatched_kwargs)], the resolver raises the count error, made of the
    declared names, the detected count and the arguments received, when that
    number differs from the number of declared names, and raises no count
    error when it does not differ; [f(1., 2.)] on the model with three
    components raises it. *)
Theorem count_mismatch_iff :
  (∀ (T : Type) (assert_same_structure : pyval T → pyval T → result T unit)
     (args : list (pyval T)) (kwargs : gmap string (pyval T)) (dtype : pyval T)
     (flat_names : list string) model_flatten_fn model_unflatten_fn,
     no_value_keyword kwargs →
     let kwargs' := delete "value" kwargs in
     let unmatched_kwargs := unmatched_kwargs_of flat_names kwargs' in
     let num_components_specified :=
       length args + size kwargs' - size unmatched_kwargs in
     let resolved :=
       _resolve_value_from_args assert_same_structure args kwargs dtype
         flat_names model_flatten_fn model_unflatten_fn in
     ¬ (length args = 1 ∧ matched_kwargs_of flat_names kwargs' = ∅) →
     (num_components_specified ≠ length flat_names →
      resolved = Raise (ValueError_count (length flat_names) flat_names
                          num_components_specified args kwargs'))
     ∧ (num_components_specified = length flat_names →
        ∀ n names k a kw, resolved ≠ Raise (ValueError_count n names k a kw)))
  ∧ resolve_call model_zyx "log_prob" [float 1; float 2] ∅
    = Raise (ValueError_count 3 ["z"; "y"; "x"] 2 [float 1; float 2] name_only).
Proof.
  split; [|by vm_compute].
  intros T asrt args kwargs dtype flat_names fl unfl.
  apply resolve_count_mismatch.
Qed.

Lemma count_mismatch_iff_witness :
  let args := [float 1; float 2] in
  let args3 := [float 1; float 2; float 3] in
  let kwargs : gmap string (pyval Z) := name_only in
  let flat_names := ["z"; "y"; "x"] in
  let kwargs' := delete "value" kwargs in
  let unmatched := unmatched_kwargs_of flat_names kwargs' in
  (no_value_keyword kwargs
   ∧ ¬ (length args = 1 ∧ matched_kwargs_of flat_names kwargs' = ∅)
   ∧ length args + size kwargs' - size unmatched ≠ length flat_names
   ∧ _resolve_value_from_args Nest.assert_same_structure args kwargs
       (jd_dtype model_zyx) flat_names sequential_flatten sequential_unflatten
     = Raise (ValueError_count (length flat_names) flat_names
                (length args + size kwargs' - size unmatched) args kwargs'))
  ∧ (¬ (length args3 = 1 ∧ matched_kwargs_of flat_names kwargs' = ∅)
     ∧ length args3 + size kwargs' - size unmatched = length flat_names
     ∧ ∀ n names k a kw,
         _resolve_value_from_args Nest.assert_same_structure args3 kwargs
           (jd_dtype model_zyx) flat_names sequential_flatten
           sequential_unflatten
         ≠ Raise (ValueError_count n names k a kw)).
Proof.
  intros args args3 kwargs flat_names kwargs' unmatched.
  assert (H1 : no_value_keyword kwargs) by (left; reflexivity).
  assert (H2 : ¬ (length args = 1 ∧ matched_kwargs_of flat_names kwargs' = ∅)).
  { intros [Hlen _]. simpl in Hlen. lia. }
  assert (H3 : length args + size kwargs' - size unmatched ≠ length flat_names).
  { vm_compute. lia. }
  assert (H4 : ¬ (length args3 = 1 ∧ matched_kwargs_of flat_names kwargs' = ∅)).
  { intros [Hlen _]. simpl in Hlen. lia. }
  assert (H5 : length args3 + size kwargs' - size unmatched = length flat_names).
  { vm_compute. reflexivity. }
  split.
  - split; [exact H1|]. split; [exact H2|]. split; [exact H3|].
    exact (proj1 (proj1 count_mismatch_iff Z Nest.assert_same_structure args
                    kwargs (jd_dtype model_zyx) flat_names
                    sequential_flatten sequential_unflatten H1 H2) H3).
  - split; [exact H4|]. split; [exact H5|].
    exact (proj2 (proj1 count_mismatch_iff Z Nest.assert_same_structure args3
                    kwargs (jd_dtype model_zyx) flat_names
                    sequential_flatten sequential_unflatten H1 H4) H5).
Defined.

(** C4, as the code has it: when the keyword [value] is present and is not
    [None], the resolver returns it outright, whatever the positional
    arguments, the model and the other keywords are, so that no structural
    matching, counting or positional processing takes place, and returns all
    the other keywords as unmatched. *)
Theorem value_keyword_returned_outright :
  ∀ (T : Type) (assert_same_structure : pyval T → pyval T → result T unit)
    (args : list (pyval T)) (kwargs : gmap string (pyval T)) (dtype : pyval T)
    (flat_names : list string) model_flatten_fn model_unflatten_fn
    (v : pyval T),
    kwargs !! "value" = Some v →
    v ≠ PNone →
    _resolve_value_from_args assert_same_structure args kwargs dtype flat_names
      model_flatten_fn model_unflatten_fn
    = Ok (v, delete "value" kwargs).
Proof.
  intros T asrt args kwargs dtype flat_names fl unfl v.
  apply resolve_value_keyword.
Qed.

Lemma value_keyword_returned_outright_witness :
  let kwargs : gmap string (pyval Z) :=
    {["value" := PList [float 7]; "z" := float 1; "name" := PStr "log_prob"]} in
  kwargs !! "value" = Some (PList [float 7])
  ∧ PList [float 7] ≠ PNone
  ∧ _resolve_value_from_args Nest.assert_same_structure [float 1; float 2] kwargs
      (jd_dtype model_zyx) ["z"; "y"; "x"] sequential_flatten sequential_unflatten
    = Ok (PList [float 7], delete "value" kwargs).
Proof.
  intros kwargs.
  assert (H1 : kwargs !! "value" = Some (PList [float 7])) by reflexivity.
  assert (H2 : PList [float 7] ≠ (PNone : pyval Z)) by discriminate.
  split; [exact H1|]. split; [exact H2|].
  exact (value_keyword_returned_outright Z Nest.assert_same_structure
           [float 1; float 2] kwargs (jd_dtype model_zyx) ["z"; "y"; "x"]
           sequential_flatten sequential_unflatten (PList [float 7]) H1 H2).
Defined.

(** The keyword [value] is present with the value [None]: it is dropped and
    the other rules apply.  [f(1., 2., 3., value=None)] resolves to
    [[1., 2., 3.]], not to [None], and [f(value=None)] raises the count
    error. *)
Lemma value_keyword_none_falls_through :
  let kwargs : gmap string (pyval Z) := {["value" := PNone]} in
  kwargs !! "value" = Some PNone
  ∧ resolve_call model_zyx "log_prob" [float 1; float 2; float 3] kwargs
    = Ok (PList [float 1; float 2; float 3], name_only)
  ∧ resolve_call model_zyx "log_prob" [float 1; float 2; float 3] kwargs
    ≠ Ok (PNone, name_only)
  ∧ resolve_call model_zyx "log_prob" [] kwargs
    = Raise (ValueError_count 3 ["z"; "y"; "x"] 0 [] name_only).
Proof. repeat split; by vm_compute. Qed.

End ResolverFacts.

(** ** The public measures of [Distribution] *)

Module DistributionFacts.

Import Distribution Examples.

(** C6: for a distribution that defines only [_log_prob], [prob(x)] is
    [tf.exp] of [log_prob(x)]; for one that defines only [_prob],
    [log_prob(x)] is [tf.math.log] of [prob(x)]; for one that defines neither,
    both raise [NotImplementedError] at every [x] that the cast, the tensor
    conversion and the assertions of the distribution let through. *)
Theorem prob_and_log_prob_derived :
  ∀ (T : Type) (B : TensorBackend T) (d : Distribution T)
    (x name_lp name_p : pyval T) (kwargs : gmap string (pyval T)),
    (∀ f, _log_prob d = Some f → _prob d = None →
          prob d x name_p kwargs = (lp ← log_prob d x name_lp kwargs; tf_exp lp))
    ∧ (∀ g, _prob d = Some g → _log_prob d = None →
            log_prob d x name_lp kwargs
            = (p ← prob d x name_p kwargs; tf_math_log p))
    ∧ (_log_prob d = None → _prob d = None →
       ∀ x1 x2,
         _cast_structure x (dtype d) = Ok x1 →
         convert_to_nested_tensor x1 (dtype d) = Ok x2 →
         _control_dependencies d (Some x2) kwargs = Ok tt →
         log_prob d x name_lp kwargs = Raise (NotImplementedError "log_prob")
         ∧ prob d x name_p kwargs = Raise (NotImplementedError "prob")).
Proof.
  intros T B d x name_lp name_p kwargs.
  unfold prob, log_prob, _call_prob, _call_log_prob.
  split; [|split].
  - intros f -> ->.
    destruct (_cast_structure x (dtype d)) as [x1|]; simpl; [|done].
    destruct (convert_to_nested_tensor x1 (dtype d)) as [x2|]; simpl; [|done].
    by destruct (_control_dependencies d (Some x2) kwargs).
  - intros g -> ->.
    destruct (_cast_structure x (dtype d)) as [x1|]; simpl; [|done].
    destruct (convert_to_nested_tensor x1 (dtype d)) as [x2|]; simpl; [|done].
    by destruct (_control_dependencies d (Some x2) kwargs).
  - intros -> -> x1 x2 -> Hconv Hdeps. simpl. rewrite Hconv. simpl.
    by rewrite Hdeps.
Qed.

Lemma prob_and_log_prob_derived_witness :
  let d := scalar_distribution in
  let f := λ (value : pyval Z) (_ : gmap string (pyval Z)), Ok value in
  let n := no_measure_distribution in
  (_log_prob d = Some f
   ∧ _prob d = None
   ∧ prob d (float 3) (PStr "prob") ∅
     = (lp ← log_prob d (float 3) (PStr "log_prob") ∅; tf_exp lp))
  ∧ (_log_prob n = None
     ∧ _prob n = None
     ∧ _cast_structure (float 3) (dtype n) = Ok (float 3)
     ∧ convert_to_nested_tensor (float 3) (dtype n) = Ok (float 3)
     ∧ _control_dependencies n (Some (float 3)) ∅ = Ok tt
     ∧ log_prob n (float 3) (PStr "log_prob") ∅
       = Raise (NotImplementedError "log_prob")
     ∧ prob n (float 3) (PStr "prob") ∅ = Raise (NotImplementedError "prob")).
Proof.
  intros d f n.
  assert (H1 : _log_prob d = Some f) by reflexivity.
  assert (H2 : _prob d = None) by reflexivity.
  assert (H3 : _log_prob n = None) by reflexivity.
  assert (H4 : _prob n = None) by reflexivity.
  assert (H5 : _cast_structure (float 3) (dtype n) = Ok (float 3))
    by reflexivity.
  assert (H6 : convert_to_nested_tensor (float 3) (dtype n) = Ok (float 3))
    by reflexivity.
  assert (H7 : _control_dependencies n (Some (float 3)) ∅ = Ok tt)
    by reflexivity.
  split.
  - split; [exact H1|]. split; [exact H2|].
    exact (proj1 (prob_and_log_prob_derived Z integer_backend d (float 3)
                    (PStr "log_prob") (PStr "prob") ∅) f H1 H2).
  - split; [exact H3|]. split; [exact H4|]. split; [exact H5|].
    split; [exact H6|]. split; [exact H7|].
    exact (proj2 (proj2 (prob_and_log_prob_derived Z integer_backend n (float 3)
                           (PStr "log_prob") (PStr "prob") ∅))
             H3 H4 (float 3) (float 3) H5 H6 H7).
Defined.

End DistributionFacts.

(** ** The measures of [JointDistribution] *)

Module JointFacts.

Import Distribution JointDistribution Examples.

Section facts.
Context {T : Type} `{TensorBackend T}.
Implicit Types (self : JointDistribution T) (value : pyval T).












End facts.



(** C5, at the input where the code does not do what it says: under
    [validate_args], a part of shape [[]] beside a part of shape [[3]].  The
    two shapes differ and the parts broadcast when they are summed, but
    [np.all(a == b)] broadcasts the two shape vectors, of lengths one and
    zero, to an empty comparison, which is true: [maybe_check_wont_broadcast]
    returns the parts, [log_prob_parts] returns them, and [_log_prob] and the
    public [log_prob] return the broadcast sum.  Two parts of shapes [[2]]
    and [[3]] are rejected. *)
Lemma scalar_beside_vector_passes_validation :
  let scalar : pyval Z := float 1 in
  let vector : pyval Z := PList [float 1; float 2; float 3] in
  validate_args (model_ab true) = true
  ∧ ps_shape scalar = []
  ∧ ps_shape vector = [3%Z]
  ∧ np_all_equal (ps_shape vector) (ps_shape scalar) = true
  ∧ maybe_check_wont_broadcast [Ok scalar; Ok vector] true
    = Ok [scalar; vector]
  ∧ log_prob_parts (model_ab true) (PList [scalar; vector])
    = Ok (PList [scalar; vector])
  ∧ _log_prob (model_ab true) (PList [scalar; vector])
    = Ok (PList [float 2; float 3; float 4])
  ∧ JointDistribution.log_prob (model_ab true) [scalar; vector] ∅
    = Ok (PList [float 2; float 3; float 4])
  ∧ maybe_check_wont_broadcast
      [Ok (PList [float 1; float 2]); Ok vector] true
    = Raise ValueError_broadcast.
Proof. repeat split; by vm_compute. Qed.




End JointFacts.

(** ** Instances: [parameters] and [copy] *)

Module ObjectFacts.

Import Object Examples.

Section facts.
Context {T : Type}.
Implicit Types (h : heap T) (self a r : addr) (i : instance T).
Implicit Types (items callargs kwargs : gmap string (pyval T)).
Implicit Types (cls : dist_class T).

Lemma fresh_not_allocated h : h !! fresh (dom h) = None.
Proof. apply (not_elem_of_dom_1 h), is_fresh. Qed.

Lemma sanitize_no_self items self : no_self_entry self (sanitize items self).
Proof.
  intros k v Hkv. unfold sanitize in Hkv.
  apply map_lookup_filter_Some in Hkv as [_ [_ Hv]]. done.
Qed.

Lemma sanitize_id items self :
  ordinary_keys items → no_self_entry self items → sanitize items self = items.
Proof.
  intros Hd Hs. apply map_filter_id. intros k v Hkv. simpl.
  split; [by eapply Hd|by eapply Hs].
Qed.

(** Running [parameters] on an instance already marked sanitized: a fresh
    copy of the stored dict, and nothing else changes. *)
Lemma parameters_run_sanitized h self i q items :
  h !! self = Some (OInstance i) →
  _parameters_sanitized i = Some true →
  _parameters i = ParametersDict q →
  h !! q = Some (ODict items) →
  parameters self h
  = (Ok (fresh (dom h)), <[fresh (dom h) := ODict items]> h).
Proof.
  intros Hself Hflag Hattr Hq.
  unfold parameters, mbind, St_bind, get_instance.
  rewrite Hself. rewrite decide_True by done.
  unfold mret, St_ret. rewrite Hself, Hattr.
  unfold dict_items. rewrite Hq. done.
Qed.

(** Running [parameters] on an instance not marked sanitized: the sanitized
    dict is stored in a fresh object, the instance is marked, and a fresh copy
    is returned. *)
Lemma parameters_run_unsanitized h self i p :
  h !! self = Some (OInstance i) →
  _parameters_sanitized i ≠ Some true →
  stored_items h i = Some p →
  let q := fresh (dom h) in
  let h1 :=
    <[self := OInstance {| type_of := type_of i;
                           _parameters := ParametersDict q;
                           _parameters_sanitized := Some true;
                           provenance := provenance i |}]>
      (<[q := ODict (sanitize p self)]> h) in
  parameters self h
  = (Ok (fresh (dom h1)), <[fresh (dom h1) := ODict (sanitize p self)]> h1).
Proof.
  intros Hself Hflag Hstored q h1.
  assert (Hq : q ≠ self).
  { intros Heq. pose proof (fresh_not_allocated h) as Hf.
    unfold q in Heq. rewrite Heq in Hf. congruence. }
  unfold parameters, mbind, St_bind, get_instance.
  rewrite Hself. rewrite decide_False by done.
  unfold stored_items in Hstored.
  assert (Hstep : ∀ k : gmap string (pyval T) → St T unit,
    (match
       match _parameters i with
       | ParametersNone => raise (AttributeError "items")
       | ParametersLambda callargs => mret callargs
       | ParametersDict a => dict_items a
       end h
     with
     | (Ok a, h') => k a h'
     | (Raise e, h') => (Raise e, h')
     end) = k p h).
  { intros k. destruct (_parameters i) as [|c|a]; [done| |].
    - by injection Hstored as ->.
    - unfold dict_items. destruct (h !! a) as [[m|]|]; [|done..].
      by injection Hstored as ->. }
  rewrite Hstep. unfold alloc, set_instance. fold q. fold h1.
  assert (Hh1 : h1 !! self = Some (OInstance
            {| type_of := type_of i; _parameters := ParametersDict q;
               _parameters_sanitized := Some true;
               provenance := provenance i |})).
  { unfold h1. by rewrite lookup_insert_eq. }
  rewrite Hh1. simpl. unfold dict_items.
  assert (Hh1q : h1 !! q = Some (ODict (sanitize p self))).
  { unfold h1. rewrite lookup_insert_ne by done. by rewrite lookup_insert_eq. }
  by rewrite Hh1q.
Qed.

(** What a read of [parameters] does, whatever the state of the instance:
    it returns a fresh dict with the mapping the instance stands for, leaves
    the instance marked sanitized with that mapping stored in a dict of its
    own, and touches no other object. *)
Lemma parameters_post h self items :
  parameters_of h self = Some items →
  ∃ r h' i' q,
    parameters self h = (Ok r, h')
    ∧ h !! r = None
    ∧ h' !! r = Some (ODict items)
    ∧ h' !! self = Some (OInstance i')
    ∧ _parameters_sanitized i' = Some true
    ∧ _parameters i' = ParametersDict q
    ∧ q ≠ r
    ∧ h' !! q = Some (ODict items)
    ∧ class_of h' self = class_of h self
    ∧ provenance_of h' self = provenance_of h self
    ∧ (∀ a o, a ≠ self → h !! a = Some o → h' !! a = Some o)
    ∧ (∀ a, h !! a = None → a ≠ r → h' !! a = None ∨ a = q).
Proof.
  unfold parameters_of, class_of, provenance_of. intros Hof.
  destruct (h !! self) as [[|i]|] eqn:Hself; [done| |done].
  destruct (decide (_parameters_sanitized i = Some true)) as [Hflag|Hflag].
  - destruct (_parameters i) as [| |q] eqn:Hattr; [done..|].
    unfold stored_items in Hof. rewrite Hattr in Hof.
    destruct (h !! q) as [[m|]|] eqn:Hq; [|done..]. injection Hof as ->.
    pose proof (fresh_not_allocated h) as Hfresh.
    set (r := fresh (dom h)) in *.
    assert (r ≠ self) by congruence. assert (q ≠ r) by congruence.
    exists r, (<[r := ODict items]> h), i, q.
    rewrite (parameters_run_sanitized h self i q items) by done.
    rewrite lookup_insert_eq, !lookup_insert_ne by done. rewrite Hself.
    repeat split; try done.
    + intros a o Ha Hao. rewrite lookup_insert_ne; [done|congruence].
    + intros a Ha Har. left. by rewrite lookup_insert_ne.
  - destruct (stored_items h i) as [p|] eqn:Hstored; [|done].
    injection Hof as <-.
    pose proof (parameters_run_unsanitized h self i p Hself Hflag Hstored) as Hrun.
    cbv zeta in Hrun.
    pose proof (fresh_not_allocated h) as Hfresh.
    set (q := fresh (dom h)) in *.
    set (i' := {| type_of := type_of i; _parameters := ParametersDict q;
                  _parameters_sanitized := Some true;
                  provenance := provenance i |}) in *.
    set (h1 := <[self := OInstance i']> (<[q := ODict (sanitize p self)]> h)) in *.
    pose proof (fresh_not_allocated h1) as Hfresh1.
    set (r := fresh (dom h1)) in *.
    assert (Hqs : q ≠ self) by congruence.
    assert (Hh1s : h1 !! self = Some (OInstance i'))
      by (unfold h1; by rewrite lookup_insert_eq).
    assert (Hh1q : h1 !! q = Some (ODict (sanitize p self))).
    { unfold h1. rewrite lookup_insert_ne by done. by rewrite lookup_insert_eq. }
    assert (Hrs : r ≠ self) by congruence.
    assert (Hqr : q ≠ r) by congruence.
    exists r, (<[r := ODict (sanitize p self)]> h1), i', q.
    rewrite Hrun, lookup_insert_eq, !lookup_insert_ne by done.
    rewrite Hh1s, Hh1q. simpl.
    assert (Hhr : h !! r = None).
    { destruct (h !! r) as [o|] eqn:Hr; [|done].
      assert (Hh1r : h1 !! r = Some o); [|congruence].
      unfold h1. rewrite !lookup_insert_ne by done. done. }
    repeat split; try done.
    + intros a o Ha Hao.
      assert (a ≠ r) by congruence. assert (a ≠ q) by congruence.
      unfold h1. by rewrite !lookup_insert_ne.
    + intros a Ha Har. destruct (decide (a = q)) as [->|Haq]; [by right|left].
      assert (a ≠ self) by congruence.
      unfold h1. by rewrite !lookup_insert_ne.
Qed.

(** After a read, a caller may overwrite the dict it was given: the next
    read still returns the same mapping, in one more fresh dict, and changes
    nothing else. *)
Lemma parameters_reread h self items r h' items' :
  parameters_of h self = Some items →
  parameters self h = (Ok r, h') →
  let h'' := <[r := ODict items']> h' in
  parameters self h''
  = (Ok (fresh (dom h'')), <[fresh (dom h'') := ODict items]> h'').
Proof.
  intros Hof Hrun h''.
  destruct (parameters_post h self items Hof)
    as (r0 & h0 & i' & q & Hrun0 & Hr & _ & Hself & Hflag & Hattr & Hqr & Hq & _).
  rewrite Hrun in Hrun0. injection Hrun0 as <- <-.
  assert (r ≠ self).
  { intros ->. unfold parameters_of in Hof. by rewrite Hr in Hof. }
  apply (parameters_run_sanitized h'' self i' q items); [|done..|].
  - unfold h''. by rewrite lookup_insert_ne.
  - unfold h''. by rewrite lookup_insert_ne.
Qed.

(** The sanitized form of what [dict(locals())] leaves once the metaclass
    has removed the instance from it. *)
Lemma sanitize_locals cls callargs self :
  callargs !! "self" = None →
  sanitize
    (_remove_dict_keys_with_value
       (<["self" := PRef self]>
          (<["__class__" := PStr (cls_name cls)]> callargs)) (PRef self)) self
  = sanitize callargs self.
Proof.
  intros Hself. apply map_eq. intros k. unfold sanitize, _remove_dict_keys_with_value.
  apply option_eq. intros v.
  rewrite !map_lookup_filter_Some. simpl.
  destruct (decide (k = "self")) as [->|Hk1].
  { rewrite lookup_insert_eq, Hself. split.
    - intros [[[= <-] Hv] _]. simpl in Hv. by rewrite Nat.eqb_refl in Hv.
    - by intros [? _]. }
  rewrite lookup_insert_ne by done.
  destruct (decide (k = "__class__")) as [->|Hk2].
  { rewrite lookup_insert_eq. split.
    - by intros [_ [? _]].
    - by intros [_ [? _]]. }
  rewrite lookup_insert_ne by done. tauto.
Qed.

Lemma is_same_empty_tuple (v : pyval T) :
  is_same (PTuple []) v = false ↔ v ≠ PTuple [].
Proof.
  destruct v as [| | | | | | |xs| |]; simpl; try (split; [by intros _|done]).
  destruct xs; simpl; split; done.
Qed.

(** What the wrapper keeps: every call argument when [__init__] hands on
    [dict(locals())], and those that are not [()] when it does not. *)
Lemma kept_arguments_lookup cls callargs k v :
  kept_arguments cls callargs !! k = Some v
  ↔ callargs !! k = Some v
    ∧ (init_passes_locals cls = false → v ≠ PTuple []).
Proof.
  unfold kept_arguments, _remove_dict_keys_with_value.
  destruct (init_passes_locals cls).
  - split; [by intros ?|by intros [? _]].
  - rewrite map_lookup_filter_Some. cbn [snd]. rewrite is_same_empty_tuple.
    split; intros [? Hv]; (split; [done|]); [by intros _|by apply Hv].
Qed.

Lemma bind_arguments_lookup sig kwargs callargs k v :
  bind_arguments sig kwargs = Ok callargs →
  callargs !! k = Some v →
  k ∈ sig.*1 ∧ (kwargs !! k = Some v ∨ (k, Some v) ∈ sig).
Proof.
  revert kwargs callargs. induction sig as [|[k' dflt] sig IH];
    intros kwargs callargs; simpl.
  - case_decide; [|done]. intros [= <-]. by rewrite lookup_empty.
  - destruct (match kwargs !! k' with
              | Some v0 => Ok v0
              | None => match dflt with
                        | Some v0 => Ok v0
                        | None => Raise (TypeError "__init__() missing a required argument")
                        end
              end) as [v'|] eqn:Hv'; simpl; [|done].
    destruct (bind_arguments sig (delete k' kwargs)) as [rest|] eqn:Hrest;
      simpl; [|done].
    intros [= <-]. destruct (decide (k' = k)) as [->|Hne].
    + rewrite lookup_insert_eq. intros [= <-]. split; [left|].
      destruct (kwargs !! k) as [v0|] eqn:Hk.
      * left. congruence.
      * right. destruct dflt as [v0|]; [|done]. injection Hv' as ->. left.
    + rewrite lookup_insert_ne by done. intros Hk.
      destruct (IH _ _ Hrest Hk) as [Hin Hfrom]. split; [by right|].
      destruct Hfrom as [Hkw|Hd]; [left|right; by right].
      by rewrite lookup_delete_ne in Hkw.
Qed.

Lemma bind_arguments_idem sig kwargs callargs :
  NoDup sig.*1 →
  bind_arguments sig kwargs = Ok callargs →
  bind_arguments sig callargs = Ok callargs.
Proof.
  revert kwargs callargs. induction sig as [|[k dflt] sig IH];
    intros kwargs callargs Hnd; simpl.
  - case_decide; [|done]. intros [= <-]. by rewrite decide_True.
  - apply NoDup_cons in Hnd as [Hk Hnd].
    destruct (match kwargs !! k with
              | Some v0 => Ok v0
              | None => match dflt with
                        | Some v0 => Ok v0
                        | None => Raise (TypeError "__init__() missing a required argument")
                        end
              end) as [v|] eqn:Hv; simpl; [|done].
    destruct (bind_arguments sig (delete k kwargs)) as [rest|] eqn:Hrest;
      simpl; [|done].
    intros [= <-]. rewrite lookup_insert_eq. simpl.
    assert (Hrk : rest !! k = None).
    { destruct (rest !! k) as [v0|] eqn:Hr; [|done].
      by destruct (bind_arguments_lookup _ _ _ _ _ Hrest Hr) as [? _]. }
    rewrite delete_insert_eq, (delete_id rest k Hrk).
    by rewrite (IH _ _ Hnd Hrest).
Qed.

Lemma construct_ok_inv cls kwargs h d h' :
  construct cls kwargs h = (Ok d, h') →
  ∃ callargs,
    bind_arguments (init_args cls) kwargs = Ok callargs
    ∧ init_body cls callargs = Ok tt.
Proof.
  unfold construct, mbind, St_bind, lift, alloc, mret, St_ret.
  destruct (bind_arguments (init_args cls) kwargs) as [callargs|] eqn:Hbind;
    [|done].
  intros Hrun. exists callargs. split; [done|].
  destruct (init_passes_locals cls);
    by destruct (init_body cls callargs) as [[]|].
Qed.

(** What a successful construction does: a fresh instance of the type, not
    marked sanitized, whose stored parameters sanitize to the call arguments;
    no object that was there before changes. *)
Lemma construct_post cls kwargs h callargs :
  bind_arguments (init_args cls) kwargs = Ok callargs →
  init_body cls callargs = Ok tt →
  ∃ d h' i stored,
    construct cls kwargs h = (Ok d, h')
    ∧ h !! d = None
    ∧ h' !! d = Some (OInstance i)
    ∧ type_of i = cls
    ∧ _parameters_sanitized i = Some false
    ∧ provenance i = None
    ∧ stored_items h' i = Some stored
    ∧ (callargs !! "self" = None →
       sanitize stored d = sanitize (kept_arguments cls callargs) d)
    ∧ (∀ a o, h !! a = Some o → h' !! a = Some o).
Proof.
  intros Hbind Hbody.
  unfold construct, kept_arguments, mbind, St_bind, lift, alloc, set_instance,
    mret, St_ret.
  rewrite Hbind.
  pose proof (fresh_not_allocated h) as Hd. set (d := fresh (dom h)) in *.
  set (i0 := {| type_of := cls; _parameters := ParametersNone;
                _parameters_sanitized := None; provenance := None |}).
  set (h1 := <[d := OInstance i0]> h).
  destruct (init_passes_locals cls).
  - pose proof (fresh_not_allocated h1) as Hp. set (p := fresh (dom h1)) in *.
    set (L := <["self" := PRef d]> (<["__class__" := PStr (cls_name cls)]> callargs)).
    set (h2 := <[p := ODict L]> h1).
    rewrite Hbody.
    set (i1 := {| type_of := cls; _parameters := ParametersDict p;
                  _parameters_sanitized := Some false; provenance := None |}).
    set (h3 := <[d := OInstance i1]> h2).
    assert (Hpd : p ≠ d).
    { intros Heq. unfold h1 in Hp. rewrite Heq, lookup_insert_eq in Hp. done. }
    assert (Hh3p : h3 !! p = Some (ODict L)).
    { unfold h3, h2. rewrite lookup_insert_ne by done. by rewrite lookup_insert_eq. }
    unfold dict_items. rewrite Hh3p.
    pose proof (fresh_not_allocated h3) as Hq. set (q := fresh (dom h3)) in *.
    set (h4 := <[q := ODict (_remove_dict_keys_with_value L (PRef d))]> h3).
    set (i2 := {| type_of := cls; _parameters := ParametersDict q;
                  _parameters_sanitized := Some false; provenance := None |}).
    assert (Hqd : q ≠ d).
    { intros Heq. unfold h3 in Hq. rewrite Heq, lookup_insert_eq in Hq. done. }
    exists d, (<[d := OInstance i2]> h4), i2,
      (_remove_dict_keys_with_value L (PRef d)).
    rewrite lookup_insert_eq. repeat split; try done.
    + unfold stored_items. simpl. rewrite lookup_insert_ne by done.
      unfold h4. by rewrite lookup_insert_eq.
    + intros Hself. by apply sanitize_locals.
    + intros a o Hao.
      assert (a ≠ d) by congruence.
      assert (Hh1a : h1 !! a = Some o) by (unfold h1; by rewrite lookup_insert_ne).
      assert (a ≠ p) by congruence.
      assert (Hh3a : h3 !! a = Some o).
      { unfold h3, h2. by rewrite !lookup_insert_ne. }
      assert (a ≠ q) by congruence.
      unfold h4. by rewrite !lookup_insert_ne.
  - rewrite Hbody.
    set (kept := _remove_dict_keys_with_value callargs (PTuple [])).
    set (i2 := {| type_of := cls; _parameters := ParametersLambda kept;
                  _parameters_sanitized := Some false; provenance := None |}).
    exists d, (<[d := OInstance i2]>
                 (<[d := OInstance {| type_of := cls; _parameters := ParametersNone;
                                      _parameters_sanitized := Some false;
                                      provenance := None |}]> h1)), i2, kept.
    rewrite lookup_insert_eq. repeat split; try done.
    intros a o Hao. assert (a ≠ d) by congruence.
    unfold h1. by rewrite !lookup_insert_ne.
Qed.

Lemma parameters_of_preserved h h' self d items :
  parameters_of h self = Some items →
  h !! d = None →
  (∀ a o, a ≠ d → h !! a = Some o → h' !! a = Some o) →
  parameters_of h' self = Some items.
Proof.
  unfold parameters_of. intros Hof Hd Hframe.
  destruct (h !! self) as [[|i]|] eqn:Hself; [done| |done].
  assert (self ≠ d) by congruence.
  rewrite (Hframe self _ ltac:(done) Hself).
  assert (Hstored : ∀ s, stored_items h i = Some s → stored_items h' i = Some s).
  { unfold stored_items. intros s. destruct (_parameters i) as [| |q]; [done..|].
    destruct (h !! q) as [[m|]|] eqn:Hq; [|done..].
    assert (q ≠ d) by congruence.
    by rewrite (Hframe q _ ltac:(done) Hq). }
  case_decide.
  - destruct (_parameters i); [done..|]. by apply Hstored.
  - destruct (stored_items h i) as [s|] eqn:Hs; [|done].
    by rewrite (Hstored s eq_refl).
Qed.

(** Reading the parameters of an instance gives the mapping it stands for. *)
Lemma read_parameters_of h a items :
  parameters_of h a = Some items → (read_parameters a h).1 = Ok items.
Proof.
  intros Hof.
  destruct (parameters_post h a items Hof) as (r & h' & _ & _ & Hrun & _ & Hr & _).
  unfold read_parameters, mbind, St_bind. rewrite Hrun.
  unfold dict_items. by rewrite Hr.
Qed.

(** [copy] on a type without [_parameter_properties]: the constructor runs on
    [dict(self.parameters, **overrides)], and that dict becomes the
    parameters of the new instance. *)
Lemma copy_by_constructor h self cls items overrides callargs :
  parameters_of h self = Some items →
  class_of h self = Some cls →
  params_event_ndims cls = None →
  bind_arguments (init_args cls) (overrides ∪ items) = Ok callargs →
  init_body cls callargs = Ok tt →
  ∃ d h',
    copy self overrides h = (Ok d, h')
    ∧ h !! d = None
    ∧ class_of h' d = Some cls
    ∧ provenance_of h' d = None
    ∧ parameters_of h' d = Some (overrides ∪ items)
    ∧ parameters_of h' self = Some items.
Proof.
  intros Hof Hcls Hnd Hbind Hbody.
  unfold class_of in Hcls.
  destruct (h !! self) as [[|i]|] eqn:Hself; [done| |done].
  injection Hcls as Hcls.
  destruct (parameters_post h self items Hof)
    as (r & h1 & i' & q & Hrun & Hr & Hh1r & Hh1s & Hflag & Hattr & Hqr & Hh1q
        & _ & _ & Hframe1 & _).
  pose proof (fresh_not_allocated h1) as Hpa. set (pa := fresh (dom h1)) in *.
  set (h2 := <[pa := ODict (overrides ∪ items)]> h1).
  destruct (construct_post cls (overrides ∪ items) h2 callargs Hbind Hbody)
    as (d & h3 & di & stored & Hcons & Hh2d & Hh3d & Hty & _ & Hprov & _ & _ & Hframe3).
  assert (Hh2pa : h2 !! pa = Some (ODict (overrides ∪ items)))
    by (unfold h2; by rewrite lookup_insert_eq).
  assert (Hpad : pa ≠ d) by congruence.
  assert (Hh1d : h1 !! d = None).
  { unfold h2 in Hh2d. by rewrite lookup_insert_ne in Hh2d. }
  set (dnew := {| type_of := type_of di; _parameters := ParametersDict pa;
                  _parameters_sanitized := Some true;
                  provenance := provenance di |}).
  exists d, (<[d := OInstance dnew]> h3).
  assert (Hcopy : copy self overrides h = (Ok d, <[d := OInstance dnew]> h3)).
  { unfold copy, try_except_NotImplementedError, mbind, St_bind, get_instance.
    rewrite Hself. unfold _params_event_ndims. rewrite Hcls, Hnd. simpl.
    rewrite Hself, Hrun. unfold dict_items. rewrite Hh1r.
    unfold alloc. fold pa. fold h2. rewrite Hh2pa, Hcls, Hcons, Hh3d.
    done. }
  split; [done|].
  assert (Hhd : h !! d = None).
  { destruct (h !! d) as [o|] eqn:Hd; [|done].
    destruct (decide (d = self)) as [->|Hne]; [congruence|].
    rewrite (Hframe1 d o Hne Hd) in Hh1d. done. }
  split; [done|].
  unfold class_of, provenance_of. rewrite lookup_insert_eq. simpl.
  split; [by rewrite Hty|]. split; [done|]. split.
  - unfold parameters_of. rewrite lookup_insert_eq. simpl.
    unfold stored_items. simpl. rewrite lookup_insert_ne by done.
    by rewrite (Hframe3 pa _ Hh2pa).
  - apply (parameters_of_preserved h1 _ self d items); [|done|].
    + unfold parameters_of. rewrite Hh1s. rewrite decide_True by done.
      rewrite Hattr. unfold stored_items. by rewrite Hattr, Hh1q.
    + intros a o Ha Hao. rewrite lookup_insert_ne by done.
      apply Hframe3. unfold h2.
      rewrite lookup_insert_ne; [done|congruence].
Qed.

(** [copy] on a type with [_parameter_properties]: the slicing path, as the
    specification has it, builds the new instance from
    [dict(self.parameters, **overrides)] and records which instance it derives
    from. *)
Lemma copy_by_batch_slice h self cls nd items overrides callargs :
  parameters_of h self = Some items →
  class_of h self = Some cls →
  params_event_ndims cls = Some nd →
  bind_arguments (init_args cls) (overrides ∪ items) = Ok callargs →
  init_body cls callargs = Ok tt →
  callargs !! "self" = None →
  ∃ d h',
    copy self overrides h = (Ok d, h')
    ∧ h !! d = None
    ∧ class_of h' d = Some cls
    ∧ provenance_of h' d = Some (default self (provenance_of h self))
    ∧ parameters_of h' d = Some (sanitize (kept_arguments cls callargs) d)
    ∧ parameters_of h' self = Some items.
Proof.
  intros Hof Hcls Hnd Hbind Hbody Hnoself.
  unfold class_of in Hcls. unfold provenance_of.
  destruct (h !! self) as [[|i]|] eqn:Hself; [done| |done].
  injection Hcls as Hcls.
  destruct (parameters_post h self items Hof)
    as (r & h1 & i' & q & Hrun & Hr & Hh1r & Hh1s & Hflag & Hattr & Hqr & Hh1q
        & _ & _ & Hframe1 & _).
  destruct (construct_post cls (overrides ∪ items) h1 callargs Hbind Hbody)
    as (d & h2 & di & stored & Hcons & Hh1d & Hh2d & Hty & Hdflag & _ & Hstored
        & Hsan & Hframe2).
  set (dnew := {| type_of := type_of di; _parameters := _parameters di;
                  _parameters_sanitized := _parameters_sanitized di;
                  provenance := Some (default self (provenance i)) |}).
  exists d, (<[d := OInstance dnew]> h2).
  assert (Hcopy : copy self overrides h = (Ok d, <[d := OInstance dnew]> h2)).
  { unfold copy, try_except_NotImplementedError, mbind, St_bind, get_instance.
    rewrite Hself. unfold _params_event_ndims. rewrite Hcls, Hnd. simpl.
    unfold batch_slice, mbind, St_bind, get_instance.
    rewrite Hself, Hrun. unfold dict_items. rewrite Hh1r, Hcls, Hcons, Hh2d.
    done. }
  split; [done|].
  assert (Hhd : h !! d = None).
  { destruct (h !! d) as [o|] eqn:Hd; [|done].
    destruct (decide (d = self)) as [->|Hne]; [congruence|].
    rewrite (Hframe1 d o Hne Hd) in Hh1d. done. }
  split; [done|].
  unfold class_of. rewrite lookup_insert_eq. simpl.
  split; [by rewrite Hty|]. split; [done|]. split.
  - unfold parameters_of. rewrite lookup_insert_eq. simpl.
    rewrite Hdflag. rewrite decide_False by done.
    assert (Hstored' :
      stored_items (<[d := OInstance dnew]> h2) dnew = Some stored).
    { unfold stored_items in *. simpl.
      destruct (_parameters di) as [| |p]; [done..|].
      destruct (h2 !! p) as [[m|]|] eqn:Hp; [|done..].
      assert (p ≠ d) by congruence.
      rewrite lookup_insert_ne by done. by rewrite Hp. }
    rewrite Hstored'. simpl. by rewrite (Hsan Hnoself).
  - apply (parameters_of_preserved h1 _ self d items); [|done|].
    + unfold parameters_of. rewrite Hh1s. rewrite decide_True by done.
      rewrite Hattr. unfold stored_items. by rewrite Hattr, Hh1q.
    + intros a o Ha Hao. rewrite lookup_insert_ne by done. by apply Hframe2.
Qed.

Lemma closed_no_self h d items :
  closed_items h items → h !! d = None → no_self_entry d items.
Proof.
  intros Hclosed Hd k v Hkv. specialize (Hclosed k v Hkv). simpl in Hclosed.
  destruct v as [| | | | |b| | | |]; try done. simpl.
  apply Nat.eqb_neq. intros <-.
  apply not_elem_of_dom_2 in Hd. done.
Qed.

(** The constructor raises what binding the keywords raises, and what the
    [__init__] of the type raises. *)
Lemma construct_raises cls kwargs h e :
  (bind_arguments (init_args cls) kwargs = Raise e →
   (construct cls kwargs h).1 = Raise e)
  ∧ (∀ callargs,
       bind_arguments (init_args cls) kwargs = Ok callargs →
       init_body cls callargs = Raise e →
       (construct cls kwargs h).1 = Raise e).
Proof.
  unfold construct, mbind, St_bind, lift, alloc, set_instance, mret, St_ret.
  split.
  - by intros ->.
  - intros callargs -> Hbody.
    destruct (init_passes_locals cls); by rewrite Hbody.
Qed.

(** [copy] on a type without [_parameter_properties] raises what the
    constructor raises on [dict(self.parameters, **overrides)]. *)
Lemma copy_by_constructor_raises h self cls items overrides e :
  parameters_of h self = Some items →
  class_of h self = Some cls →
  params_event_ndims cls = None →
  (∀ h2, (construct cls (overrides ∪ items) h2).1 = Raise e) →
  (copy self overrides h).1 = Raise e.
Proof.
  intros Hof Hcls Hnd Hraise.
  unfold class_of in Hcls.
  destruct (h !! self) as [[|i]|] eqn:Hself; [done| |done].
  injection Hcls as Hcls.
  destruct (parameters_post h self items Hof)
    as (r & h1 & i' & q & Hrun & Hr & Hh1r & _).
  set (pa := fresh (dom h1)).
  set (h2 := <[pa := ODict (overrides ∪ items)]> h1).
  assert (Hh2pa : h2 !! pa = Some (ODict (overrides ∪ items)))
    by (unfold h2; by rewrite lookup_insert_eq).
  specialize (Hraise h2).
  unfold copy, try_except_NotImplementedError, mbind, St_bind, get_instance.
  rewrite Hself. unfold _params_event_ndims. rewrite Hcls, Hnd. simpl.
  rewrite Hself, Hrun. unfold dict_items. rewrite Hh1r.
  unfold alloc. fold pa. fold h2. rewrite Hh2pa, Hcls.
  destruct (construct cls (overrides ∪ items) h2) as [[d|e'] h3];
    simpl in Hraise; [done|]. by injection Hraise as ->.
Qed.

(** Every instance that the constructor returns satisfies the invariant. *)
Lemma construct_instance_inv cls kwargs h d h' :
  construct cls kwargs h = (Ok d, h') → instance_inv h' d.
Proof.
  intros Hrun.
  destruct (construct_ok_inv _ _ _ _ _ Hrun) as (callargs & Hbind & Hbody).
  destruct (construct_post cls kwargs h callargs Hbind Hbody)
    as (d0 & h0 & i & stored & Hcons & _ & Hd & _ & Hflag & _ & Hstored & _).
  rewrite Hrun in Hcons. injection Hcons as <- <-.
  exists (sanitize stored d). split; [|apply sanitize_no_self].
  unfold parameters_of. rewrite Hd, Hflag. rewrite decide_False by done.
  by rewrite Hstored.
Qed.

(** The parameters of an instance of a well-formed type, built from
    keywords whose references are to objects of the heap: the call arguments
    that the wrapper keeps. *)
Lemma construct_parameters cls kwargs h d h' :
  class_wf cls →
  closed_items h kwargs →
  construct cls kwargs h = (Ok d, h') →
  ∃ callargs,
    bind_arguments (init_args cls) kwargs = Ok callargs
    ∧ init_body cls callargs = Ok tt
    ∧ h !! d = None
    ∧ class_of h' d = Some cls
    ∧ parameters_of h' d = Some (kept_arguments cls callargs)
    ∧ ordinary_keys callargs
    ∧ closed_items h' callargs.
Proof.
  intros (Hnodup & Hnames & Hdefaults) Hclosed Hrun.
  destruct (construct_ok_inv _ _ _ _ _ Hrun) as (callargs & Hbind & Hbody).
  destruct (construct_post cls kwargs h callargs Hbind Hbody)
    as (d0 & h0 & i & stored & Hcons & Hhd & Hd & Hty & Hflag & _ & Hstored
        & Hsan & Hframe).
  rewrite Hrun in Hcons. injection Hcons as <- <-.
  assert (Hkeys : ordinary_keys callargs).
  { intros k v Hkv.
    destruct (bind_arguments_lookup _ _ _ _ _ Hbind Hkv) as [Hin _].
    by apply (proj1 (Forall_forall _ _) Hnames). }
  assert (Hnoself : callargs !! "self" = None).
  { destruct (callargs !! "self") as [v|] eqn:Hv; [|done].
    by destruct (Hkeys _ _ Hv) as [_ ?]. }
  assert (Hclosed_h : closed_items h callargs).
  { intros k v Hkv.
    destruct (bind_arguments_lookup _ _ _ _ _ Hbind Hkv) as [_ [Hkw|Hdflt]].
    - by apply (Hclosed k v).
    - pose proof (proj1 (Forall_forall _ _) Hdefaults _ Hdflt) as Hv.
      simpl in Hv. by destruct v. }
  exists callargs. split; [done|]. split; [done|]. split; [done|].
  split; [|split; [|split; [done|]]].
  - unfold class_of. by rewrite Hd, Hty.
  - unfold parameters_of. rewrite Hd, Hflag. rewrite decide_False by done.
    rewrite Hstored. simpl. rewrite (Hsan Hnoself).
    f_equal. apply sanitize_id.
    + intros k v Hkv. apply kept_arguments_lookup in Hkv as [Hkv _].
      by apply (Hkeys k v).
    + intros k v Hkv. apply kept_arguments_lookup in Hkv as [Hkv _].
      by apply (closed_no_self h d callargs Hclosed_h Hhd k v).
  - intros k v Hkv. specialize (Hclosed_h k v Hkv). simpl in *.
    destruct v as [| | | | |b| | | |]; try done.
    apply elem_of_dom in Hclosed_h as [o Ho].
    apply elem_of_dom. exists o. by apply Hframe.
Qed.

(** Such an instance, when the wrapper kept every call argument, can be
    copied without overrides by the constructor, and the copy has its
    parameters. *)
Lemma construct_then_copy cls kwargs h self h1 callargs :
  class_wf cls →
  closed_items h kwargs →
  params_event_ndims cls = None →
  construct cls kwargs h = (Ok self, h1) →
  bind_arguments (init_args cls) kwargs = Ok callargs →
  kept_arguments cls callargs = callargs →
  ∃ d h2,
    copy self ∅ h1 = (Ok d, h2)
    ∧ h1 !! d = None
    ∧ (read_parameters self h1).1 = Ok callargs
    ∧ (read_parameters d h2).1 = Ok callargs
    ∧ (read_parameters self h2).1 = Ok callargs.
Proof.
  intros Hwf Hclosed Hnd Hrun Hbind Hkept.
  destruct (construct_parameters cls kwargs h self h1 Hwf Hclosed Hrun)
    as (callargs' & Hbind' & Hbody & _ & Hcls & Hof & _).
  rewrite Hbind in Hbind'. injection Hbind' as <-. rewrite Hkept in Hof.
  assert (Hunion : (∅ : gmap string (pyval T)) ∪ callargs = callargs)
    by apply (left_id_L ∅ (∪)).
  assert (Hidem : bind_arguments (init_args cls) (∅ ∪ callargs) = Ok callargs).
  { rewrite Hunion. eapply bind_arguments_idem; [apply Hwf|done]. }
  destruct (copy_by_constructor h1 self cls callargs ∅ callargs Hof Hcls Hnd
              Hidem Hbody)
    as (d & h2 & Hcopy & Hd & _ & _ & Hofd & Hofs).
  rewrite Hunion in Hofd.
  exists d, h2. split; [done|]. split; [done|].
  split; [by apply read_parameters_of|].
  split; by apply read_parameters_of.
Qed.

(** The result of [copy] satisfies the invariant as well, when the overrides
    and the parameters refer to objects of the heap only. *)
Lemma copy_instance_inv h self cls items overrides callargs :
  parameters_of h self = Some items →
  class_of h self = Some cls →
  bind_arguments (init_args cls) (overrides ∪ items) = Ok callargs →
  init_body cls callargs = Ok tt →
  callargs !! "self" = None →
  closed_items h items →
  closed_items h overrides →
  ∃ d h', copy self overrides h = (Ok d, h') ∧ instance_inv h' d.
Proof.
  intros Hof Hcls Hbind Hbody Hnoself Hci Hco.
  destruct (params_event_ndims cls) as [nd|] eqn:Hnd.
  - destruct (copy_by_batch_slice h self cls nd items overrides callargs)
      as (d & h' & Hcopy & _ & _ & _ & Hofd & _); [done..|].
    exists d, h'. split; [done|]. eexists. split; [done|apply sanitize_no_self].
  - destruct (copy_by_constructor h self cls items overrides callargs)
      as (d & h' & Hcopy & Hd & _ & _ & Hofd & _); [done..|].
    exists d, h'. split; [done|]. eexists. split; [done|].
    apply (closed_no_self h); [|done].
    intros k v Hkv. apply lookup_union_Some_raw in Hkv as [Hkv|[_ Hkv]].
    + by apply (Hco k v).
    + by apply (Hci k v).
Qed.

End facts.

(** C9: for an instance that satisfies the invariant, a read of [parameters]
    returns a fresh dict; no entry of it has the instance as its value; the
    instance is left marked sanitized, with the mapping stored in a dict other
    than the one returned; and whatever a caller then writes into the dict it
    was given, the next read allocates one more dict with the same mapping and
    changes nothing else, so that nothing is sanitized twice.  Every instance
    that the constructor returns satisfies the invariant, and so does every
    copy. *)
Theorem parameters_are_stable :
  (∀ (T : Type) (h : heap T) (self : addr),
     instance_inv h self →
     ∃ r1 h1 items,
       parameters self h = (Ok r1, h1)
       ∧ parameters_of h self = Some items
       ∧ h !! r1 = None
       ∧ h1 !! r1 = Some (ODict items)
       ∧ no_self_entry self items
       ∧ (∃ i1 q,
            h1 !! self = Some (OInstance i1)
            ∧ _parameters_sanitized i1 = Some true
            ∧ _parameters i1 = ParametersDict q
            ∧ q ≠ r1
            ∧ h1 !! q = Some (ODict items))
       ∧ ∀ items',
           let h1' := <[r1 := ODict items']> h1 in
           ∃ r2,
             parameters self h1' = (Ok r2, <[r2 := ODict items]> h1')
             ∧ h1' !! r2 = None)
  ∧ (∀ (T : Type) (cls : dist_class T) kwargs (h : heap T) d h',
       construct cls kwargs h = (Ok d, h') → instance_inv h' d)
  ∧ (∀ (T : Type) (h : heap T) self (cls : dist_class T) items overrides callargs,
       parameters_of h self = Some items →
       class_of h self = Some cls →
       bind_arguments (init_args cls) (overrides ∪ items) = Ok callargs →
       init_body cls callargs = Ok tt →
       callargs !! "self" = None →
       closed_items h items →
       closed_items h overrides →
       ∃ d h', copy self overrides h = (Ok d, h') ∧ instance_inv h' d)
  ∧ ((self ← construct Normal normal_kwargs;
      p1 ← parameters self;
      _ ← dict_setitem p1 "loc" (PRef self);
      _ ← dict_setitem p1 "extra" PNone;
      read_parameters self) ∅).1
    = Ok {["loc" := float 0; "scale" := float 1;
           "validate_args" := PInt 0; "name" := PStr "Normal"]}.
Proof.
  split; [|split; [|split]].
  - intros T h self (items & Hof & Hnoself).
    destruct (parameters_post h self items Hof)
      as (r & h1 & i1 & q & Hrun & Hr & Hh1r & Hh1s & Hflag & Hattr & Hqr & Hh1q & _).
    exists r, h1, items. repeat split; try done.
    + by exists i1, q.
    + intros items' h1'.
      exists (fresh (dom h1')). split; [|apply fresh_not_allocated].
      by apply (parameters_reread h self items r h1 items').
  - intros T cls kwargs h d h'. apply construct_instance_inv.
  - intros T h self cls items overrides callargs. apply copy_instance_inv.
  - by vm_compute.
Qed.

Lemma parameters_are_stable_witness :
  let built := construct Normal normal_kwargs ∅ in
  let self := 0 in
  let h := built.2 in
  instance_inv h self
  ∧ ∃ r1 h1 items,
      parameters self h = (Ok r1, h1)
      ∧ parameters_of h self = Some items
      ∧ h !! r1 = None
      ∧ h1 !! r1 = Some (ODict items)
      ∧ no_self_entry self items
      ∧ (∃ i1 q,
           h1 !! self = Some (OInstance i1)
           ∧ _parameters_sanitized i1 = Some true
           ∧ _parameters i1 = ParametersDict q
           ∧ q ≠ r1
           ∧ h1 !! q = Some (ODict items))
      ∧ ∀ items',
          let h1' := <[r1 := ODict items']> h1 in
          ∃ r2,
            parameters self h1' = (Ok r2, <[r2 := ODict items]> h1')
            ∧ h1' !! r2 = None.
Proof.
  intros built self h.
  assert (Hbuilt : construct Normal normal_kwargs ∅ = (Ok self, h))
    by (vm_compute; reflexivity).
  assert (Hinv : instance_inv h self).
  { exact (proj1 (proj2 parameters_are_stable) Z Normal normal_kwargs ∅ self h
             Hbuilt). }
  split; [exact Hinv|].
  exact (proj1 parameters_are_stable Z h self Hinv).
Defined.

(** C8, at the input where the code does not do what it says: a type whose
    [__init__] does not hand [parameters] on, built with the empty tuple for
    its required [sample_shape].  The wrapper of the metaclass compares the
    call arguments by identity with its stand-in for the instance,
    [dummy_self = tuple()], which is the one empty tuple of CPython: the
    argument is dropped along with [self], [parameters] has no entry for it,
    and [copy()] calls the constructor without it, which raises [TypeError].
    The same call with another shape, and the same type with
    [parameters = dict(locals())] in its [__init__], keep the argument and
    copy to an instance with the same parameters. *)
Lemma copy_after_empty_tuple_argument :
  let built (cls : dist_class Z) (shape : pyval Z) : St Z addr :=
    construct cls {["sample_shape" := shape]} in
  ((self ← built Plain (PTuple []); read_parameters self) ∅).1
  = Ok {["name" := PStr "Plain"]}
  ∧ ((self ← built Plain (PTuple []); copy self ∅) ∅).1
    = Raise (TypeError "__init__() missing a required argument")
  ∧ ((self ← built Plain (PTuple [PInt 2]); read_parameters self) ∅).1
    = Ok {["sample_shape" := PTuple [PInt 2]; "name" := PStr "Plain"]}
  ∧ ((self ← built Plain (PTuple [PInt 2]); d ← copy self ∅;
      read_parameters d) ∅).1
    = Ok {["sample_shape" := PTuple [PInt 2]; "name" := PStr "Plain"]}
  ∧ ((self ← built PlainLocals (PTuple []); read_parameters self) ∅).1
    = Ok {["sample_shape" := PTuple []; "name" := PStr "PlainLocals"]}
  ∧ ((self ← built PlainLocals (PTuple []); d ← copy self ∅;
      read_parameters d) ∅).1
    = Ok {["sample_shape" := PTuple []; "name" := PStr "PlainLocals"]}.
Proof. repeat split; by vm_compute. Qed.

(** X22: [copy] through the constructor, on a type without
    [_parameter_properties].  When the constructor accepts
    [dict(self.parameters, **overrides)], [copy] returns a new instance of
    the type, without provenance, whose parameters are that dict, and the
    parameters of the original are as before; when binding those keywords to
    the signature raises, or the [__init__] of the type raises, [copy] raises
    the same.  An instance that the constructor of a well-formed type
    returned, of which the wrapper kept every call argument, is copied
    without overrides to an instance with the same parameters. *)
Theorem copy_rebuilds_from_parameters :
  (∀ (T : Type) (h : heap T) self (cls : dist_class T) items overrides callargs,
     parameters_of h self = Some items →
     class_of h self = Some cls →
     params_event_ndims cls = None →
     bind_arguments (init_args cls) (overrides ∪ items) = Ok callargs →
     init_body cls callargs = Ok tt →
     ∃ d h',
       copy self overrides h = (Ok d, h')
       ∧ h !! d = None
       ∧ class_of h' d = Some cls
       ∧ provenance_of h' d = None
       ∧ (read_parameters d h').1 = Ok (overrides ∪ items)
       ∧ (read_parameters self h').1 = Ok items)
  ∧ (∀ (T : Type) (h : heap T) self (cls : dist_class T) items overrides e,
       parameters_of h self = Some items →
       class_of h self = Some cls →
       params_event_ndims cls = None →
       bind_arguments (init_args cls) (overrides ∪ items) = Raise e
       ∨ (∃ callargs,
            bind_arguments (init_args cls) (overrides ∪ items) = Ok callargs
            ∧ init_body cls callargs = Raise e) →
       (copy self overrides h).1 = Raise e)
  ∧ (∀ (T : Type) (cls : dist_class T) kwargs (h : heap T) self h1 callargs,
       class_wf cls →
       closed_items h kwargs →
       params_event_ndims cls = None →
       construct cls kwargs h = (Ok self, h1) →
       bind_arguments (init_args cls) kwargs = Ok callargs →
       kept_arguments cls callargs = callargs →
       ∃ d h2,
         copy self ∅ h1 = (Ok d, h2)
         ∧ h1 !! d = None
         ∧ (read_parameters self h1).1 = Ok callargs
         ∧ (read_parameters d h2).1 = Ok callargs
         ∧ (read_parameters self h2).1 = Ok callargs)
  ∧ (((self ← construct Normal normal_kwargs;
       d ← copy self ∅;
       read_parameters d) ∅).1
     = ((self ← construct Normal normal_kwargs; read_parameters self) ∅).1
     ∧ ((self ← construct Normal normal_kwargs;
         d ← copy self {["scale" := float 5]};
         read_parameters d) ∅).1
       = Ok {["loc" := float 0; "scale" := float 5;
              "validate_args" := PInt 0; "name" := PStr "Normal"]}
     ∧ ((self ← construct Normal normal_kwargs;
         copy self {["rate" := float 5]}) ∅).1
       = Raise (TypeError "__init__() got an unexpected keyword argument")).
Proof.
  split; [|split; [|split]].
  - intros T h self cls items overrides callargs Hof Hcls Hnd Hbind Hbody.
    destruct (copy_by_constructor h self cls items overrides callargs)
      as (d & h' & Hcopy & Hd & Hc & Hp & Hofd & Hofs); [done..|].
    exists d, h'. repeat split; [done..| |]; by apply read_parameters_of.
  - intros T h self cls items overrides e Hof Hcls Hnd Hraise.
    apply (copy_by_constructor_raises h self cls items overrides e);
      [done..|].
    intros h2. destruct Hraise as [Hbind|(callargs & Hbind & Hbody)].
    + by apply construct_raises.
    + by apply (proj2 (construct_raises cls (overrides ∪ items) h2 e) callargs).
  - intros T cls kwargs h self h1 callargs. apply construct_then_copy.
  - repeat split; by vm_compute.
Qed.

Lemma copy_rebuilds_from_parameters_witness :
  let self := 0 in
  let h := (construct Normal normal_kwargs ∅).2 in
  let items : gmap string (pyval Z) :=
    {["loc" := float 0; "scale" := float 1;
      "validate_args" := PInt 0; "name" := PStr "Normal"]} in
  let rate : gmap string (pyval Z) := {["rate" := float 5]} in
  let unexpected : error Z :=
    TypeError "__init__() got an unexpected keyword argument" in
  (class_wf Normal
   ∧ closed_items (∅ : heap Z) normal_kwargs
   ∧ params_event_ndims Normal = None
   ∧ construct Normal normal_kwargs ∅ = (Ok self, h)
   ∧ bind_arguments (init_args Normal) normal_kwargs = Ok items
   ∧ kept_arguments Normal items = items
   ∧ ∃ d h2,
       copy self ∅ h = (Ok d, h2)
       ∧ h !! d = None
       ∧ (read_parameters self h).1 = Ok items
       ∧ (read_parameters d h2).1 = Ok items
       ∧ (read_parameters self h2).1 = Ok items)
  ∧ (parameters_of h self = Some items
     ∧ class_of h self = Some Normal
     ∧ bind_arguments (init_args Normal) (rate ∪ items) = Raise unexpected
     ∧ (copy self rate h).1 = Raise unexpected).
Proof.
  intros self h items rate unexpected.
  assert (Hwf : class_wf Normal).
  { split; [|split].
    - apply (bool_decide_unpack (NoDup (init_args Normal).*1)). by vm_compute.
    - repeat constructor; by vm_compute.
    - repeat constructor. }
  assert (Hclosed : closed_items (∅ : heap Z) normal_kwargs).
  { apply map_Forall_to_list. vm_compute. repeat constructor. }
  assert (Hnd : params_event_ndims Normal = None) by reflexivity.
  assert (Hbuilt : construct Normal normal_kwargs ∅ = (Ok self, h))
    by (vm_compute; reflexivity).
  assert (Hbind : bind_arguments (init_args Normal) normal_kwargs = Ok items)
    by (vm_compute; reflexivity).
  assert (Hkept : kept_arguments Normal items = items) by reflexivity.
  assert (Hof : parameters_of h self = Some items)
    by (vm_compute; reflexivity).
  assert (Hcls : class_of h self = Some Normal) by reflexivity.
  assert (Hraise : bind_arguments (init_args Normal) (rate ∪ items)
                   = Raise unexpected) by (vm_compute; reflexivity).
  split.
  - split; [exact Hwf|]. split; [exact Hclosed|]. split; [exact Hnd|].
    split; [exact Hbuilt|]. split; [exact Hbind|]. split; [exact Hkept|].
    exact (proj1 (proj2 (proj2 copy_rebuilds_from_parameters)) Z Normal
             normal_kwargs ∅ self h items Hwf Hclosed Hnd Hbuilt Hbind Hkept).
  - split; [exact Hof|]. split; [exact Hcls|]. split; [exact Hraise|].
    exact (proj1 (proj2 copy_rebuilds_from_parameters) Z h self Normal items
             rate unexpected Hof Hcls Hnd (or_introl Hraise)).
Defined.

End ObjectFacts.

(** ** More on the resolution of arguments *)

Module ResolverMore.

Import Resolver Examples JointDistribution.

Section general.
Context {T : Type}.
Variable assert_same_structure : pyval T → pyval T → result T unit.
Implicit Types (args : list (pyval T)) (kwargs : gmap string (pyval T)).
Implicit Types (flat_names : list string) (dtype : pyval T).

Lemma unmatched_filter flat_names kwargs :
  unmatched_kwargs_of flat_names kwargs
  = filter (λ kv, kv.1 ∉ flat_names) kwargs.
Proof.
  unfold unmatched_kwargs_of. apply map_filter_ext. intros k v Hkv. simpl.
  rewrite ResolverFacts.elem_of_matched. split.
  - intros Hn Hin. apply Hn. split; [done|by eexists].
  - intros Hn [Hin _]. done.
Qed.

Lemma component_values_length i flat_names args kwargs vs :
  component_values i flat_names args kwargs = Ok vs →
  length vs = length flat_names.
Proof.
  revert i vs. induction flat_names as [|k names IH]; intros i vs; simpl.
  - by intros [= <-].
  - destruct (kwargs !! k) as [v|]; simpl.
    + destruct (component_values (S i) names args kwargs) as [ws|e] eqn:E;
        simpl; [|done].
      intros [= <-]. simpl. f_equal. by eapply IH.
    + unfold py_index. destruct (args !! i) as [a|]; simpl; [|done].
      destruct (component_values (S i) names args kwargs) as [ws|e] eqn:E;
        simpl; [|done].
      intros [= <-]. simpl. f_equal. by eapply IH.
Qed.

Lemma resolve_rest
    args kwargs dtype flat_names model_flatten_fn model_unflatten_fn v rest :
  _resolve_value_from_args assert_same_structure args kwargs dtype flat_names
    model_flatten_fn model_unflatten_fn = Ok (v, rest) →
  rest !! "value" = None
  ∧ rest ⊆ kwargs
  ∧ (no_value_keyword kwargs →
     rest = filter (λ kv, kv.1 ∉ flat_names) (delete "value" kwargs))
  ∧ (¬ no_value_keyword kwargs →
     kwargs !! "value" = Some v ∧ rest = delete "value" kwargs).
Proof.
  unfold _resolve_value_from_args.
  destruct (is_none (default PNone (kwargs !! "value"))) eqn:Hv; simpl.
  - assert (Hno : no_value_keyword kwargs).
    { unfold no_value_keyword. destruct (kwargs !! "value") as [[]|]; naive_solver. }
    rewrite <- unmatched_filter.
    set (u := unmatched_kwargs_of flat_names (delete "value" kwargs)).
    assert (Hsub : u ⊆ delete "value" kwargs) by apply map_filter_subseteq.
    assert (Hu : u !! "value" = None).
    { eapply lookup_weaken_None; [|exact Hsub]. apply lookup_delete_eq. }
    assert (Hk : u ⊆ kwargs).
    { etrans; [exact Hsub|]. apply delete_subseteq. }
    intros Hres.
    assert (rest = u) as ->; [|by repeat split].
    revert Hres. repeat case_decide; simpl; try done.
    + destruct (py_len dtype) as [n|]; simpl; [|done].
      case_decide; [by intros [= _ <-]|].
      destruct (py_index _ 0) as [d|]; simpl; [|done].
      destruct (assert_same_structure _ _) as [|e]; [by intros [= _ <-]|].
      destruct (is_ValueError_or_TypeError e); [by intros [= _ <-]|done].
    + destruct (component_values _ _ _ _); simpl; [by intros [= _ <-]|done].
  - intros [= <- <-].
    destruct (kwargs !! "value") as [w|] eqn:Hw; simpl in *; [|done].
    split; [apply lookup_delete_eq|]. split; [apply delete_subseteq|].
    split; [|done].
    intros [Hn|Hn]; rewrite Hw in Hn; [done|]. by injection Hn as ->.
Qed.

Lemma walk_length flat_names args kwargs vs :
  walk_next_unused flat_names args kwargs = Some vs →
  length vs = length flat_names.
Proof.
  revert args vs. induction flat_names as [|k names IH]; intros args vs; simpl.
  - by intros [= <-].
  - destruct (kwargs !! k) as [v|].
    + destruct (walk_next_unused names args kwargs) as [ws|] eqn:E; [|done].
      intros [= <-]. simpl. f_equal. by eapply IH.
    + destruct args as [|a args']; [done|].
      destruct (walk_next_unused names args' kwargs) as [ws|] eqn:E; [|done].
      intros [= <-]. simpl. f_equal. by eapply IH.
Qed.

Lemma matched_all flat_names kwargs :
  (∀ k, k ∈ flat_names → is_Some (kwargs !! k)) →
  matched_kwargs_of flat_names kwargs = list_to_set flat_names.
Proof.
  intros Hall. apply set_eq. intros k.
  rewrite ResolverFacts.elem_of_matched, elem_of_list_to_set. split; [by intros [? _]|]. intros Hk. split; auto.
Qed.

Lemma resolve_keywords_only
    kwargs dtype flat_names model_flatten_fn model_unflatten_fn :
  no_value_keyword kwargs →
  NoDup flat_names →
  "value" ∉ flat_names →
  (∀ k, k ∈ flat_names → is_Some (kwargs !! k)) →
  ∃ vs,
    Forall2 (λ k v, kwargs !! k = Some v) flat_names vs
    ∧ _resolve_value_from_args assert_same_structure [] kwargs dtype
        flat_names model_flatten_fn model_unflatten_fn
      = Ok (model_unflatten_fn vs,
            filter (λ kv, kv.1 ∉ flat_names) (delete "value" kwargs)).
Proof.
  intros Hno Hnd Hval Hall.
  assert (Hne : ∀ k, k ∈ flat_names → "value" ≠ k) by (intros k Hk <-; done).
  assert (Hall' : ∀ k, k ∈ flat_names → is_Some (delete "value" kwargs !! k)).
  { intros k Hk. rewrite lookup_delete_ne; auto. }
  destruct (ResolverFacts.resolve_walk assert_same_structure [] kwargs dtype
              flat_names model_flatten_fn model_unflatten_fn Hno)
    as (vs & Hwalk & Hres & Hvs).
  - intros [? _]; done.
  - pose proof (ResolverFacts.size_unmatched flat_names (delete "value" kwargs))
      as Hsz.
    rewrite (matched_all _ _ Hall'), (size_list_to_set _ Hnd) in Hsz.
    simpl. lia.
  - intros [? _]; done.
  - intros j k _ Hj. simpl in Hj. lia.
  - exists vs. split; [|by rewrite Hres, unmatched_filter].
    apply Forall2_same_length_lookup. split.
    { symmetry. by eapply walk_length. }
    intros j k v Hk Hv. specialize (Hvs j k Hk).
    assert (Hin : k ∈ flat_names) by (by eapply list_elem_of_lookup_2).
    rewrite lookup_delete_ne in Hvs by auto.
    destruct (Hall k Hin) as [w Hw]. rewrite Hw in Hvs. congruence.
Qed.

Lemma component_values_positional flat_names args kwargs :
  (∀ k, k ∈ flat_names → kwargs !! k = None) →
  length args = length flat_names →
  component_values 0 flat_names args kwargs = Ok args.
Proof.
  intros Hnone Hlen.
  destruct (ResolverFacts.component_values_next_unused flat_names args kwargs 0)
    as (vs & Hcv & _ & Hvs).
  - intros j k Hk _. apply Hnone. by eapply list_elem_of_lookup_2.
  - intros j k Hk Hj. apply lookup_lt_Some in Hk. lia.
  - rewrite Hcv. f_equal. apply list_eq. intros j.
    destruct (flat_names !! j) as [k|] eqn:Hk.
    + rewrite (Hvs j k Hk), Hnone; [done|]. by eapply list_elem_of_lookup_2.
    + apply lookup_ge_None in Hk.
      rewrite !(proj2 (lookup_ge_None _ _)); [done|lia|].
      apply component_values_length in Hcv. lia.
Qed.

Lemma resolve_positional_only
    args kwargs dtype flat_names model_flatten_fn model_unflatten_fn :
  no_value_keyword kwargs →
  length args = length flat_names →
  length args ≠ 1 →
  (∀ k, k ∈ flat_names → kwargs !! k = None) →
  _resolve_value_from_args assert_same_structure args kwargs dtype flat_names
    model_flatten_fn model_unflatten_fn
  = if decide (args ≠ [] ∧ is_unordered_dict dtype = true)
    then Raise (ValueError_unordered args)
    else Ok (model_unflatten_fn args, delete "value" kwargs).
Proof.
  intros Hno Hlen H1 Hnone. unfold _resolve_value_from_args.
  rewrite (ResolverFacts.no_value_keyword_default _ Hno). simpl.
  assert (Hnone' : ∀ k, k ∈ flat_names → delete "value" kwargs !! k = None).
  { intros k Hk. apply lookup_delete_None. auto. }
  rewrite (ResolverFacts.unmatched_of_matched_empty _ _
             (ResolverFacts.matched_empty _ _ Hnone')).
  rewrite decide_False by (intros [? _]; done).
  rewrite decide_False by lia.
  destruct (decide (args ≠ [] ∧ is_unordered_dict dtype = true)); [done|].
  by rewrite component_values_positional.
Qed.

Lemma component_values_ok_inv i flat_names args kwargs vs :
  component_values i flat_names args kwargs = Ok vs →
  ∀ j k, flat_names !! j = Some k →
    is_Some (kwargs !! k) ∨ i + j < length args.
Proof.
  revert i vs. induction flat_names as [|k0 names IH]; intros i vs; simpl;
    [by intros _ j k ?|].
  intros Hcv [|j] k Hk; simpl in Hk.
  - injection Hk as ->. destruct (kwargs !! k) as [v|]; [left; by eexists|].
    right. unfold py_index in Hcv.
    destruct (args !! i) as [a|] eqn:Ha; [|done].
    apply lookup_lt_Some in Ha. lia.
  - destruct (match kwargs !! k0 with Some v => Ok v | None => py_index args i end)
      as [v|]; simpl in Hcv; [|done].
    destruct (component_values (S i) names args kwargs) as [ws|] eqn:E;
      simpl in Hcv; [|done].
    destruct (IH _ _ E j k Hk) as [?|?]; [by left|right; lia].
Qed.

Lemma resolve_keyword_on_covered_name
    args kwargs dtype flat_names model_flatten_fn model_unflatten_fn j k :
  no_value_keyword kwargs →
  NoDup flat_names →
  let kwargs' := delete "value" kwargs in
  length args + size kwargs' - size (unmatched_kwargs_of flat_names kwargs')
  = length flat_names →
  ¬ (args ≠ [] ∧ is_unordered_dict dtype = true) →
  flat_names !! j = Some k →
  j < length args →
  is_Some (kwargs' !! k) →
  _resolve_value_from_args assert_same_structure args kwargs dtype flat_names
    model_flatten_fn model_unflatten_fn
  = Raise IndexError.
Proof.
  intros Hno Hnd kwargs' Hcount Hord Hk Hj Hkw.
  assert (HkM : k ∈ matched_kwargs_of flat_names kwargs').
  { apply ResolverFacts.elem_of_matched. split; [|done].
    by eapply list_elem_of_lookup_2. }
  unfold _resolve_value_from_args.
  rewrite (ResolverFacts.no_value_keyword_default _ Hno). simpl.
  fold kwargs'.
  rewrite decide_False by (intros [_ HM]; rewrite HM in HkM; set_solver).
  rewrite decide_False by lia.
  rewrite decide_False by done.
  destruct (component_values 0 flat_names args kwargs') as [vs|e] eqn:E; simpl;
    [exfalso|by rewrite (ResolverFacts.component_values_error _ _ _ _ _ E)].
  pose proof (component_values_ok_inv _ _ _ _ _ E) as Hinv.
  pose proof (ResolverFacts.size_unmatched flat_names kwargs') as Hsz.
  set (a := length args) in *.
  assert (Hsub : list_to_set (drop a flat_names) ∪ {[k]}
                 ⊆ matched_kwargs_of flat_names kwargs').
  { intros x [Hx| ->%elem_of_singleton]%elem_of_union; [|done].
    apply elem_of_list_to_set, list_elem_of_lookup in Hx as [i Hi].
    rewrite lookup_drop in Hi.
    apply ResolverFacts.elem_of_matched.
    split; [by eapply list_elem_of_lookup_2|].
    destruct (Hinv _ _ Hi) as [?|?]; [done|]. simpl in *. lia. }
  apply subseteq_size in Hsub.
  rewrite size_union, size_singleton in Hsub.
  - rewrite size_list_to_set in Hsub.
    + rewrite length_drop in Hsub. lia.
    + apply (sublist_NoDup _ flat_names); [done|apply sublist_drop].
  - intros x Hx ->%elem_of_singleton.
    apply elem_of_list_to_set, list_elem_of_lookup in Hx as [i Hi].
    rewrite lookup_drop in Hi.
    pose proof (NoDup_lookup _ _ _ _ Hnd Hk Hi). lia.
Qed.

End general.

(** X1: what a successful resolution returns beside the value.  The returned
    keywords are keywords of the call and never hold [value]; when no value
    was given by keyword they are exactly the keywords of the call that name
    no declared component; when a value was given by keyword it is the
    resolved value and every other keyword is returned, component names
    included. *)
Theorem returned_keywords_of_a_resolution :
  ∀ (T : Type) (assert_same_structure : pyval T → pyval T → result T unit)
    (args : list (pyval T)) (kwargs : gmap string (pyval T)) (dtype : pyval T)
    (flat_names : list string) model_flatten_fn model_unflatten_fn
    (v : pyval T) (rest : gmap string (pyval T)),
    _resolve_value_from_args assert_same_structure args kwargs dtype
      flat_names model_flatten_fn model_unflatten_fn = Ok (v, rest) →
    rest !! "value" = None
    ∧ rest ⊆ kwargs
    ∧ (no_value_keyword kwargs →
       rest = filter (λ kv, kv.1 ∉ flat_names) (delete "value" kwargs))
    ∧ (¬ no_value_keyword kwargs →
       kwargs !! "value" = Some v ∧ rest = delete "value" kwargs).
Proof. intros. by eapply resolve_rest. Qed.

Lemma returned_keywords_of_a_resolution_witness :
  let kwargs : gmap string (pyval Z) :=
    {["value" := PList [float 1; float 2; float 3]; "z" := float 4;
      "name" := PStr "log_prob"]} in
  let rest : gmap string (pyval Z) :=
    {["z" := float 4; "name" := PStr "log_prob"]} in
  _resolve_value_from_args Nest.assert_same_structure [] kwargs
    (jd_dtype model_zyx) ["z"; "y"; "x"] sequential_flatten
    sequential_unflatten
  = Ok (PList [float 1; float 2; float 3], rest)
  ∧ rest !! "value" = None
  ∧ rest ⊆ kwargs
  ∧ (¬ no_value_keyword kwargs → rest = delete "value" kwargs).
Proof.
  intros kwargs rest.
  assert (H : _resolve_value_from_args Nest.assert_same_structure [] kwargs
                (jd_dtype model_zyx) ["z"; "y"; "x"] sequential_flatten
                sequential_unflatten
              = Ok (PList [float 1; float 2; float 3], rest))
    by (vm_compute; reflexivity).
  split; [exact H|].
  pose proof (returned_keywords_of_a_resolution Z Nest.assert_same_structure
                [] kwargs (jd_dtype model_zyx) ["z"; "y"; "x"]
                sequential_flatten sequential_unflatten _ rest H)
    as (H1 & H2 & _ & H4).
  split; [exact H1|]. split; [exact H2|].
  intros Hn. exact (proj2 (H4 Hn)).
Defined.

(** X2: a call that names every declared component by keyword and passes no
    positional argument resolves, whatever the dtype of the model (a plain
    dict included), to the unflattening of the keyword values in the declared
    order; the keywords that name no component are returned.  The declared
    names are distinct and none is [value]. *)
Theorem all_components_by_keyword :
  ∀ (T : Type) (assert_same_structure : pyval T → pyval T → result T unit)
    (kwargs : gmap string (pyval T)) (dtype : pyval T)
    (flat_names : list string) model_flatten_fn model_unflatten_fn,
    no_value_keyword kwargs →
    NoDup flat_names →
    "value" ∉ flat_names →
    (∀ k, k ∈ flat_names → is_Some (kwargs !! k)) →
    ∃ vs,
      Forall2 (λ k v, kwargs !! k = Some v) flat_names vs
      ∧ _resolve_value_from_args assert_same_structure [] kwargs dtype
          flat_names model_flatten_fn model_unflatten_fn
        = Ok (model_unflatten_fn vs,
              filter (λ kv, kv.1 ∉ flat_names) (delete "value" kwargs)).
Proof. intros. by apply resolve_keywords_only. Qed.

Lemma all_components_by_keyword_witness :
  let kwargs : gmap string (pyval Z) :=
    {["x" := float 3; "y" := float 2; "z" := float 1;
      "name" := PStr "log_prob"]} in
  let flat_names := ["z"; "y"; "x"] in
  let dtype : pyval Z :=
    PDict [("z", PDType "float32"); ("y", PDType "float32");
           ("x", PDType "float32")] in
  no_value_keyword kwargs
  ∧ NoDup flat_names
  ∧ ("value" ∉ flat_names)
  ∧ (∀ k, k ∈ flat_names → is_Some (kwargs !! k))
  ∧ ∃ vs,
      Forall2 (λ k v, kwargs !! k = Some v) flat_names vs
      ∧ _resolve_value_from_args Nest.assert_same_structure [] kwargs dtype
          flat_names sequential_flatten sequential_unflatten
        = Ok (sequential_unflatten vs,
              filter (λ kv, kv.1 ∉ flat_names) (delete "value" kwargs)).
Proof.
  intros kwargs flat_names dtype.
  assert (H1 : no_value_keyword kwargs) by (left; reflexivity).
  assert (H2 : NoDup flat_names).
  { apply (bool_decide_unpack (NoDup flat_names)). vm_compute. exact I. }
  assert (H3 : "value" ∉ flat_names).
  { apply (bool_decide_unpack ("value" ∉ flat_names)). vm_compute. exact I. }
  assert (H4 : ∀ k, k ∈ flat_names → is_Some (kwargs !! k)).
  { intros k Hk. apply list_elem_of_lookup in Hk as [[|[|[|j]]] Hj];
      simpl in Hj; try discriminate; injection Hj as <-;
      vm_compute; by eexists. }
  split; [exact H1|]. split; [exact H2|]. split; [exact H3|].
  split; [exact H4|].
  exact (all_components_by_keyword Z Nest.assert_same_structure kwargs dtype
           flat_names sequential_flatten sequential_unflatten H1 H2 H3 H4).
Defined.

(** X3: a call with as many positional arguments as there are declared
    components (other than one), in which no keyword names a component and
    [value] is not given, resolves to the unflattening of the positional
    arguments and returns the keywords of the call; but when the dtype of the
    model is a plain dict and there is a positional argument, it raises the
    [ValueError] on unordered models instead. *)
Theorem all_components_by_position :
  ∀ (T : Type) (assert_same_structure : pyval T → pyval T → result T unit)
    (args : list (pyval T)) (kwargs : gmap string (pyval T)) (dtype : pyval T)
    (flat_names : list string) model_flatten_fn model_unflatten_fn,
    no_value_keyword kwargs →
    length args = length flat_names →
    length args ≠ 1 →
    (∀ k, k ∈ flat_names → kwargs !! k = None) →
    _resolve_value_from_args assert_same_structure args kwargs dtype
      flat_names model_flatten_fn model_unflatten_fn
    = if decide (args ≠ [] ∧ is_unordered_dict dtype = true)
      then Raise (ValueError_unordered args)
      else Ok (model_unflatten_fn args, delete "value" kwargs).
Proof. intros. by apply resolve_positional_only. Qed.

Lemma all_components_by_position_witness :
  let args := [float 1; float 2; float 3] in
  let kwargs : gmap string (pyval Z) := {["name" := PStr "log_prob"]} in
  let flat_names := ["z"; "y"; "x"] in
  let dtype : pyval Z :=
    PDict [("z", PDType "float32"); ("y", PDType "float32");
           ("x", PDType "float32")] in
  no_value_keyword kwargs
  ∧ length args = length flat_names
  ∧ length args ≠ 1
  ∧ (∀ k, k ∈ flat_names → kwargs !! k = None)
  ∧ _resolve_value_from_args Nest.assert_same_structure args kwargs dtype
      flat_names sequential_flatten sequential_unflatten
    = Raise (ValueError_unordered args)
  ∧ _resolve_value_from_args Nest.assert_same_structure args kwargs
      (jd_dtype model_zyx) flat_names sequential_flatten sequential_unflatten
    = Ok (PList args, kwargs).
Proof.
  intros args kwargs flat_names dtype.
  assert (H1 : no_value_keyword kwargs) by (left; reflexivity).
  assert (H2 : length args = length flat_names) by reflexivity.
  assert (H3 : length args ≠ 1) by (simpl; lia).
  assert (H4 : ∀ k, k ∈ flat_names → kwargs !! k = None).
  { intros k Hk. apply list_elem_of_lookup in Hk as [[|[|[|j]]] Hj];
      simpl in Hj; try discriminate; injection Hj as <-;
      vm_compute; reflexivity. }
  split; [exact H1|]. split; [exact H2|]. split; [exact H3|].
  split; [exact H4|]. split.
  - exact (all_components_by_position Z Nest.assert_same_structure args kwargs
             dtype flat_names sequential_flatten sequential_unflatten
             H1 H2 H3 H4).
  - reflexivity.
Defined.

(** X4: positional arguments are read by the index of the component, so a
    keyword that names one of the components the positional arguments cover
    makes the resolution fail.  When the declared names are distinct, the
    count and the check on unordered models pass, and some keyword names the
    component at an index below [len(args)], the resolver raises
    [IndexError]. *)
Theorem keyword_on_a_covered_component :
  ∀ (T : Type) (assert_same_structure : pyval T → pyval T → result T unit)
    (args : list (pyval T)) (kwargs : gmap string (pyval T)) (dtype : pyval T)
    (flat_names : list string) model_flatten_fn model_unflatten_fn
    (j : nat) (k : string),
    no_value_keyword kwargs →
    NoDup flat_names →
    length args + size (delete "value" kwargs)
    - size (unmatched_kwargs_of flat_names (delete "value" kwargs))
    = length flat_names →
    ¬ (args ≠ [] ∧ is_unordered_dict dtype = true) →
    flat_names !! j = Some k →
    j < length args →
    is_Some (delete "value" kwargs !! k) →
    _resolve_value_from_args assert_same_structure args kwargs dtype
      flat_names model_flatten_fn model_unflatten_fn
    = Raise IndexError.
Proof. intros. by eapply resolve_keyword_on_covered_name. Qed.

Lemma keyword_on_a_covered_component_witness :
  let args := [float 2; float 3] in
  let kwargs : gmap string (pyval Z) := {["z" := float 1]} in
  let flat_names := ["z"; "y"; "x"] in
  let dtype : pyval Z := jd_dtype model_zyx in
  no_value_keyword kwargs
  ∧ NoDup flat_names
  ∧ length args + size (delete "value" kwargs)
    - size (unmatched_kwargs_of flat_names (delete "value" kwargs))
    = length flat_names
  ∧ ¬ (args ≠ [] ∧ is_unordered_dict dtype = true)
  ∧ flat_names !! 0 = Some "z"
  ∧ 0 < length args
  ∧ is_Some (delete "value" kwargs !! "z")
  ∧ _resolve_value_from_args Nest.assert_same_structure args kwargs dtype
      flat_names sequential_flatten sequential_unflatten
    = Raise IndexError.
Proof.
  intros args kwargs flat_names dtype.
  assert (H1 : no_value_keyword kwargs) by (left; reflexivity).
  assert (H2 : NoDup flat_names).
  { apply (bool_decide_unpack (NoDup flat_names)). vm_compute. exact I. }
  assert (H3 : length args + size (delete "value" kwargs)
               - size (unmatched_kwargs_of flat_names (delete "value" kwargs))
               = length flat_names) by (vm_compute; reflexivity).
  assert (H4 : ¬ (args ≠ [] ∧ is_unordered_dict dtype = true)).
  { intros [_ Hd]. vm_compute in Hd. discriminate. }
  assert (H5 : flat_names !! 0 = Some "z") by reflexivity.
  assert (H6 : 0 < length args) by (simpl; lia).
  assert (H7 : is_Some (delete "value" kwargs !! "z")).
  { vm_compute. by eexists. }
  split; [exact H1|]. split; [exact H2|]. split; [exact H3|].
  split; [exact H4|]. split; [exact H5|]. split; [exact H6|].
  split; [exact H7|].
  exact (keyword_on_a_covered_component Z Nest.assert_same_structure args
           kwargs dtype flat_names sequential_flatten sequential_unflatten
           0 "z" H1 H2 H3 H4 H5 H6 H7).
Defined.

End ResolverMore.

(** ** The names of the components *)

Module NamesFacts.

Import Names.

Section facts.
Context {T : Type}.
Implicit Types (d : named T) (ds : list (named T)).

Lemma append_nil (t : string) : "" +:+ t = t.
Proof. reflexivity. Qed.

Lemma append_cons a (s t : string) : String a s +:+ t = String a (s +:+ t).
Proof. reflexivity. Qed.

Lemma prefix_app (sub s : string) :
  String.prefix sub s = true ↔ ∃ post, s = sub +:+ post.
Proof.
  revert s. induction sub as [|a sub IH]; intros s; simpl.
  - split; [intros _; by exists s|by destruct s].
  - setoid_rewrite append_cons.
    destruct s as [|b s]; [split; [done|by intros [? ?]]|].
    simpl. destruct (Ascii.ascii_dec a b) as [->|Hab].
    + rewrite IH. split; intros [post Hp]; exists post; congruence.
    + split; [done|]. intros [post Hp]. congruence.
Qed.

(** [contains] is Python's [in]: [sub] occurs in [s] somewhere. *)
Lemma contains_spec (sub s : string) :
  contains sub s = true ↔ ∃ pre post, s = pre +:+ sub +:+ post.
Proof.
  induction s as [|a s IH]; cbn [contains].
  - rewrite orb_false_r, prefix_app. split.
    + intros [post Hp]. by exists "", post.
    + intros (pre & post & Hp). destruct pre; [by exists post|done].
  - rewrite orb_true_iff, IH, prefix_app. split.
    + intros [[post Hp]|(pre & post & Hp)].
      * by exists "", post.
      * exists (String a pre), post. rewrite append_cons. by f_equal.
    + intros ([|b pre] & post & Hp).
      * left. by exists post.
      * right. exists pre, post. rewrite append_cons in Hp. congruence.
Qed.

Lemma explicit_name_ok d name :
  get_explicit_name_for_component d = Ok name →
  is_forbidden name = false ∧ (name = None ∨ name = name_parameter d).
Proof.
  unfold get_explicit_name_for_component.
  match goal with
  | |- (if is_forbidden ?n then _ else _) = _ → _ =>
      assert (Hn : n = None ∨ n = name_parameter d);
      [|destruct (is_forbidden n) eqn:Hf; [done|]; by intros [= <-]]
  end.
  destruct (init_spec d) as [[args defaults]|];
    repeat match goal with
           | |- context [if ?b then _ else _] => destruct b
           end;
    (by left) || (by right).
Qed.

Lemma dummy_not_forbidden (i : nat) :
  "var" +:+ pretty i ∉ FORBIDDEN_COMPONENT_NAMES.
Proof.
  unfold FORBIDDEN_COMPONENT_NAMES. simpl.
  intros [H|[H|H%elem_of_nil]%elem_of_cons]%elem_of_cons; done.
Qed.

Lemma resolve_names_from_ok dummy_name ds :
  ∀ dummy_idx names names_used res,
    resolve_names_from dummy_name dummy_idx ds names names_used = Ok res →
    names_used = list_to_set names →
    NoDup names →
    NoDup res
    ∧ ∃ new,
        res = names ++ new
        ∧ length new = length ds
        ∧ ∀ i d, ds !! i = Some d →
            ∃ e, get_explicit_name_for_component d = Ok e
                 ∧ new !! i
                   = Some (default (dummy_name +:+ pretty (dummy_idx + i)) e).
Proof.
  induction ds as [|d ds IH]; intros idx names used res; simpl.
  - intros [= <-] _ Hnd. split; [done|]. exists [].
    split; [by rewrite app_nil_r|]. split; [done|]. by intros i d ?.
  - destruct (get_explicit_name_for_component d) as [e|] eqn:He; simpl;
      [|done].
    set (name := match e with
                 | Some name => name
                 | None => dummy_name +:+ pretty idx
                 end).
    case_decide as Hin; [done|].
    intros Hres -> Hnd.
    destruct (IH _ _ _ _ Hres) as (Hnd' & new & -> & Hlen & Hnew).
    + rewrite list_to_set_app_L. simpl.
      by rewrite (right_id_L ∅ (∪)), (comm_L (∪)).
    + apply NoDup_app. split; [done|]. split; [|apply NoDup_singleton].
      intros x Hx ->%list_elem_of_singleton. apply Hin.
      by apply elem_of_list_to_set.
    + split; [done|]. exists (name :: new).
      split; [by rewrite <- app_assoc|]. split; [simpl; by f_equal|].
      intros [|i] d' Hd'; simpl in Hd'.
      * injection Hd' as <-. exists e. split; [done|]. simpl.
        rewrite Nat.add_0_r. unfold name. by destruct e.
      * destruct (Hnew i d' Hd') as (e' & He' & Hi). exists e'.
        split; [done|]. simpl. rewrite Hi.
        by replace (S idx + i) with (idx + S i) by lia.
Qed.

Lemma resolve_names_from_dummies dummy_name ds :
  (∀ d, d ∈ ds → get_explicit_name_for_component d = Ok None) →
  ∀ dummy_idx names names_used,
    (∀ x, x ∈ names_used →
          ∃ j, j < dummy_idx ∧ x = dummy_name +:+ pretty j) →
    resolve_names_from dummy_name dummy_idx ds names names_used
    = Ok (names ++ imap (λ i _, dummy_name +:+ pretty (dummy_idx + i)) ds).
Proof.
  induction ds as [|d ds IH]; intros Hall idx names used Hused; simpl.
  - by rewrite app_nil_r.
  - rewrite (Hall d) by left. simpl.
    rewrite decide_False.
    + rewrite IH.
      * rewrite <- app_assoc. simpl. rewrite Nat.add_0_r. do 3 f_equal.
        apply imap_ext. intros i x _. simpl. do 2 f_equal. lia.
      * intros d' Hd'. apply Hall. by right.
      * intros x [->%elem_of_singleton|Hx]%elem_of_union.
        -- exists idx. split; [lia|done].
        -- destruct (Hused x Hx) as (j & Hj & ->). exists j. split; [lia|done].
    + intros Hin. destruct (Hused _ Hin) as (j & Hj & Heq).
      apply (inj (String.app dummy_name)), (inj pretty) in Heq. lia.
Qed.

Lemma truthy_nonempty (s : string) : s ≠ "" → truthy (Some s) = true.
Proof.
  intros Hs. simpl. destruct (String.eqb_spec s ""); [done|reflexivity].
Qed.

Lemma unnamed_explicit d :
  unnamed d → get_explicit_name_for_component d = Ok None.
Proof.
  unfold unnamed, get_explicit_name_for_component.
  destruct (name_parameter d) as [s|].
  - intros [Hs Hd]. change (default "" (Some s)) with s.
    rewrite (truthy_nonempty s Hs), andb_true_l.
    destruct (contains (class_name d) s) eqn:Hc.
    + by destruct (init_spec d) as [[? ?]|].
    + change (default "" (Some s)) with s.
      rewrite (truthy_nonempty s Hs).
      destruct Hd as [Hd|(args & defaults & -> & ->)].
      * apply contains_spec in Hd. congruence.
      * cbn [equals_default andb]. by rewrite String.eqb_refl.
  - intros _. by destruct (init_spec d) as [[? ?]|].
Qed.

Lemma forbidden_explicit d s :
  name_parameter d = Some s →
  s ∈ FORBIDDEN_COMPONENT_NAMES →
  (¬ ∃ pre post, s = pre +:+ class_name d +:+ post) →
  (∀ args defaults, init_spec d = Some (args, defaults) →
                    default_name_of args defaults ≠ Some (PStr s)) →
  get_explicit_name_for_component d
  = Raise (ValueError_other
             ("Distribution name " +:+ quoted s
              +:+ " is not allowed as a JointDistribution component; please choose a different name.")).
Proof.
  intros Hn Hf Hc Hd. unfold get_explicit_name_for_component. rewrite Hn.
  change (default "" (Some s)) with s.
  assert (contains (class_name d) s = false) as ->.
  { destruct (contains (class_name d) s) eqn:E; [|done].
    by apply contains_spec in E. }
  rewrite andb_false_r. change (default "" (Some s)) with s.
  assert (Hkeep :
    match init_spec d with
    | Some (args, defaults) =>
        if truthy (Some s)
           && equals_default s (default_name_of args defaults)
        then None else Some s
    | None => Some s
    end = Some s).
  { destruct (init_spec d) as [[args defaults]|] eqn:Hi; [|done].
    destruct (default_name_of args defaults) as [[]|] eqn:Hdn;
      cbn [equals_default]; rewrite ?andb_false_r; try done.
    destruct (String.eqb_spec s s0) as [<-|]; [|by rewrite andb_false_r].
    by destruct (Hd _ _ eq_refl). }
  rewrite Hkeep. change (default "" (Some s)) with s. cbn [is_forbidden].
  by rewrite bool_decide_eq_true_2.
Qed.

Lemma resolve_names_from_raise dummy_name ds d e :
  d ∈ ds →
  get_explicit_name_for_component d = Raise e →
  ∀ dummy_idx names names_used,
    ∃ e', resolve_names_from dummy_name dummy_idx ds names names_used
          = Raise e'.
Proof.
  intros Hin He. induction ds as [|d0 ds IH]; [by apply elem_of_nil in Hin|].
  intros idx names used. simpl.
  destruct (get_explicit_name_for_component d0) as [e0|e0] eqn:E0; simpl;
    [|by eexists].
  case_decide; [by eexists|].
  apply IH. apply elem_of_cons in Hin as [->|Hin]; [congruence|done].
Qed.

End facts.

(** X5: the names that [_flat_resolve_names] returns.  When it returns, the
    names are pairwise distinct, there is one per component, none of them is
    [value] or [name], and the name of component [i] is the explicit name of
    that component, which is then its [name] parameter, or [var] followed by
    [i] in decimal when it has none. *)
Theorem resolved_names :
  ∀ (T : Type) (ds : list (named T)) (names : list string),
    _flat_resolve_names ds = Ok names →
    NoDup names
    ∧ length names = length ds
    ∧ ("value" ∉ names)
    ∧ ("name" ∉ names)
    ∧ ∀ i d, ds !! i = Some d →
        ∃ e, get_explicit_name_for_component d = Ok e
             ∧ (e = None ∨ e = name_parameter d)
             ∧ names !! i = Some (default ("var" +:+ pretty i) e).
Proof.
  intros T ds names Hres.
  destruct (resolve_names_from_ok "var" ds 0 [] ∅ names Hres)
    as (Hnd & new & -> & Hlen & Hnew); [done|constructor|].
  simpl in *.
  assert (Hforb : ∀ x, x ∈ new → x ∉ FORBIDDEN_COMPONENT_NAMES).
  { intros x [i Hi]%list_elem_of_lookup.
    destruct (ds !! i) as [d|] eqn:Hd.
    - destruct (Hnew i d Hd) as (e & He & Hi').
      rewrite Hi in Hi'. injection Hi' as ->.
      destruct e as [s|]; simpl; [|apply dummy_not_forbidden].
      apply explicit_name_ok in He as [Hf _]. simpl in Hf.
      by apply bool_decide_eq_false in Hf.
    - apply lookup_ge_None in Hd. apply lookup_lt_Some in Hi. lia. }
  split; [done|]. split; [done|].
  split; [intros Hv; apply (Hforb _ Hv); by left|].
  split; [intros Hv; apply (Hforb _ Hv); right; by left|].
  intros i d Hd. destruct (Hnew i d Hd) as (e & He & Hi).
  exists e. split; [done|]. split; [|done].
  by apply explicit_name_ok in He as [_ ?].
Qed.

Lemma resolved_names_witness :
  let normal : named Z := {|
    name_parameter := Some "Normal"; class_name := "Normal";
    init_spec := Some (["self"; "loc"; "scale"; "name"], [PStr "Normal"]) |} in
  let scale : named Z := {|
    name_parameter := Some "scale"; class_name := "Normal";
    init_spec := Some (["self"; "loc"; "scale"; "name"], [PStr "Normal"]) |} in
  let ds := [normal; scale; normal] in
  let names := ["var0"; "scale"; "var2"] in
  _flat_resolve_names ds = Ok names
  ∧ NoDup names
  ∧ length names = length ds
  ∧ ("value" ∉ names).
Proof.
  intros normal scale ds names.
  assert (H : _flat_resolve_names ds = Ok names) by (vm_compute; reflexivity).
  split; [exact H|].
  pose proof (resolved_names Z ds names H) as (H1 & H2 & H3 & _).
  split; [exact H1|]. split; [exact H2|]. exact H3.
Defined.

(** X6: a model none of whose components has an explicit name (each [name]
    parameter is [None], or a non-empty string that holds the name of the
    class or equals the default of the [name] argument of [__init__]) always
    resolves, to the names [var0], [var1], ... in the order of the
    components. *)
Theorem unnamed_components_are_numbered :
  ∀ (T : Type) (ds : list (named T)),
    (∀ d, d ∈ ds → unnamed d) →
    _flat_resolve_names ds = Ok (imap (λ i _, "var" +:+ pretty i) ds).
Proof.
  intros T ds Hall. unfold _flat_resolve_names.
  rewrite (resolve_names_from_dummies "var" ds); [done| |set_solver].
  intros d Hd. by apply unnamed_explicit, Hall.
Qed.

Lemma unnamed_components_are_numbered_witness :
  let normal : named Z := {|
    name_parameter := Some "batch_Normal"; class_name := "Normal";
    init_spec := Some (["self"; "loc"; "scale"; "name"], [PStr "Normal"]) |} in
  let anonymous : named Z := {|
    name_parameter := None; class_name := "Gamma"; init_spec := None |} in
  let ds := [normal; anonymous] in
  (∀ d, d ∈ ds → unnamed d)
  ∧ _flat_resolve_names ds = Ok ["var0"; "var1"].
Proof.
  intros normal anonymous ds.
  assert (H : ∀ d, d ∈ ds → unnamed d).
  { intros d [->|[->|Hd%elem_of_nil]%elem_of_cons]%elem_of_cons; [| |done].
    - split; [done|]. left. by exists "batch_", "".
    - exact I. }
  split; [exact H|].
  exact (unnamed_components_are_numbered Z ds H).
Defined.

(** X7: a component may not be called [value] or [name].  When the [name]
    parameter of a component is one of the two, does not hold the name of the
    class and is not the default of the [name] argument of [__init__],
    [get_explicit_name_for_component] raises the [ValueError] that quotes the
    name, and [_flat_resolve_names] raises for every model that has the
    component. *)
Theorem forbidden_component_name :
  ∀ (T : Type) (d : named T) (s : string),
    name_parameter d = Some s →
    s ∈ FORBIDDEN_COMPONENT_NAMES →
    (¬ ∃ pre post, s = pre +:+ class_name d +:+ post) →
    (∀ args defaults, init_spec d = Some (args, defaults) →
                      default_name_of args defaults ≠ Some (PStr s)) →
    get_explicit_name_for_component d
    = Raise (ValueError_other
               ("Distribution name " +:+ quoted s
                +:+ " is not allowed as a JointDistribution component; please choose a different name."))
    ∧ ∀ ds, d ∈ ds → ∃ e, _flat_resolve_names ds = Raise e.
Proof.
  intros T d s Hn Hf Hc Hd.
  pose proof (forbidden_explicit d s Hn Hf Hc Hd) as He.
  split; [exact He|]. intros ds Hin.
  by eapply resolve_names_from_raise.
Qed.

Lemma forbidden_component_name_witness :
  let d : named Z := {|
    name_parameter := Some "value"; class_name := "Normal";
    init_spec := Some (["self"; "loc"; "scale"; "name"], [PStr "Normal"]) |} in
  name_parameter d = Some "value"
  ∧ "value" ∈ FORBIDDEN_COMPONENT_NAMES
  ∧ (¬ ∃ pre post, "value" = pre +:+ class_name d +:+ post)
  ∧ (∀ args defaults, init_spec d = Some (args, defaults) →
                      default_name_of args defaults ≠ Some (PStr "value"))
  ∧ ∃ e, _flat_resolve_names [d] = Raise e.
Proof.
  intros d.
  assert (H1 : name_parameter d = Some "value") by reflexivity.
  assert (H2 : "value" ∈ FORBIDDEN_COMPONENT_NAMES) by (by left).
  assert (H3 : ¬ ∃ pre post, "value" = pre +:+ class_name d +:+ post).
  { intros He. apply contains_spec in He. vm_compute in He. discriminate. }
  assert (H4 : ∀ args defaults, init_spec d = Some (args, defaults) →
                 default_name_of args defaults ≠ Some (PStr "value")).
  { intros args defaults [= <- <-]. vm_compute. discriminate. }
  split; [exact H1|]. split; [exact H2|]. split; [exact H3|].
  split; [exact H4|].
  refine (proj2 (forbidden_component_name Z d "value" H1 H2 H3 H4) [d] _).
  by left.
Defined.

End NamesFacts.

(** ** More on the measures and the sampling of a joint distribution *)

Module JointMore.

Import Resolver Distribution JointDistribution Examples.

Section facts.
Context {T : Type} `{TensorBackend T}.
Implicit Types (self : JointDistribution T) (kwargs : kwargs_t T).

(** Keywords that agree except perhaps on the value of [key], which names no
    component and is not [value], resolve alike. *)
Lemma component_values_insert key v i flat_names args kwargs :
  key ∉ flat_names →
  component_values i flat_names args (<[key := v]> kwargs)
  = component_values i flat_names args (delete key kwargs).
Proof.
  revert i. induction flat_names as [|k names IH]; intros i Hk; [done|].
  simpl. apply not_elem_of_cons in Hk as [Hne Hk].
  rewrite lookup_insert_ne, lookup_delete_ne by done.
  by rewrite IH.
Qed.

Lemma matched_insert key v flat_names kwargs :
  key ∉ flat_names →
  matched_kwargs_of flat_names (<[key := v]> kwargs)
  = matched_kwargs_of flat_names (delete key kwargs).
Proof.
  intros Hk. apply set_eq. intros k.
  rewrite !ResolverFacts.elem_of_matched.
  destruct (decide (k = key)) as [->|Hne]; [tauto|].
  by rewrite lookup_insert_ne, lookup_delete_ne.
Qed.

Lemma unmatched_insert key v flat_names kwargs :
  key ∉ flat_names →
  unmatched_kwargs_of flat_names (<[key := v]> kwargs)
  = <[key := v]> (unmatched_kwargs_of flat_names (delete key kwargs)).
Proof.
  intros Hk. rewrite !ResolverMore.unmatched_filter.
  rewrite <- (insert_delete_eq kwargs key v) at 1.
  rewrite map_filter_insert_True by done.
  done.
Qed.

Lemma count_by_matched (a : nat) flat_names kwargs :
  a + size kwargs - size (unmatched_kwargs_of flat_names kwargs)
  = a + size (matched_kwargs_of flat_names kwargs).
Proof. rewrite (ResolverFacts.size_unmatched flat_names kwargs). lia. Qed.

Lemma resolve_insert assert_same_structure key v args kwargs dtype flat_names
    model_flatten_fn model_unflatten_fn :
  key ∉ flat_names →
  key ≠ "value" →
  match _resolve_value_from_args assert_same_structure args
          (delete key kwargs) dtype flat_names model_flatten_fn
          model_unflatten_fn with
  | Ok (value, rest) =>
      _resolve_value_from_args assert_same_structure args
        (<[key := v]> kwargs) dtype flat_names model_flatten_fn
        model_unflatten_fn
      = Ok (value, <[key := v]> rest)
  | Raise _ =>
      ∃ e, _resolve_value_from_args assert_same_structure args
             (<[key := v]> kwargs) dtype flat_names model_flatten_fn
             model_unflatten_fn
           = Raise e
  end.
Proof.
  intros Hk Hv. unfold _resolve_value_from_args.
  rewrite lookup_insert_ne, lookup_delete_ne by done.
  rewrite (delete_insert_ne _ "value" key) by done.
  rewrite (delete_delete _ "value" key).
  set (kw := delete "value" kwargs).
  destruct (is_none (default PNone (kwargs !! "value"))); simpl;
    [|by rewrite insert_delete_eq].
  rewrite !count_by_matched, matched_insert, unmatched_insert,
    component_values_insert by done.
  set (M := matched_kwargs_of flat_names (delete key kw)).
  set (u := unmatched_kwargs_of flat_names (delete key kw)).
  case_decide.
  - destruct (py_len dtype) as [n|]; simpl; [|by eexists].
    case_decide; [done|].
    destruct (py_index (model_flatten_fn dtype) 0) as [d|]; simpl;
      [|by eexists].
    destruct (assert_same_structure d _) as [|e]; [done|].
    destruct (is_ValueError_or_TypeError e); [done|by eexists].
  - case_decide; [by eexists|].
    case_decide; [by eexists|].
    destruct (component_values 0 flat_names args (delete key kw)); simpl;
      [done|by eexists].
Qed.

Lemma call_log_prob_then_exp self value name name' kwargs :
  _call_prob (as_distribution self) value name' kwargs
  = (lp ← _call_log_prob (as_distribution self) value name kwargs; tf_exp lp).
Proof.
  unfold _call_prob, _call_log_prob. simpl.
  destruct (_cast_structure value (jd_dtype self)) as [v1|]; simpl; [|done].
  destruct (convert_to_nested_tensor v1 (jd_dtype self)) as [v2|]; simpl;
    [|done].
  by destruct (jd_control_dependencies self (Some v2) kwargs).
Qed.

Lemma joint_prob_exp self args kwargs names :
  _flat_resolve_names self = Ok names →
  "name" ∉ names →
  (∀ lp, JointDistribution.log_prob self args kwargs = Ok lp →
         JointDistribution.prob self args kwargs = tf_exp lp)
  ∧ (∀ e, JointDistribution.log_prob self args kwargs = Raise e →
          ∃ e', JointDistribution.prob self args kwargs = Raise e').
Proof.
  intros Hnames Hname.
  unfold JointDistribution.log_prob, JointDistribution.prob, resolve_call.
  rewrite Hnames. simpl.
  pose proof (resolve_insert Nest.assert_same_structure "name"
                (default (PStr "log_prob") (kwargs !! "name")) args kwargs
                (jd_dtype self) names (_model_flatten self)
                (_model_unflatten self) Hname) as H1.
  pose proof (resolve_insert Nest.assert_same_structure "name"
                (default (PStr "prob") (kwargs !! "name")) args kwargs
                (jd_dtype self) names (_model_flatten self)
                (_model_unflatten self) Hname) as H2.
  destruct (_resolve_value_from_args Nest.assert_same_structure args
              (delete "name" kwargs) (jd_dtype self) names
              (_model_flatten self) (_model_unflatten self))
    as [[value rest]|e0].
  - rewrite H1, H2 by done. simpl. unfold call_with_unmatched.
    rewrite !lookup_insert_eq, !delete_insert_eq.
    rewrite (call_log_prob_then_exp self value
               (default (PStr "log_prob") (kwargs !! "name"))).
    split.
    + by intros lp ->.
    + intros e ->. by eexists.
  - destruct H1 as [e1 ->]; [done|]. destruct H2 as [e2 ->]; [done|].
    simpl. split; [done|]. intros e _. by eexists.
Qed.

(** What [kwargs.update({k: kwargs.get(k) for k in names})] leaves in
    [kwargs] *)
Lemma lookup_update_names (kwargs0 kwargs : kwargs_t T) names k :
  foldl (λ kw k, <[k := default PNone (kwargs0 !! k)]> kw) kwargs names !! k
  = if decide (k ∈ names) then Some (default PNone (kwargs0 !! k))
    else kwargs !! k.
Proof.
  revert kwargs. induction names as [|k0 names IH]; intros kwargs;
    cbn [foldl].
  - by rewrite decide_False by apply not_elem_of_nil.
  - rewrite IH. destruct (decide (k ∈ names)) as [Hin|Hin].
    + by rewrite decide_True by (by right).
    + destruct (decide (k = k0)) as [->|Hne].
      * by rewrite decide_True, lookup_insert_eq by left.
      * rewrite decide_False, lookup_insert_ne; [done..|].
        by intros [?|?]%elem_of_cons.
Qed.

Lemma call_flat_keywords self sample_shape seed kwargs names :
  _flat_resolve_names self = Ok names →
  NoDup names →
  "value" ∉ names →
  kwargs ≠ ∅ →
  kwargs !! "value" = None →
  _call_flat_sample_distributions self sample_shape seed PNone kwargs
  = if decide (filter (λ kv, kv.1 ∉ names) kwargs = ∅) then
      let value :=
        _model_unflatten self
          (map (λ k, default PNone (kwargs !! k)) names) in
      _flat_sample_distributions self sample_shape seed
        (if is_none value then None else Some (_model_flatten self value))
    else
      Raise (ValueError_unexpected_kwargs names
               (filter (λ kv, kv.1 ∉ names) kwargs)).
Proof.
  intros Hnames Hnd Hval Hne Hnov. unfold _call_flat_sample_distributions.
  rewrite decide_True by done. rewrite Hnames. simpl.
  set (upd := foldl (λ kw k, <[k := default PNone (kwargs !! k)]> kw)
                kwargs names).
  assert (Hupd : ∀ k, upd !! k
                      = if decide (k ∈ names)
                        then Some (default PNone (kwargs !! k))
                        else kwargs !! k)
    by (intros k; apply lookup_update_names).
  destruct (ResolverMore.resolve_keywords_only Nest.assert_same_structure upd
              (jd_dtype self) names (_model_flatten self)
              (_model_unflatten self))
    as (vs & Hvs & ->); [| done | done | |].
  { left. by rewrite Hupd, decide_False. }
  { intros k Hk. rewrite Hupd, decide_True by done. by eexists. }
  assert (vs = map (λ k, default PNone (kwargs !! k)) names) as ->.
  { apply list_eq. intros i. rewrite list_lookup_fmap.
    destruct (names !! i) as [k|] eqn:Hk; simpl.
    - destruct (Forall2_lookup_l _ _ _ _ _ Hvs Hk) as (v & Hv & Hkv).
      rewrite Hupd, decide_True in Hkv by (by eapply list_elem_of_lookup_2).
      congruence.
    - apply lookup_ge_None. apply lookup_ge_None in Hk.
      by rewrite <- (Forall2_length _ _ _ Hvs). }
  assert (filter (λ kv, kv.1 ∉ names) (delete "value" upd)
          = filter (λ kv, kv.1 ∉ names) kwargs) as ->.
  { apply map_eq. intros k. apply option_eq. intros v.
    rewrite !map_lookup_filter_Some. simpl.
    split; intros [Hl Hk]; (split; [|done]).
    - apply lookup_delete_Some in Hl as [_ Hl].
      by rewrite Hupd, decide_False in Hl.
    - apply lookup_delete_Some. split; [congruence|].
      by rewrite Hupd, decide_False. }
  cbn [mbind result_bind].
  destruct (decide (filter (λ kv : string * pyval T, kv.1 ∉ names) kwargs = ∅))
    as [He|He].
  - by rewrite decide_False by (intros Hn; by apply Hn).
  - by rewrite decide_True by done.
Qed.

End facts.

(** X8: the public [prob] of a joint distribution is [tf.exp] of its public
    [log_prob] on the same arguments.  For a model none of whose components
    is called [name]: when [log_prob] returns [lp] on some positional and
    keyword arguments, [prob] on the same arguments is [tf.exp(lp)]; and when
    [log_prob] raises, so does [prob]. *)
Theorem joint_prob_is_exp_of_joint_log_prob :
  ∀ (T : Type) (B : TensorBackend T) (self : JointDistribution T)
    (args : list (pyval T)) (kwargs : kwargs_t T) (names : list string),
    _flat_resolve_names self = Ok names →
    "name" ∉ names →
    (∀ lp, JointDistribution.log_prob self args kwargs = Ok lp →
           JointDistribution.prob self args kwargs = tf_exp lp)
    ∧ (∀ e, JointDistribution.log_prob self args kwargs = Raise e →
            ∃ e', JointDistribution.prob self args kwargs = Raise e').
Proof. intros. by eapply joint_prob_exp. Qed.

Lemma joint_prob_is_exp_of_joint_log_prob_witness :
  let names := ["z"; "y"; "x"] in
  let args := [float 1; float 2] in
  let kwargs : kwargs_t Z := {["x" := float 3]} in
  JointDistribution._flat_resolve_names model_zyx = Ok names
  ∧ ("name" ∉ names)
  ∧ JointDistribution.log_prob model_zyx args kwargs = Ok (float 6)
  ∧ JointDistribution.prob model_zyx args kwargs = Ok (float 64).
Proof.
  intros names args kwargs.
  assert (H1 : JointDistribution._flat_resolve_names model_zyx = Ok names)
    by reflexivity.
  assert (H2 : "name" ∉ names).
  { apply (bool_decide_unpack ("name" ∉ names)). vm_compute. exact I. }
  assert (H3 : JointDistribution.log_prob model_zyx args kwargs
               = Ok (float 6)) by (vm_compute; reflexivity).
  split; [exact H1|]. split; [exact H2|]. split; [exact H3|].
  exact (proj1 (joint_prob_is_exp_of_joint_log_prob Z integer_backend
                  model_zyx args kwargs names H1 H2) (float 6) H3).
Defined.

(** X9: sampling with components pinned by keyword.  When no [value] is given
    and there are keywords, [_call_flat_sample_distributions] pins each
    declared component to its keyword, and to [None] when it has none: it
    calls [_flat_sample_distributions] on the flattening of the unflattened
    list of these values.  A keyword that names no declared component makes
    it raise the [ValueError] that holds the declared names and the
    offending keywords.  The declared names are distinct and none is
    [value]. *)
Theorem sampling_with_pinned_components :
  ∀ (T : Type) (B : TensorBackend T) (self : JointDistribution T)
    (sample_shape seed : pyval T) (kwargs : kwargs_t T) (names : list string),
    _flat_resolve_names self = Ok names →
    NoDup names →
    "value" ∉ names →
    kwargs ≠ ∅ →
    kwargs !! "value" = None →
    _call_flat_sample_distributions self sample_shape seed PNone kwargs
    = if decide (filter (λ kv, kv.1 ∉ names) kwargs = ∅) then
        let value :=
          _model_unflatten self
            (map (λ k, default PNone (kwargs !! k)) names) in
        _flat_sample_distributions self sample_shape seed
          (if is_none value then None else Some (_model_flatten self value))
      else
        Raise (ValueError_unexpected_kwargs names
                 (filter (λ kv, kv.1 ∉ names) kwargs)).
Proof. intros. by apply call_flat_keywords. Qed.

Lemma sampling_with_pinned_components_witness :
  let names := ["z"; "y"; "x"] in
  let kwargs : kwargs_t Z := {["y" := float 2]} in
  let unknown : kwargs_t Z := {["y" := float 2; "w" := float 5]} in
  JointDistribution._flat_resolve_names model_zyx = Ok names
  ∧ NoDup names
  ∧ ("value" ∉ names)
  ∧ kwargs ≠ ∅
  ∧ kwargs !! "value" = None
  ∧ snd <$> _call_flat_sample_distributions model_zyx (PTuple []) dummy_seed
              PNone kwargs
    = Ok [PNone; float 2; PNone]
  ∧ snd <$> _call_flat_sample_distributions model_zyx (PTuple []) dummy_seed
              PNone unknown
    = Raise (ValueError_unexpected_kwargs names {["w" := float 5]}).
Proof.
  intros names kwargs unknown.
  assert (H1 : JointDistribution._flat_resolve_names model_zyx = Ok names)
    by reflexivity.
  assert (H2 : NoDup names).
  { apply (bool_decide_unpack (NoDup names)). vm_compute. exact I. }
  assert (H3 : "value" ∉ names).
  { apply (bool_decide_unpack ("value" ∉ names)). vm_compute. exact I. }
  assert (H4 : kwargs ≠ ∅).
  { apply (bool_decide_unpack (kwargs ≠ ∅)). vm_compute. exact I. }
  assert (H5 : kwargs !! "value" = None) by reflexivity.
  split; [exact H1|]. split; [exact H2|]. split; [exact H3|].
  split; [exact H4|]. split; [exact H5|]. split.
  - rewrite (sampling_with_pinned_components Z integer_backend model_zyx
               (PTuple []) dummy_seed kwargs names H1 H2 H3 H4 H5).
    vm_compute. reflexivity.
  - vm_compute. reflexivity.
Defined.

End JointMore.

(** ** The cache of distributions and [_sample_n] *)

Module SamplingFacts.

Import JointDistribution Sampling Examples.

Section facts.
Context {T : Type} `{TensorBackend T}.
Variable executing_eagerly : bool.
Variable current_graph : Z.
Variable tensor_truth : T → result T bool.

Local Abbreviation get_single :=
  (_get_single_sample_distributions executing_eagerly current_graph).
Local Abbreviation call_flat :=
  (_call_flat_sample_distributions executing_eagerly current_graph).
Local Abbreviation sample_n :=
  (_sample_n executing_eagerly current_graph tensor_truth).

Implicit Types (self : JointDistribution T).
Implicit Types (cache : gmap Z (list (option (component T)))).

Lemma get_single_served self candidate_dists cache ds cache' :
  get_single self candidate_dists cache = (Ok ds, cache') →
  all_not_none ds = true →
  ∀ self' candidate_dists',
    get_single self' candidate_dists' cache' = (Ok ds, cache').
Proof.
  unfold _get_single_sample_distributions.
  set (graph_id := if executing_eagerly then (-1)%Z else current_graph).
  destruct (usable (cache !! (-1)%Z)) eqn:E1.
  { intros [= <- <-] _ self' cand'. by rewrite E1. }
  destruct (usable (cache !! graph_id)) eqn:E2.
  { intros [= <- <-] _ self' cand'. by rewrite E1, E2. }
  intros Hres Hall self' cand'.
  assert (cache' = <[graph_id := ds]> cache) as ->.
  { destruct candidate_dists as [c|]; [by injection Hres as <- <-|].
    destruct (_flat_sample_distributions self _ _ _) as [r|]; simpl in Hres;
      [by injection Hres as <- <-|done]. }
  destruct (decide (graph_id = (-1)%Z)) as [Heq|Hne].
  - rewrite Heq, lookup_insert_eq. simpl. by rewrite Hall.
  - rewrite lookup_insert_ne by done. rewrite E1, lookup_insert_eq. simpl.
    by rewrite Hall.
Qed.

Lemma get_single_cache self candidate_dists cache r cache' :
  get_single self candidate_dists cache = (r, cache') →
  ∀ k, k ≠ (if executing_eagerly then (-1)%Z else current_graph) →
       cache' !! k = cache !! k.
Proof.
  unfold _get_single_sample_distributions.
  set (graph_id := if executing_eagerly then (-1)%Z else current_graph).
  destruct (usable (cache !! (-1)%Z)); [by intros [= _ <-]|].
  destruct (usable (cache !! graph_id)); [by intros [= _ <-]|].
  intros Hres k Hk.
  destruct candidate_dists as [c|].
  - injection Hres as _ <-. by rewrite lookup_insert_ne.
  - destruct (_flat_sample_distributions self _ _ _) as [x|]; simpl in Hres;
      injection Hres as _ <-; [by rewrite lookup_insert_ne|done].
Qed.

Lemma all_not_none_map_Some (ds : list (component T)) :
  all_not_none (map Some ds) = true.
Proof. induction ds as [|d ds IH]; [done|]. simpl. by rewrite IH. Qed.

Lemma usable_all_not_none (o : option (list (option (component T)))) :
  usable o = true → all_not_none (default [] o) = true.
Proof. by destruct o. Qed.

Lemma get_single_candidates self (ds : list (component T)) cache :
  ∃ ds' cache',
    get_single self (Some (map Some ds)) cache = (Ok ds', cache')
    ∧ all_not_none ds' = true.
Proof.
  unfold _get_single_sample_distributions.
  set (graph_id := if executing_eagerly then (-1)%Z else current_graph).
  destruct (usable (cache !! (-1)%Z)) eqn:E1.
  { eexists _, _. split; [reflexivity|]. by apply usable_all_not_none. }
  destruct (usable (cache !! graph_id)) eqn:E2.
  { eexists _, _. split; [reflexivity|]. by apply usable_all_not_none. }
  eexists _, _. split; [reflexivity|]. apply all_not_none_map_Some.
Qed.

Lemma sample_n_conflict self sample_shape seed value kwargs cache :
  value ≠ PNone →
  kwargs ≠ ∅ →
  sample_n self sample_shape seed value kwargs cache
  = (Raise (ValueError_other
              "Supplied both `value` and keyword arguments to parameterize sampling."),
     cache).
Proof.
  intros Hv Hk. unfold _sample_n. rewrite decide_True; [done|].
  split; [by destruct value|done].
Qed.

Lemma call_flat_no_lookup self sample_shape seed value kwargs cache :
  value ≠ PNone ∨ kwargs = ∅ →
  call_flat self sample_shape seed value kwargs cache
  = (JointDistribution._call_flat_sample_distributions self sample_shape seed
       value kwargs, cache).
Proof.
  intros Hcond. unfold _call_flat_sample_distributions.
  rewrite decide_False; [done|]. intros [Hn Hk].
  destruct Hcond as [Hv|Hk']; [by destruct value|done].
Qed.

Lemma call_flat_cache self sample_shape seed value kwargs cache r cache' :
  call_flat self sample_shape seed value kwargs cache = (r, cache') →
  ∀ k, k ≠ (if executing_eagerly then (-1)%Z else current_graph) →
       cache' !! k = cache !! k.
Proof.
  unfold _call_flat_sample_distributions.
  case_decide; [|by intros [= _ <-]].
  destruct (get_single self None cache) as [[ds1|e1] c1] eqn:E1.
  2: { intros [= _ <-] k Hk. by eapply get_single_cache. }
  destruct (JointDistribution._flat_resolve_names self) as [names|e].
  2: { intros [= _ <-] k Hk. by eapply get_single_cache. }
  destruct (get_single self None c1) as [[ds2|e2] c2] eqn:E2;
    intros [= _ <-] k Hk;
    rewrite (get_single_cache _ _ _ _ _ E2 k Hk);
    by eapply get_single_cache.
Qed.

Lemma sample_n_cache_kept self sample_shape seed value kwargs cache r cache' :
  sample_n self sample_shape seed value kwargs cache = (r, cache') →
  value ≠ PNone
  ∨ (kwargs = ∅ ∧ py_truth tensor_truth sample_shape = Ok true) →
  cache' = cache.
Proof.
  unfold _sample_n. case_decide; [by intros [= _ <-]|].
  intros Hres Hcond.
  rewrite call_flat_no_lookup in Hres by (destruct Hcond as [?|[? _]]; auto).
  destruct (JointDistribution._call_flat_sample_distributions _ _ _ _ _)
    as [[ds xs]|]; [|by injection Hres as _ <-].
  destruct (py_truth tensor_truth sample_shape) as [b|] eqn:Hb;
    [|by injection Hres as _ <-].
  destruct Hcond as [Hv|[_ Ht]].
  - assert (is_none value = false) as Hn by (by destruct value).
    rewrite Hn, andb_false_r in Hres. by injection Hres as _ <-.
  - injection Ht as ->. simpl in Hres. by injection Hres as _ <-.
Qed.

Lemma sample_n_cache self sample_shape seed value kwargs cache r cache' :
  sample_n self sample_shape seed value kwargs cache = (r, cache') →
  ∀ k, k ≠ (if executing_eagerly then (-1)%Z else current_graph) →
       cache' !! k = cache !! k.
Proof.
  unfold _sample_n. case_decide; [by intros [= _ <-]|].
  destruct (call_flat self sample_shape seed value kwargs cache)
    as [[[ds xs]|e] c1] eqn:E1.
  2: { intros [= _ <-]. by eapply call_flat_cache. }
  destruct (py_truth tensor_truth sample_shape) as [b|].
  2: { intros [= _ <-]. by eapply call_flat_cache. }
  destruct (negb b && is_none value).
  2: { intros [= _ <-]. by eapply call_flat_cache. }
  destruct (get_single self (Some (map Some ds)) c1) as [[ds2|e2] c2] eqn:E2;
    intros [= _ <-] k Hk;
    rewrite (get_single_cache _ _ _ _ _ E2 k Hk);
    by eapply call_flat_cache.
Qed.

Lemma sample_n_caches self seed sample_shape kwargs cache v cache' :
  sample_n self sample_shape seed PNone kwargs cache = (Ok v, cache') →
  py_truth tensor_truth sample_shape = Ok false →
  ∃ ds,
    all_not_none ds = true
    ∧ ∀ self' candidate_dists',
        get_single self' candidate_dists' cache' = (Ok ds, cache').
Proof.
  unfold _sample_n. case_decide; [done|].
  destruct (call_flat self sample_shape seed PNone kwargs cache)
    as [[[ds xs]|e] c1]; [|done].
  intros Hres Hb. rewrite Hb in Hres. simpl in Hres.
  destruct (get_single_candidates self ds c1) as (ds' & c' & Hg & Hall).
  rewrite Hg in Hres. injection Hres as _ <-.
  exists ds'. split; [done|]. intros self' cand'.
  by eapply get_single_served.
Qed.

End facts.

(** X10: the distributions of a single sample are memoised.  Once
    [_get_single_sample_distributions] has returned a list without [None],
    every later call in the same graph, on whatever candidates, returns the
    same list and leaves the cache as it is, without sampling the model
    again; and a call writes the cache at no other key than the id of the
    current graph ([-1] when executing eagerly). *)
Theorem single_sample_distributions_are_memoised :
  ∀ (T : Type) (B : TensorBackend T) (executing_eagerly : bool)
    (current_graph : Z) (self : JointDistribution T)
    (candidate_dists : option (list (option (component T))))
    (cache cache' : gmap Z (list (option (component T))))
    (ds : list (option (component T))),
    _get_single_sample_distributions executing_eagerly current_graph self
      candidate_dists cache = (Ok ds, cache') →
    all_not_none ds = true →
    (∀ k, k ≠ (if executing_eagerly then (-1)%Z else current_graph) →
          cache' !! k = cache !! k)
    ∧ ∀ self' candidate_dists',
        _get_single_sample_distributions executing_eagerly current_graph
          self' candidate_dists' cache' = (Ok ds, cache').
Proof.
  intros T B eager graph self cand cache cache' ds Hres Hall. split.
  - by eapply get_single_cache.
  - by eapply get_single_served.
Qed.

Lemma single_sample_distributions_are_memoised_witness :
  let ds : list (option (component Z)) :=
    map (λ _, Some (of_distribution scalar_distribution)) ["z"; "y"; "x"] in
  let cache' : gmap Z (list (option (component Z))) := {[7%Z := ds]} in
  _get_single_sample_distributions false 7 model_zyx None ∅ = (Ok ds, cache')
  ∧ all_not_none ds = true
  ∧ _get_single_sample_distributions false 7 model_x (Some []) cache'
    = (Ok ds, cache').
Proof.
  intros ds cache'.
  assert (H1 : _get_single_sample_distributions false 7 model_zyx None ∅
               = (Ok ds, cache')) by reflexivity.
  assert (H2 : all_not_none ds = true) by reflexivity.
  split; [exact H1|]. split; [exact H2|].
  exact (proj2 (single_sample_distributions_are_memoised Z integer_backend
                  false 7 model_zyx None ∅ cache' ds H1 H2)
           model_x (Some [])).
Defined.

(** X11: [_sample_n] and the cache of distributions.  A call with both a
    value and keywords raises the [ValueError] before anything else and
    leaves the cache alone.  Whatever a call returns or raises, it leaves the
    cache alone when a value is given, and when there are no keywords and
    the sample shape is true; with keywords and no value, the names and the
    dtype of the model are asked for, which may fill the cache.  No call
    writes the cache at another key than the id of the current graph ([-1]
    when executing eagerly). *)
Theorem pinned_or_shaped_sampling_keeps_the_cache :
  ∀ (T : Type) (B : TensorBackend T) (executing_eagerly : bool)
    (current_graph : Z) (tensor_truth : T → result T bool)
    (self : JointDistribution T) (sample_shape seed value : pyval T)
    (kwargs : kwargs_t T) (cache : gmap Z (list (option (component T)))),
    (value ≠ PNone → kwargs ≠ ∅ →
     _sample_n executing_eagerly current_graph tensor_truth self sample_shape
       seed value kwargs cache
     = (Raise (ValueError_other
                 "Supplied both `value` and keyword arguments to parameterize sampling."),
        cache))
    ∧ (∀ r cache',
         _sample_n executing_eagerly current_graph tensor_truth self
           sample_shape seed value kwargs cache = (r, cache') →
         value ≠ PNone
         ∨ (kwargs = ∅ ∧ py_truth tensor_truth sample_shape = Ok true) →
         cache' = cache)
    ∧ (∀ r cache',
         _sample_n executing_eagerly current_graph tensor_truth self
           sample_shape seed value kwargs cache = (r, cache') →
         ∀ k, k ≠ (if executing_eagerly then (-1)%Z else current_graph) →
              cache' !! k = cache !! k).
Proof.
  intros. split; [|split].
  - by apply sample_n_conflict.
  - intros r cache'. by apply sample_n_cache_kept.
  - intros r cache'. by apply sample_n_cache.
Qed.

Lemma pinned_or_shaped_sampling_keeps_the_cache_witness :
  let truth (t : Z) : result Z bool := Ok (negb (t =? 0)%Z) in
  let value : pyval Z := PList [float 1; float 2; float 3] in
  let kwargs : kwargs_t Z := {["z" := float 1]} in
  let ds : list (option (component Z)) :=
    map (λ _, Some (of_distribution scalar_distribution)) ["z"; "y"; "x"] in
  let r := _sample_n false 7 truth model_zyx (PTuple [PInt 2]) dummy_seed
             PNone kwargs ∅ in
  (value ≠ PNone
   ∧ kwargs ≠ ∅
   ∧ _sample_n true 0 truth model_zyx (PTuple []) dummy_seed value kwargs ∅
     = (Raise (ValueError_other
                 "Supplied both `value` and keyword arguments to parameterize sampling."),
        ∅))
  ∧ (_sample_n true 0 truth model_zyx (PTuple []) dummy_seed value ∅ ∅
     = (Ok value, ∅)
     ∧ (∅ : gmap Z (list (option (component Z)))) = ∅)
  ∧ (r.2 = {[7%Z := ds]}
     ∧ (0%Z ≠ 7%Z → r.2 !! 0%Z = (∅ : gmap Z (list (option (component Z)))) !! 0%Z)).
Proof.
  intros truth value kwargs ds r.
  assert (H1 : value ≠ PNone) by discriminate.
  assert (H2 : kwargs ≠ ∅).
  { apply (bool_decide_unpack (kwargs ≠ ∅)). vm_compute. exact I. }
  assert (H3 : _sample_n true 0 truth model_zyx (PTuple []) dummy_seed value
                 ∅ ∅ = (Ok value, ∅)) by reflexivity.
  assert (H4 : _sample_n false 7 truth model_zyx (PTuple [PInt 2]) dummy_seed
                 PNone kwargs ∅ = (r.1, r.2))
    by apply surjective_pairing.
  split; [|split].
  - split; [exact H1|]. split; [exact H2|].
    exact (proj1 (pinned_or_shaped_sampling_keeps_the_cache Z integer_backend
                    true 0 truth model_zyx (PTuple []) dummy_seed value
                    kwargs ∅) H1 H2).
  - split; [exact H3|].
    exact (proj1 (proj2 (pinned_or_shaped_sampling_keeps_the_cache Z
                           integer_backend true 0 truth model_zyx (PTuple [])
                           dummy_seed value ∅ ∅))
             (Ok value) ∅ H3 (or_introl H1)).
  - split; [by vm_compute|].
    exact (proj2 (proj2 (pinned_or_shaped_sampling_keeps_the_cache Z
                           integer_backend false 7 truth model_zyx
                           (PTuple [PInt 2]) dummy_seed PNone kwargs ∅))
             r.1 r.2 H4 0%Z).
Defined.

(** X12: a single sample caches the distributions.  After [_sample_n] has
    returned on no value and a sample shape that is false, the cache serves
    [_get_single_sample_distributions]: every later call in the same graph
    returns one and the same list without [None], and does not change the
    cache. *)
Theorem single_sample_fills_the_cache :
  ∀ (T : Type) (B : TensorBackend T) (executing_eagerly : bool)
    (current_graph : Z) (tensor_truth : T → result T bool)
    (self : JointDistribution T) (sample_shape seed v : pyval T)
    (kwargs : kwargs_t T) (cache cache' : gmap Z (list (option (component T)))),
    _sample_n executing_eagerly current_graph tensor_truth self sample_shape
      seed PNone kwargs cache = (Ok v, cache') →
    py_truth tensor_truth sample_shape = Ok false →
    ∃ ds,
      all_not_none ds = true
      ∧ ∀ self' candidate_dists',
          _get_single_sample_distributions executing_eagerly current_graph
            self' candidate_dists' cache' = (Ok ds, cache').
Proof. intros. by eapply sample_n_caches. Qed.

Lemma single_sample_fills_the_cache_witness :
  let truth (t : Z) : result Z bool := Ok (negb (t =? 0)%Z) in
  let ds : list (option (component Z)) :=
    map (λ _, Some (of_distribution scalar_distribution)) ["z"; "y"; "x"] in
  let cache' : gmap Z (list (option (component Z))) := {[(-1)%Z := ds]} in
  _sample_n true 0 truth model_zyx (PTuple []) dummy_seed PNone ∅ ∅
  = (Ok (PList [float 0; float 0; float 0]), cache')
  ∧ py_truth truth (PTuple []) = Ok false
  ∧ ∃ ds,
      all_not_none ds = true
      ∧ ∀ self' candidate_dists',
          _get_single_sample_distributions true 0 self' candidate_dists'
            cache' = (Ok ds, cache').
Proof.
  intros truth ds cache'.
  assert (H1 : _sample_n true 0 truth model_zyx (PTuple []) dummy_seed PNone
                 ∅ ∅
               = (Ok (PList [float 0; float 0; float 0]), cache'))
    by reflexivity.
  assert (H2 : py_truth truth (PTuple []) = Ok false) by reflexivity.
  split; [exact H1|]. split; [exact H2|].
  exact (single_sample_fills_the_cache Z integer_backend true 0 truth
           model_zyx (PTuple []) dummy_seed _ ∅ ∅ cache' H1 H2).
Defined.

End SamplingFacts.

(** ** Static shapes *)

Module ShapeFacts.

Import Shapes.

Section facts.
Context {T : Type}.
Implicit Types (x shape : TensorShape) (xs ys zs : list (option Z)).

Local Abbreviation merge_dims := (merge_dims (T := T)).
Local Abbreviation set_shape := (set_shape (T := T)).

Lemma unknown_dims_of_nat (n : nat) :
  unknown_dims (Z.of_nat n) = replicate n None.
Proof. unfold unknown_dims. by rewrite Nat2Z.id. Qed.

Lemma merge_dims_length xs ys zs :
  merge_dims xs ys = Ok zs → length zs = length xs ∧ length ys = length xs.
Proof.
  revert ys zs. induction xs as [|a xs IH]; intros [|b ys] zs; simpl;
    try done.
  - by intros [= <-].
  - destruct (merge_dim a b) as [d|]; simpl; [|done].
    destruct (merge_dims xs ys) as [ds|] eqn:E; simpl; [|done].
    intros [= <-]. destruct (IH _ _ E). simpl. lia.
Qed.

Lemma merge_dim_error (a b : option Z) e :
  merge_dim (T := T) a b = Raise e → ∃ msg, e = ValueError_other msg.
Proof.
  destruct a, b; simpl; try done. case_decide; [done|].
  intros [= <-]. by eexists.
Qed.

Lemma merge_dims_error xs ys e :
  merge_dims xs ys = Raise e → ∃ msg, e = ValueError_other msg.
Proof.
  revert ys. induction xs as [|a xs IH]; intros [|b ys]; simpl; try done;
    try (intros [= <-]; by eexists).
  destruct (merge_dim a b) as [d|e'] eqn:Ed; simpl.
  - destruct (merge_dims xs ys) as [ds|e'] eqn:E; simpl; [done|].
    intros [= <-]. by eapply IH.
  - intros [= <-]. by eapply merge_dim_error.
Qed.

Lemma set_shape_error x shape e :
  set_shape x shape = Raise e → ∃ msg, e = ValueError_other msg.
Proof.
  destruct x as [xs|], shape as [ys|]; simpl; try done.
  destruct (merge_dims xs ys) as [zs|e'] eqn:E; simpl; [done|].
  intros [= <-]. by eapply merge_dims_error.
Qed.

Lemma set_shape_ranked xs ys r :
  set_shape (Some xs) (Some ys) = Ok r →
  ∃ zs, r = Some zs ∧ length zs = length xs ∧ length ys = length xs.
Proof.
  simpl. destruct (merge_dims xs ys) as [zs|] eqn:E; simpl; [|done].
  intros [= <-]. exists zs. split; [done|]. by eapply merge_dims_length.
Qed.

Lemma merge_dims_unknown_l ys :
  merge_dims (replicate (length ys) None) ys = Ok ys.
Proof. induction ys as [|b ys IH]; [done|]. simpl. by rewrite IH. Qed.

Lemma merge_dims_unknown_r xs :
  merge_dims xs (replicate (length xs) None) = Ok xs.
Proof.
  induction xs as [|a xs IH]; [done|]. simpl. rewrite IH. by destruct a.
Qed.

Lemma merge_dims_app xs ys xs' ys' :
  length xs = length ys →
  merge_dims (xs ++ xs') (ys ++ ys')
  = (zs ← merge_dims xs ys; zs' ← merge_dims xs' ys'; Ok (zs ++ zs')).
Proof.
  revert ys. induction xs as [|a xs IH]; intros [|b ys] Hlen; simpl in *;
    try done.
  - by destruct (merge_dims xs' ys').
  - rewrite IH by lia. destruct (merge_dim a b); simpl; [|done].
    destruct (merge_dims xs ys); simpl; [|done].
    by destruct (merge_dims xs' ys').
Qed.

Lemma merge_dim_refines (a b d : option Z) :
  merge_dim (T := T) a b = Ok d →
  match a with Some _ => d = a | None => True end.
Proof.
  destruct a, b; simpl; try done; [|by intros [= <-]].
  case_decide; [by intros [= <-]|done].
Qed.

Lemma merge_dims_refines xs ys zs :
  merge_dims xs ys = Ok zs →
  Forall2 (λ a b, match a with Some _ => b = a | None => True end) xs zs.
Proof.
  revert ys zs. induction xs as [|a xs IH]; intros [|b ys] zs; simpl;
    try done.
  - intros [= <-]. constructor.
  - destruct (merge_dim a b) as [d|] eqn:Ed; simpl; [|done].
    destruct (merge_dims xs ys) as [ds|] eqn:E; simpl; [|done].
    intros [= <-]. constructor; [by eapply merge_dim_refines|by eapply IH].
Qed.

Lemma refines_refl x : refines x x.
Proof.
  destruct x as [xs|]; simpl; [|done].
  induction xs as [|a xs IH]; constructor; [by destruct a|done].
Qed.

Lemma refines_trans x y z : refines x y → refines y z → refines x z.
Proof.
  destruct x as [xs|], y as [ys|], z as [zs|]; simpl; try done.
  intros Hxy. revert zs. induction Hxy as [|a b xs ys Hab Hxy IH];
    intros zs Hyz; inversion Hyz as [|? c ? zs' Hbc Hyz']; subst;
    constructor; [|by apply IH].
  destruct a; [|done]. subst b. done.
Qed.

Lemma set_shape_refines x shape r :
  set_shape x shape = Ok r → refines x r.
Proof.
  destruct x as [xs|], shape as [ys|]; simpl; try done.
  - destruct (merge_dims xs ys) as [zs|] eqn:E; simpl; [|done].
    intros [= <-]. by eapply merge_dims_refines.
  - intros [= <-]. apply (refines_refl (Some xs)).
Qed.

Lemma merge_dims_app3 xs ys xs' ys' xs'' ys'' :
  length xs = length ys →
  length xs' = length ys' →
  merge_dims (xs ++ xs' ++ xs'') (ys ++ ys' ++ ys'')
  = (zs ← merge_dims xs ys; zs' ← merge_dims xs' ys';
     zs'' ← merge_dims xs'' ys''; Ok (zs ++ zs' ++ zs'')).
Proof.
  intros H1 H2. rewrite merge_dims_app, merge_dims_app by done.
  destruct (merge_dims xs ys); simpl; [|done].
  destruct (merge_dims xs' ys'); simpl; [|done].
  by destruct (merge_dims xs'' ys'').
Qed.

Lemma merge_dims_unknown_both (n : nat) :
  merge_dims (replicate n None) (replicate n None) = Ok (replicate n None).
Proof. induction n as [|n IH]; [done|]. simpl. by rewrite IH. Qed.

Lemma as_shape_ok (sample : list Z) :
  Forall (λ d, 0 ≤ d)%Z sample →
  as_shape (T := T) (Some sample) = Ok (Some (map Some sample)).
Proof.
  intros Hpos. unfold as_shape.
  destruct (List.find _ sample) as [d|] eqn:E; [|done].
  apply find_some in E as [Hin Hneg]. apply Z.ltb_lt in Hneg.
  apply list_elem_of_In in Hin.
  pose proof (proj1 (Forall_forall _ _) Hpos d Hin) as Hd. simpl in Hd. lia.
Qed.

Lemma as_shape_negative (sample : list Z) :
  ¬ Forall (λ d, 0 ≤ d)%Z sample →
  ∃ d, d ∈ sample ∧ (d < 0)%Z
       ∧ as_shape (T := T) (Some sample)
         = Raise (ValueError_other
                    ("Dimension " +:+ pretty d +:+ " must be >= 0")).
Proof.
  intros Hneg. unfold as_shape.
  destruct (List.find _ sample) as [d|] eqn:E.
  - apply find_some in E as [Hin Hd]. apply Z.ltb_lt in Hd. exists d.
    split; [by apply list_elem_of_In|]. split; [done|done].
  - destruct Hneg. apply Forall_forall. intros d Hin.
    apply list_elem_of_In in Hin.
    pose proof (find_none _ _ E d Hin) as Hd. apply Z.ltb_ge in Hd. done.
Qed.

Lemma as_shape_cases (sample : list Z) :
  as_shape (T := T) (Some sample) = Ok (Some (map Some sample))
  ∨ ∃ msg, as_shape (T := T) (Some sample) = Raise (ValueError_other msg).
Proof.
  unfold as_shape. destruct (List.find _ sample); [right; by eexists|by left].
Qed.

Lemma static_shape_all_known (sample : list Z) (bs es : list (option Z)) :
  Forall (λ d, 0 ≤ d)%Z sample →
  _set_sample_static_shape_for_tensor (T := T) None (Some es) (Some bs)
    (Some sample)
  = Ok (Some (map Some sample ++ bs ++ es)).
Proof.
  intros Hpos. unfold _set_sample_static_shape_for_tensor.
  rewrite (as_shape_ok sample Hpos). simpl.
  set (ss := map Some sample).
  set (s := length ss). set (b := length bs). set (e := length es).
  replace (Z.of_nat s + Z.of_nat b + Z.of_nat e - Z.of_nat s)%Z
    with (Z.of_nat (b + e)) by lia.
  replace (Z.of_nat s + Z.of_nat b + Z.of_nat e - Z.of_nat e)%Z
    with (Z.of_nat (s + b)) by lia.
  replace (Z.of_nat s + Z.of_nat b + Z.of_nat e)%Z
    with (Z.of_nat (s + (b + e))) by lia.
  rewrite !unknown_dims_of_nat, !replicate_add. unfold s, b, e.
  rewrite (merge_dims_app (replicate (length ss) None) ss)
    by (by rewrite length_replicate).
  rewrite (merge_dims_unknown_l ss).
  rewrite (merge_dims_app (replicate (length bs) None)) by done.
  rewrite !merge_dims_unknown_both. simpl.
  rewrite <- !(app_assoc (replicate (length ss) None)).
  rewrite merge_dims_app3 by (by rewrite !length_replicate).
  rewrite (merge_dims_unknown_r ss), merge_dims_unknown_both,
    (merge_dims_unknown_l es). simpl.
  rewrite merge_dims_app3 by (by rewrite !length_replicate).
  by rewrite (merge_dims_unknown_r ss), (merge_dims_unknown_l bs),
    (merge_dims_unknown_r es).
Qed.

Lemma static_shape_negative x event_shape batch_shape (sample : list Z) :
  ¬ Forall (λ d, 0 ≤ d)%Z sample →
  ∃ d, d ∈ sample ∧ (d < 0)%Z
       ∧ _set_sample_static_shape_for_tensor (T := T) x event_shape
           batch_shape (Some sample)
         = Raise (ValueError_other
                    ("Dimension " +:+ pretty d +:+ " must be >= 0")).
Proof.
  intros Hneg. destruct (as_shape_negative sample Hneg) as (d & Hin & Hd & E).
  exists d. split; [done|]. split; [done|].
  unfold _set_sample_static_shape_for_tensor. by rewrite E.
Qed.

(** The three calls of [set_shape] that are left when every rank is known *)
Lemma static_shape_ranked xs (sample : list Z) (bs es : list (option Z)) :
  as_shape (T := T) (Some sample) = Ok (Some (map Some sample)) →
  let n := Z.of_nat (length xs) in
  let s := Z.of_nat (length sample) in
  let e := Z.of_nat (length es) in
  _set_sample_static_shape_for_tensor (T := T) (Some xs) (Some es) (Some bs)
    (Some sample)
  = (x ← set_shape (Some xs)
           (Some (map Some sample ++ unknown_dims (n - s)));
     x ← set_shape x (Some (unknown_dims (n - e) ++ es));
     set_shape x (Some ((unknown_dims s ++ bs) ++ unknown_dims e))).
Proof.
  intros Hshape. unfold _set_sample_static_shape_for_tensor.
  rewrite Hshape. simpl. by rewrite length_map.
Qed.

Lemma static_shape_rank_mismatch xs (sample : list Z) (bs es : list (option Z)) :
  length xs ≠ length sample + length bs + length es →
  ∃ msg,
    _set_sample_static_shape_for_tensor (T := T) (Some xs) (Some es) (Some bs)
      (Some sample)
    = Raise (ValueError_other msg).
Proof.
  intros Hne. destruct (as_shape_cases sample) as [Hshape|[msg Hshape]].
  2: { exists msg. unfold _set_sample_static_shape_for_tensor.
       by rewrite Hshape. }
  rewrite static_shape_ranked by done.
  destruct (set_shape (Some xs) _) as [x1|e1] eqn:E1; simpl;
    [|destruct (set_shape_error _ _ _ E1) as [msg ->]; by eexists].
  apply set_shape_ranked in E1 as (zs1 & -> & Hl1 & _).
  destruct (set_shape (Some zs1) _) as [x2|e2] eqn:E2; simpl;
    [|destruct (set_shape_error _ _ _ E2) as [msg ->]; by eexists].
  apply set_shape_ranked in E2 as (zs2 & -> & Hl2 & _).
  destruct (set_shape (Some zs2) _) as [x3|e3] eqn:E3; simpl;
    [|destruct (set_shape_error _ _ _ E3) as [msg ->]; by eexists].
  apply set_shape_ranked in E3 as (zs3 & -> & _ & Hl3).
  rewrite !length_app, !unknown_dims_of_nat, !length_replicate in Hl3. lia.
Qed.

Lemma static_shape_refines x event_shape batch_shape sample_shape r :
  _set_sample_static_shape_for_tensor (T := T) x event_shape batch_shape
    sample_shape = Ok r →
  refines x r.
Proof.
  unfold _set_sample_static_shape_for_tensor.
  destruct (as_shape sample_shape) as [ss|]; [|done].
  cbn [mbind result_bind].
  destruct (match rank x, rank ss, rank batch_shape, rank event_shape with
            | None, Some s, Some b, Some e =>
                x ← set_shape x (Some (unknown_dims (s + b + e)));
                Ok (Some (s + b + e)%Z, x)
            | _, _, _, _ => Ok (rank x, x)
            end) as [[ndims x1]|] eqn:E1; [|done].
  assert (H1 : refines x x1).
  { destruct (rank x), (rank ss), (rank batch_shape), (rank event_shape);
      simpl in E1; try (injection E1 as _ <-; apply refines_refl).
    destruct (set_shape x _) as [x'|] eqn:E; simpl in E1; [|done].
    injection E1 as _ <-. by eapply set_shape_refines. }
  cbn [mbind result_bind].
  destruct (match ndims, rank ss with
            | Some n, Some s => set_shape x1 _
            | _, _ => Ok x1
            end) as [x2|] eqn:E2; [|done].
  assert (H2 : refines x1 x2).
  { destruct ndims, (rank ss); try (injection E2 as <-; apply refines_refl).
    by eapply set_shape_refines. }
  cbn [mbind result_bind].
  destruct (match ndims, rank event_shape with
            | Some n, Some e => set_shape x2 _
            | _, _ => Ok x2
            end) as [x3|] eqn:E3; [|done].
  assert (H3 : refines x2 x3).
  { destruct ndims, (rank event_shape);
      try (injection E3 as <-; apply refines_refl).
    by eapply set_shape_refines. }
  cbn [mbind result_bind].
  intros E4.
  assert (H4 : refines x3 r).
  { destruct (rank batch_shape) as [b|];
      [|injection E4 as <-; apply refines_refl].
    destruct ndims, (rank ss), (rank event_shape); simpl in E4;
      try (injection E4 as <-; apply refines_refl);
      by eapply set_shape_refines. }
  eauto using refines_trans.
Qed.

Lemma refines_defined (dims : list Z) r :
  refines (Some (map Some dims)) r → r = Some (map Some dims).
Proof.
  destruct r as [zs|]; simpl; [|done]. intros Hf. f_equal.
  revert zs Hf. induction dims as [|d dims IH]; intros zs Hf; simpl in *.
  - by inversion Hf.
  - inversion Hf as [|? z ? zs' Hz Hzs]; subst. f_equal. by apply IH.
Qed.

End facts.

(** X13: the static shape of a sample is put together from its parts.  For a
    tensor of unknown rank, a sample shape whose static value has no negative
    dimension, and a batch shape and an event shape of known rank,
    [_set_sample_static_shape_for_tensor] returns and sets the shape to the
    sample shape followed by the batch shape followed by the event shape.  A
    negative dimension in the static value of the sample shape is the
    [ValueError] of [tf.TensorShape], whatever the tensor and the other
    shapes. *)
Theorem static_shape_of_a_sample :
  ∀ (T : Type) (sample : list Z) (batch_shape event_shape : list (option Z)),
    (Forall (λ d, 0 ≤ d)%Z sample →
     _set_sample_static_shape_for_tensor (T := T) None (Some event_shape)
       (Some batch_shape) (Some sample)
     = Ok (Some (map Some sample ++ batch_shape ++ event_shape)))
    ∧ (¬ Forall (λ d, 0 ≤ d)%Z sample →
       ∀ x event_shape batch_shape,
       ∃ d, d ∈ sample ∧ (d < 0)%Z
            ∧ _set_sample_static_shape_for_tensor (T := T) x event_shape
                batch_shape (Some sample)
              = Raise (ValueError_other
                         ("Dimension " +:+ pretty d +:+ " must be >= 0"))).
Proof.
  intros T sample bs es. split.
  - by apply static_shape_all_known.
  - intros Hneg x es' bs'. by apply static_shape_negative.
Qed.

Lemma static_shape_of_a_sample_witness :
  (Forall (λ d, 0 ≤ d)%Z [2; 3]%Z
   ∧ _set_sample_static_shape_for_tensor (T := Z) None (Some [Some 5%Z])
       (Some [None]) (Some [2; 3]%Z)
     = Ok (Some [Some 2; Some 3; None; Some 5]%Z))
  ∧ (¬ Forall (λ d, 0 ≤ d)%Z [2; -1]%Z
     ∧ ∃ d, d ∈ [2; -1]%Z ∧ (d < 0)%Z
            ∧ _set_sample_static_shape_for_tensor (T := Z) None None None
                (Some [2; -1]%Z)
              = Raise (ValueError_other
                         ("Dimension " +:+ pretty d +:+ " must be >= 0"))).
Proof.
  assert (H1 : Forall (λ d, 0 ≤ d)%Z [2; 3]%Z)
    by (repeat constructor; lia).
  assert (H2 : ¬ Forall (λ d, 0 ≤ d)%Z [2; -1]%Z).
  { intros Hf. inversion Hf as [|? ? _ Hf']. inversion Hf' as [|? ? Hd _]. lia. }
  split.
  - split; [exact H1|].
    exact (proj1 (static_shape_of_a_sample Z [2; 3]%Z [None] [Some 5%Z]) H1).
  - split; [exact H2|].
    exact (proj2 (static_shape_of_a_sample Z [2; -1]%Z [] []) H2
             None None None).
Defined.

(** X14: [_set_sample_static_shape_for_tensor] only adds to what is known of
    the shape of the tensor.  When it returns, the shape has the rank the
    tensor had, if it had one, and every dimension that was known is
    unchanged; a tensor whose shape was fully known keeps it. *)
Theorem static_shape_is_refined :
  ∀ (T : Type) (x event_shape batch_shape : TensorShape)
    (sample_shape : option (list Z)) (r : TensorShape),
    _set_sample_static_shape_for_tensor (T := T) x event_shape batch_shape
      sample_shape = Ok r →
    refines x r
    ∧ ∀ dims, x = Some (map Some dims) → r = x.
Proof.
  intros T x es bs ss r Hr.
  pose proof (static_shape_refines x es bs ss r Hr) as Href.
  split; [done|]. intros dims ->. by apply refines_defined.
Qed.

Lemma static_shape_is_refined_witness :
  let x : TensorShape := Some [Some 2%Z; None; None] in
  let r : TensorShape := Some [Some 2%Z; Some 3%Z; Some 4%Z] in
  _set_sample_static_shape_for_tensor (T := Z) x (Some [Some 4%Z])
    (Some [Some 3%Z]) None = Ok r
  ∧ refines x r.
Proof.
  intros x r.
  assert (H : _set_sample_static_shape_for_tensor (T := Z) x (Some [Some 4%Z])
                (Some [Some 3%Z]) None = Ok r) by (vm_compute; reflexivity).
  split; [exact H|].
  exact (proj1 (static_shape_is_refined Z x (Some [Some 4%Z])
                  (Some [Some 3%Z]) None r H)).
Defined.

(** X15: ranks that do not add up are an error.  When the tensor, the sample
    shape, the batch shape and the event shape all have a known rank and the
    rank of the tensor is not the sum of the other three,
    [_set_sample_static_shape_for_tensor] raises a [ValueError]. *)
Theorem static_shape_rank_error :
  ∀ (T : Type) (xs : list (option Z)) (sample : list Z)
    (batch_shape event_shape : list (option Z)),
    length xs ≠ length sample + length batch_shape + length event_shape →
    ∃ msg,
      _set_sample_static_shape_for_tensor (T := T) (Some xs)
        (Some event_shape) (Some batch_shape) (Some sample)
      = Raise (ValueError_other msg).
Proof. intros. by apply static_shape_rank_mismatch. Qed.

Lemma static_shape_rank_error_witness :
  let xs : list (option Z) := [None; None] in
  let sample := [5%Z] in
  let batch_shape : list (option Z) := [Some 3%Z] in
  let event_shape : list (option Z) := [Some 4%Z] in
  length xs ≠ length sample + length batch_shape + length event_shape
  ∧ ∃ msg,
      _set_sample_static_shape_for_tensor (T := Z) (Some xs)
        (Some event_shape) (Some batch_shape) (Some sample)
      = Raise (ValueError_other msg).
Proof.
  intros xs sample batch_shape event_shape.
  assert (H : length xs
              ≠ length sample + length batch_shape + length event_shape)
    by (simpl; lia).
  split; [exact H|].
  exact (static_shape_rank_error Z xs sample batch_shape event_shape H).
Defined.

End ShapeFacts.

(** ** Statistics, distribution functions and the cast of a value *)

Module DistributionMore.

Import Distribution Statistics Examples StatisticsExamples.

Section facts.
Context {T : Type} `{TensorBackend T} `{MathBackend T}.
Implicit Types (self : Statistical T) (kwargs : kwargs_t T).

Lemma variance_from_stddev self kwargs what s r :
  _control_dependencies (measures self) None ∅ = Ok tt →
  _variance self kwargs = Raise (NotImplementedError what) →
  _stddev self kwargs = Ok s →
  map_square s = Ok r →
  variance self kwargs = Ok r.
Proof.
  intros Hd Hv Hs Hr. unfold variance. rewrite Hd, Hv, Hs. simpl.
  by rewrite Hr.
Qed.

Lemma stddev_from_variance self kwargs what v r :
  _control_dependencies (measures self) None ∅ = Ok tt →
  _stddev self kwargs = Raise (NotImplementedError what) →
  _variance self kwargs = Ok v →
  map_sqrt v = Ok r →
  stddev self kwargs = Ok r.
Proof.
  intros Hd Hs Hv Hr. unfold stddev. rewrite Hd, Hs, Hv. simpl.
  by rewrite Hr.
Qed.

Lemma neither_variance_nor_stddev self kwargs what what' :
  _control_dependencies (measures self) None ∅ = Ok tt →
  _variance self kwargs = Raise (NotImplementedError what) →
  _stddev self kwargs = Raise (NotImplementedError what') →
  variance self kwargs = Raise (NotImplementedError what)
  ∧ stddev self kwargs = Raise (NotImplementedError what').
Proof.
  intros Hd Hv Hs. unfold variance, stddev. by rewrite Hd, Hv, Hs.
Qed.

Lemma log_survival_fallback self value kwargs x what :
  enter self value kwargs = Ok x →
  _log_survival_function self x kwargs = Raise (NotImplementedError what) →
  log_survival_function self value kwargs
  = match _log_cdf self, _cdf self with
    | Some f, _ => lc ← f x kwargs; log1mexp lc
    | None, Some g => c ← g x kwargs; m ← tf_negative c; tf_log1p m
    | None, None => Raise (NotImplementedError what)
    end.
Proof.
  intros He Hl. unfold log_survival_function, _call_log_survival_function.
  rewrite He. simpl. rewrite Hl. by destruct (_log_cdf self), (_cdf self).
Qed.

Lemma cdf_entered self x kwargs g :
  enter self x kwargs = Ok x →
  _cdf self = Some g →
  cdf self x kwargs = g x kwargs.
Proof.
  intros He Hg. unfold cdf, _call_cdf. rewrite He. simpl. by rewrite Hg.
Qed.

Lemma survival_fallback self value kwargs x what :
  enter self value kwargs = Ok x →
  _survival_function self x kwargs = Raise (NotImplementedError what) →
  survival_function self value kwargs
  = match _log_cdf self, _cdf self with
    | Some f, _ => lc ← f x kwargs; e ← tf_expm1 lc; tf_negative e
    | None, Some _ => c ← cdf self x kwargs; one_minus c
    | None, None => Raise (NotImplementedError what)
    end.
Proof.
  intros He Hl. unfold survival_function, _call_survival_function.
  rewrite He. simpl. rewrite Hl. by destruct (_log_cdf self), (_cdf self).
Qed.

Lemma cdf_from_log_cdf self value kwargs f :
  _log_cdf self = Some f →
  _cdf self = None →
  cdf self value kwargs = (lc ← log_cdf self value kwargs; tf_exp lc).
Proof.
  intros Hf Hg. unfold cdf, log_cdf, _call_cdf, _call_log_cdf.
  rewrite Hf, Hg. by destruct (enter self value kwargs).
Qed.

Lemma log_cdf_from_cdf self value kwargs g :
  _cdf self = Some g →
  _log_cdf self = None →
  log_cdf self value kwargs = (c ← cdf self value kwargs; tf_math_log c).
Proof.
  intros Hg Hf. unfold cdf, log_cdf, _call_cdf, _call_log_cdf.
  rewrite Hf, Hg. by destruct (enter self value kwargs).
Qed.

Lemma neither_cdf_nor_log_cdf self value kwargs x :
  _cdf self = None →
  _log_cdf self = None →
  enter self value kwargs = Ok x →
  cdf self value kwargs = Raise (NotImplementedError "cdf")
  ∧ log_cdf self value kwargs = Raise (NotImplementedError "log_cdf").
Proof.
  intros Hg Hf He. unfold cdf, log_cdf, _call_cdf, _call_log_cdf.
  by rewrite Hf, Hg, He.
Qed.

End facts.

(** X16: [variance] and [stddev] fall back on each other.  Past the parameter
    assertions: a distribution whose [_variance] raises [NotImplementedError]
    and whose [_stddev] returns has for variance the square of that standard
    deviation; one whose [_stddev] raises it and whose [_variance] returns has
    for standard deviation the square root of that variance; and when both
    raise it, each public method raises the [NotImplementedError] of its own
    private method, not that of the fallback. *)
Theorem variance_and_stddev_fall_back :
  ∀ (T : Type) (B : TensorBackend T) (M : MathBackend T)
    (self : Statistical T) (kwargs : kwargs_t T),
    _control_dependencies (measures self) None ∅ = Ok tt →
    (∀ what s r,
       _variance self kwargs = Raise (NotImplementedError what) →
       _stddev self kwargs = Ok s →
       map_square s = Ok r →
       variance self kwargs = Ok r)
    ∧ (∀ what v r,
         _stddev self kwargs = Raise (NotImplementedError what) →
         _variance self kwargs = Ok v →
         map_sqrt v = Ok r →
         stddev self kwargs = Ok r)
    ∧ (∀ what what',
         _variance self kwargs = Raise (NotImplementedError what) →
         _stddev self kwargs = Raise (NotImplementedError what') →
         variance self kwargs = Raise (NotImplementedError what)
         ∧ stddev self kwargs = Raise (NotImplementedError what')).
Proof.
  intros T B M self kwargs Hd. split; [|split].
  - intros what s r. by apply variance_from_stddev.
  - intros what v r. by apply stddev_from_variance.
  - intros what what'. by apply neither_variance_nor_stddev.
Qed.

Lemma variance_and_stddev_fall_back_witness :
  let d := with_stddev_and_log_cdf in
  let n := with_nothing in
  (_control_dependencies (measures d) None ∅ = Ok tt
   ∧ _variance d ∅ = Raise (NotImplementedError "variance")
   ∧ _stddev d ∅ = Ok (PTensor 3%Z)
   ∧ map_square (PTensor 3%Z) = Ok (PTensor 9%Z)
   ∧ variance d ∅ = Ok (PTensor 9%Z))
  ∧ (_control_dependencies (measures n) None ∅ = Ok tt
     ∧ _variance n ∅ = Raise (NotImplementedError "variance")
     ∧ _stddev n ∅ = Raise (NotImplementedError "stddev")
     ∧ variance n ∅ = Raise (NotImplementedError "variance")
     ∧ stddev n ∅ = Raise (NotImplementedError "stddev")).
Proof.
  intros d n.
  assert (H1 : _control_dependencies (measures d) None ∅ = Ok tt)
    by reflexivity.
  assert (H2 : _variance d ∅ = Raise (NotImplementedError "variance"))
    by reflexivity.
  assert (H3 : _stddev d ∅ = Ok (PTensor 3%Z)) by reflexivity.
  assert (H4 : map_square (PTensor 3%Z) = Ok (PTensor 9%Z)) by reflexivity.
  assert (H5 : _control_dependencies (measures n) None ∅ = Ok tt)
    by reflexivity.
  assert (H6 : _variance n ∅ = Raise (NotImplementedError "variance"))
    by reflexivity.
  assert (H7 : _stddev n ∅ = Raise (NotImplementedError "stddev"))
    by reflexivity.
  split.
  - split; [exact H1|]. split; [exact H2|]. split; [exact H3|].
    split; [exact H4|].
    exact (proj1 (variance_and_stddev_fall_back Z integer_backend integer_math
                    d ∅ H1) "variance" (PTensor 3%Z) (PTensor 9%Z) H2 H3 H4).
  - split; [exact H5|]. split; [exact H6|]. split; [exact H7|].
    exact (proj2 (proj2 (variance_and_stddev_fall_back Z integer_backend
                           integer_math n ∅ H5))
             "variance" "stddev" H6 H7).
Defined.

(** X17: the survival functions fall back on the distribution function.  At a
    value [x] that came through the cast, the conversion and the assertions,
    when [_log_survival_function] and [_survival_function] raise
    [NotImplementedError]: with a [_log_cdf], the log survival function is
    [log1mexp] of it and the survival function is minus [expm1] of it,
    whether or not there is a [_cdf]; with a [_cdf] only, they are
    [log1p(-cdf)] and one minus the public [cdf] at [x]; with neither, each
    raises the [NotImplementedError] of its own private method. *)
Theorem survival_functions_fall_back :
  ∀ (T : Type) (B : TensorBackend T) (M : MathBackend T)
    (self : Statistical T) (value x : pyval T) (kwargs : kwargs_t T)
    (what what' : string),
    enter self value kwargs = Ok x →
    _log_survival_function self x kwargs = Raise (NotImplementedError what) →
    _survival_function self x kwargs = Raise (NotImplementedError what') →
    (∀ f, _log_cdf self = Some f →
          log_survival_function self value kwargs
          = (lc ← f x kwargs; log1mexp lc)
          ∧ survival_function self value kwargs
            = (lc ← f x kwargs; e ← tf_expm1 lc; tf_negative e))
    ∧ (∀ g, _log_cdf self = None → _cdf self = Some g →
            log_survival_function self value kwargs
            = (c ← g x kwargs; m ← tf_negative c; tf_log1p m)
            ∧ survival_function self value kwargs
              = (c ← cdf self x kwargs; one_minus c))
    ∧ (_log_cdf self = None → _cdf self = None →
       log_survival_function self value kwargs
       = Raise (NotImplementedError what)
       ∧ survival_function self value kwargs
         = Raise (NotImplementedError what')).
Proof.
  intros T B M self value x kwargs what what' He Hl Hs.
  rewrite (log_survival_fallback self value kwargs x what He Hl).
  rewrite (survival_fallback self value kwargs x what' He Hs).
  split; [|split].
  - by intros f ->.
  - by intros g -> ->.
  - by intros -> ->.
Qed.

Lemma survival_functions_fall_back_witness :
  let d := with_stddev_and_log_cdf in
  let f := λ (value : pyval Z) (_ : kwargs_t Z), Ok value : result Z (pyval Z) in
  enter d (float 3) ∅ = Ok (float 3)
  ∧ _log_survival_function d (float 3) ∅
    = Raise (NotImplementedError "log_survival_function")
  ∧ _survival_function d (float 3) ∅
    = Raise (NotImplementedError "survival_function")
  ∧ _log_cdf d = Some f
  ∧ log_survival_function d (float 3) ∅ = log1mexp (float 3)
  ∧ survival_function d (float 3) ∅ = Ok (float (-7)).
Proof.
  intros d f.
  assert (H1 : enter d (float 3) ∅ = Ok (float 3)) by reflexivity.
  assert (H2 : _log_survival_function d (float 3) ∅
               = Raise (NotImplementedError "log_survival_function"))
    by reflexivity.
  assert (H3 : _survival_function d (float 3) ∅
               = Raise (NotImplementedError "survival_function"))
    by reflexivity.
  assert (H4 : _log_cdf d = Some f) by reflexivity.
  split; [exact H1|]. split; [exact H2|]. split; [exact H3|].
  split; [exact H4|].
  exact (proj1 (survival_functions_fall_back Z integer_backend integer_math d
                  (float 3) (float 3) ∅ _ _ H1 H2 H3) f H4).
Defined.

(** X18: [cdf] and [log_cdf] are derived from each other.  For a distribution
    that defines only [_log_cdf], [cdf(x)] is [tf.exp] of [log_cdf(x)]; for
    one that defines only [_cdf], [log_cdf(x)] is [tf.math.log] of [cdf(x)];
    for one that defines neither, both raise [NotImplementedError] at every
    [x] that the cast, the conversion and the assertions let through. *)
Theorem cdf_and_log_cdf_derived :
  ∀ (T : Type) (B : TensorBackend T) (M : MathBackend T)
    (self : Statistical T) (value : pyval T) (kwargs : kwargs_t T),
    (∀ f, _log_cdf self = Some f → _cdf self = None →
          cdf self value kwargs
          = (lc ← log_cdf self value kwargs; tf_exp lc))
    ∧ (∀ g, _cdf self = Some g → _log_cdf self = None →
            log_cdf self value kwargs
            = (c ← cdf self value kwargs; tf_math_log c))
    ∧ (∀ x, _cdf self = None → _log_cdf self = None →
            enter self value kwargs = Ok x →
            cdf self value kwargs = Raise (NotImplementedError "cdf")
            ∧ log_cdf self value kwargs
              = Raise (NotImplementedError "log_cdf")).
Proof.
  intros T B M self value kwargs. split; [|split].
  - intros f. by apply cdf_from_log_cdf.
  - intros g. by apply log_cdf_from_cdf.
  - intros x. by apply neither_cdf_nor_log_cdf.
Qed.

Lemma cdf_and_log_cdf_derived_witness :
  let d := with_stddev_and_log_cdf in
  let n := with_nothing in
  let f := λ (value : pyval Z) (_ : kwargs_t Z), Ok value : result Z (pyval Z) in
  (_log_cdf d = Some f
   ∧ _cdf d = None
   ∧ log_cdf d (float 3) ∅ = Ok (float 3)
   ∧ cdf d (float 3) ∅ = Ok (float 8))
  ∧ (_cdf n = None
     ∧ _log_cdf n = None
     ∧ enter n (float 3) ∅ = Ok (float 3)
     ∧ cdf n (float 3) ∅ = Raise (NotImplementedError "cdf")
     ∧ log_cdf n (float 3) ∅ = Raise (NotImplementedError "log_cdf")).
Proof.
  intros d n f.
  assert (H1 : _log_cdf d = Some f) by reflexivity.
  assert (H2 : _cdf d = None) by reflexivity.
  assert (H3 : _cdf n = None) by reflexivity.
  assert (H4 : _log_cdf n = None) by reflexivity.
  assert (H5 : enter n (float 3) ∅ = Ok (float 3)) by reflexivity.
  split.
  - split; [exact H1|]. split; [exact H2|]. split; [reflexivity|].
    exact (proj1 (cdf_and_log_cdf_derived Z integer_backend integer_math d
                    (float 3) ∅) f H1 H2).
  - split; [exact H3|]. split; [exact H4|]. split; [exact H5|].
    exact (proj2 (proj2 (cdf_and_log_cdf_derived Z integer_backend
                           integer_math n (float 3) ∅))
             (float 3) H3 H4 H5).
Defined.

(** X19: [_cast_structure] is idempotent.  A value that came out of the cast
    to a structure is unchanged by a second cast to that structure, so the
    public methods that call one another cast the value once; and a structure
    is its own cast. *)
Theorem cast_structure_is_idempotent :
  ∀ (T : Type) (B : TensorBackend T) (value structure cast : pyval T),
    _cast_structure value structure = Ok cast →
    _cast_structure cast structure = Ok cast
    ∧ _cast_structure structure structure = Ok structure.
Proof.
  intros T B value structure cast Hc. split.
  - unfold _cast_structure in *.
    destruct structure; simpl in *; try (by injection Hc as <-).
    + destruct (py_iter value); simpl in Hc; [|done]. by injection Hc as <-.
    + destruct (py_iter value); simpl in Hc; [|done]. by injection Hc as <-.
    + destruct (py_items value); simpl in Hc; [|done]. by injection Hc as <-.
    + destruct (py_items value); simpl in Hc; [|done]. by injection Hc as <-.
  - unfold _cast_structure. by destruct structure.
Qed.

Lemma cast_structure_is_idempotent_witness :
  let value : pyval Z := PTuple [float 1; float 2] in
  let structure : pyval Z := PList [PDType "float32"; PDType "float32"] in
  let cast : pyval Z := PList [float 1; float 2] in
  _cast_structure value structure = Ok cast
  ∧ _cast_structure cast structure = Ok cast.
Proof.
  intros value structure cast.
  assert (H : _cast_structure value structure = Ok cast) by reflexivity.
  split; [exact H|].
  exact (proj1 (cast_structure_is_idempotent Z integer_backend value structure
                  cast H)).
Defined.

End DistributionMore.

(** ** The parameters of a new instance *)

Module ObjectMore.

Import Object Examples.

Section facts.
Context {T : Type}.
Implicit Types (kwargs callargs : gmap string (pyval T)).
Implicit Types (sig : list (string * option (pyval T))).

Lemma bind_arguments_dom sig kwargs callargs :
  bind_arguments sig kwargs = Ok callargs →
  dom callargs = list_to_set sig.*1.
Proof.
  revert kwargs callargs. induction sig as [|[k dflt] sig IH];
    intros kwargs callargs; simpl.
  - case_decide; [|done]. intros [= <-]. by rewrite dom_empty_L.
  - destruct (match kwargs !! k, dflt with
              | Some v, _ => Ok v
              | None, Some v => Ok v
              | None, None => Raise _
              end) as [v|]; simpl; [|done].
    destruct (bind_arguments sig (delete k kwargs)) as [rest|] eqn:E; simpl;
      [|done].
    intros [= <-]. rewrite dom_insert_L. by rewrite (IH _ _ E).
Qed.

Lemma bind_arguments_keeps sig kwargs callargs :
  bind_arguments sig kwargs = Ok callargs → kwargs ⊆ callargs.
Proof.
  intros Hb. apply map_subseteq_spec. revert kwargs callargs Hb.
  induction sig as [|[k dflt] sig IH]; intros kwargs callargs; simpl.
  - case_decide as He; [|done]. intros _ i x. by rewrite He, lookup_empty.
  - intros Hb i x Hi. destruct (decide (i = k)) as [->|Hne].
    + rewrite Hi in Hb. simpl in Hb.
      destruct (bind_arguments sig (delete k kwargs)) as [rest|]; simpl in Hb;
        [|done].
      injection Hb as <-. by rewrite lookup_insert_eq.
    + destruct (match kwargs !! k, dflt with
                | Some v, _ => Ok v
                | None, Some v => Ok v
                | None, None => Raise _
                end) as [v|]; simpl in Hb; [|done].
      destruct (bind_arguments sig (delete k kwargs)) as [rest|] eqn:E;
        simpl in Hb; [|done].
      injection Hb as <-. rewrite lookup_insert_ne by done.
      apply (IH _ _ E). by rewrite lookup_delete_ne.
Qed.

Lemma constructed_read cls kwargs (h : heap T) d h' :
  class_wf cls →
  closed_items h kwargs →
  construct cls kwargs h = (Ok d, h') →
  ∃ callargs,
    bind_arguments (init_args cls) kwargs = Ok callargs
    ∧ (read_parameters d h').1 = Ok (kept_arguments cls callargs)
    ∧ dom callargs = list_to_set (init_args cls).*1
    ∧ kwargs ⊆ callargs
    ∧ (∀ k v, callargs !! k = Some v → kwargs !! k = None →
              (k, Some v) ∈ init_args cls)
    ∧ (∀ k v, kept_arguments cls callargs !! k = Some v
              ↔ callargs !! k = Some v
                ∧ (init_passes_locals cls = false → v ≠ PTuple [])).
Proof.
  intros Hwf Hcl Hc.
  destruct (ObjectFacts.construct_parameters cls kwargs h d h' Hwf Hcl Hc)
    as (callargs & Hb & _ & _ & _ & Hof & _).
  exists callargs. split; [done|].
  split; [exact (ObjectFacts.read_parameters_of _ _ _ Hof)|].
  split; [exact (bind_arguments_dom _ _ _ Hb)|].
  split; [exact (bind_arguments_keeps _ _ _ Hb)|].
  split.
  - intros k v Hk Hn.
    destruct (ObjectFacts.bind_arguments_lookup _ _ _ _ _ Hb Hk) as [_ [Hkw|Hd]];
      [congruence|done].
  - intros k v. apply ObjectFacts.kept_arguments_lookup.
Qed.

End facts.

(** X20: the parameters of a new instance are the arguments of its
    construction that the wrapper keeps.  For a type with a well-formed
    [__init__], called with keywords whose values are not objects still to be
    made: the call arguments have one entry for each argument of [__init__],
    hold every keyword of the call with its value, and hold for every other
    argument its default; when the constructor returns, [parameters] of the
    new instance is those call arguments if the [__init__] hands on
    [dict(locals())], and those of them that are not the empty tuple if it
    does not. *)
Theorem parameters_of_a_new_instance :
  ∀ (T : Type) (cls : dist_class T) (kwargs : gmap string (pyval T))
    (h h' : heap T) (d : addr),
    class_wf cls →
    closed_items h kwargs →
    construct cls kwargs h = (Ok d, h') →
    ∃ callargs,
      bind_arguments (init_args cls) kwargs = Ok callargs
      ∧ (read_parameters d h').1 = Ok (kept_arguments cls callargs)
      ∧ dom callargs = list_to_set (init_args cls).*1
      ∧ kwargs ⊆ callargs
      ∧ (∀ k v, callargs !! k = Some v → kwargs !! k = None →
                (k, Some v) ∈ init_args cls)
      ∧ (∀ k v, kept_arguments cls callargs !! k = Some v
                ↔ callargs !! k = Some v
                  ∧ (init_passes_locals cls = false → v ≠ PTuple [])).
Proof. intros T cls kwargs h h' d. apply constructed_read. Qed.

Lemma parameters_of_a_new_instance_witness :
  let h' := (construct Normal normal_kwargs ∅).2 in
  let shape : gmap string (pyval Z) := {["sample_shape" := PTuple []]} in
  let hp := (construct Plain shape ∅).2 in
  (class_wf Normal
   ∧ closed_items (∅ : heap Z) normal_kwargs
   ∧ construct Normal normal_kwargs ∅ = (Ok 0, h')
   ∧ (read_parameters 0 h').1
     = Ok {["loc" := float 0; "scale" := float 1;
            "validate_args" := PInt 0; "name" := PStr "Normal"]}
   ∧ ∃ callargs,
       bind_arguments (init_args Normal) normal_kwargs = Ok callargs
       ∧ (read_parameters 0 h').1 = Ok (kept_arguments Normal callargs)
       ∧ dom callargs = list_to_set (init_args Normal).*1
       ∧ normal_kwargs ⊆ callargs
       ∧ (∀ k v, callargs !! k = Some v → normal_kwargs !! k = None →
                 (k, Some v) ∈ init_args Normal)
       ∧ (∀ k v, kept_arguments Normal callargs !! k = Some v
                 ↔ callargs !! k = Some v
                   ∧ (init_passes_locals Normal = false → v ≠ PTuple [])))
  ∧ (class_wf Plain
     ∧ closed_items (∅ : heap Z) shape
     ∧ construct Plain shape ∅ = (Ok 0, hp)
     ∧ (read_parameters 0 hp).1 = Ok {["name" := PStr "Plain"]}
     ∧ ∃ callargs,
         bind_arguments (init_args Plain) shape = Ok callargs
         ∧ (read_parameters 0 hp).1 = Ok (kept_arguments Plain callargs)
         ∧ dom callargs = list_to_set (init_args Plain).*1
         ∧ shape ⊆ callargs
         ∧ (∀ k v, callargs !! k = Some v → shape !! k = None →
                   (k, Some v) ∈ init_args Plain)
         ∧ (∀ k v, kept_arguments Plain callargs !! k = Some v
                   ↔ callargs !! k = Some v
                     ∧ (init_passes_locals Plain = false → v ≠ PTuple []))).
Proof.
  intros h' shape hp.
  assert (Hwf : class_wf Normal).
  { split; [|split].
    - apply (bool_decide_unpack (NoDup (init_args Normal).*1)). by vm_compute.
    - repeat constructor; by vm_compute.
    - repeat constructor. }
  assert (Hclosed : closed_items (∅ : heap Z) normal_kwargs).
  { apply map_Forall_to_list. vm_compute. repeat constructor. }
  assert (Hbuilt : construct Normal normal_kwargs ∅ = (Ok 0, h'))
    by (vm_compute; reflexivity).
  assert (Hwfp : class_wf Plain).
  { split; [|split].
    - apply (bool_decide_unpack (NoDup (init_args Plain).*1)). by vm_compute.
    - repeat constructor; by vm_compute.
    - repeat constructor. }
  assert (Hclosedp : closed_items (∅ : heap Z) shape).
  { apply map_Forall_to_list. vm_compute. repeat constructor. }
  assert (Hbuiltp : construct Plain shape ∅ = (Ok 0, hp))
    by (vm_compute; reflexivity).
  split.
  - split; [exact Hwf|]. split; [exact Hclosed|]. split; [exact Hbuilt|].
    split; [by vm_compute|].
    exact (parameters_of_a_new_instance Z Normal normal_kwargs ∅ h' 0
             Hwf Hclosed Hbuilt).
  - split; [exact Hwfp|]. split; [exact Hclosedp|]. split; [exact Hbuiltp|].
    split; [by vm_compute|].
    exact (parameters_of_a_new_instance Z Plain shape ∅ hp 0
             Hwfp Hclosedp Hbuiltp).
Defined.

End ObjectMore.
